(** * The record store of the server package: [packages/server/src/db/index.ts]

    A shallow embedding of the [Database] class and of the feed projector
    [rowToFeedItem], together with the properties of the record store
    that are stated about them.

    Conventions of the embedding.
    - An [async] method is one atomic step on the state of the SQL
      database: a function from the state before the call to the outcome
      (an exception or a value) and the state after it.  A rejected
      promise keeps the writes made before the rejection, so the state is
      returned on failure too.
    - A table is the list of its rows in insertion order; a query without
      [ORDER BY] scans it in that order and [executeTakeFirst] is the head
      of the scan.
    - Only the failures that the code itself raises or that the stated
      constraints of a table force are modelled; a lost connection is not.
    - Logging ([log.debug], [log.info]) has no effect on the state and is
      left out.
    - A string is a string of bytes, the text in UTF-8.  The two case
      foldings that the lookups of users compare, [toUpperCase] of the
      runtime and [UPPER] of the database engine, are parameters of the
      store: they agree on ASCII strings and not beyond.
    - The [limit] of a listing is a count of rows. *)

From Stdlib Require Import String Ascii List Bool ZArith Arith Lia.
From Stdlib Require Import Permutation Sorted OrderedTypeEx DecimalString.
From Stdlib Require DecimalFacts DecimalPos DecimalN DecimalZ.
Import ListNotations.
Local Open Scope string_scope.

Set Implicit Arguments.

(** ** JavaScript values used by the module *)

Module Js.

(** What a [throw] carries: [new Error(message)] of this module, the
    [SyntaxError] of [JSON.parse], or a rejection by the storage
    backend. *)
Inductive exn : Type :=
| Error (message : string)
| SyntaxError
| StorageFailure.

(** A call either throws or returns. *)
Definition result (A : Type) : Type := (exn + A)%type.

Definition throw {A : Type} (e : exn) : result A := inl e.
Definition ok {A : Type} (a : A) : result A := inr a.

(** [T | null] as a database row has it. *)
Inductive nullable (A : Type) : Type :=
| null : nullable A
| notnull : A -> nullable A.
Arguments null {A}.
Arguments notnull {A} _.

(** [x ?? undefined]: [undefined] is [None]. *)
Definition coalesce_undefined {A : Type} (x : nullable A) : option A :=
  match x with
  | null => None
  | notnull a => Some a
  end.

(** [s.startsWith(p)]. *)
Definition startsWith (s p : string) : bool := String.prefix p s.

(** The case folding of the ASCII letters: [a]-[z] move to [A]-[Z], every
    other byte stays.  Strings are byte strings here, the text in UTF-8. *)
Definition upper_ascii (c : ascii) : ascii :=
  let n := nat_of_ascii c in
  if ((97 <=? n) && (n <=? 122))%nat then ascii_of_nat (n - 32) else c.

Fixpoint fold_ascii (s : string) : string :=
  match s with
  | EmptyString => EmptyString
  | String c s' => String (upper_ascii c) (fold_ascii s')
  end.

(** Whether a string is made of ASCII characters only. *)
Fixpoint is_ascii (s : string) : bool :=
  match s with
  | EmptyString => true
  | String c s' => (nat_of_ascii c <? 128)%nat && is_ascii s'
  end.

End Js.

(** ** The lexicon's validation verdict *)

Module Lexicon.

Inductive ValidationResultCode : Type :=
| Full
| Partial
| Incompatible
| Invalid.

(** Modelled from the spec: the class [ValidationResult] of the lexicon
    package is not part of the sources at hand.  The spec describes a
    verdict carrying [valid], [code] and [message]; a fresh verdict is a
    full match, and the transition [_t] moves it to the given code and
    records the message with it.  [valid] is read off the code. *)
Record ValidationResult : Type := {
  code : ValidationResultCode;
  message : option string
}.

Definition new_ValidationResult : ValidationResult :=
  {| code := Full; message := None |}.

Definition _t (r : ValidationResult) (to : ValidationResultCode)
    (msg : string) : ValidationResult :=
  {| code := to; message := Some msg |}.

Definition valid (r : ValidationResult) : bool :=
  match code r with
  | Full | Partial => true
  | Incompatible | Invalid => false
  end.

End Lexicon.

(** ** Record URIs *)

Module AdxUri.

(** An [AdxUri] as this module observes it: the three getters it reads
    and the string [toString()] serialises it to. *)
Record t : Type := {
  host : string;
  collection : string;
  recordKey : string;
  toString : string
}.

End AdxUri.

(** ** Rows of the tables *)

Module RecordTbl.

(** A row of the generic log, table [record]. *)
Record row : Type := {
  uri : string;
  did : string;
  collection : string;
  recordKey : string;
  raw : string;
  indexedAt : string;
  receivedAt : string
}.

End RecordTbl.

Module RepoRootTbl.

(** A row of table [repo_root]. *)
Record row : Type := {
  did : string;
  root : string
}.

End RepoRootTbl.

Module UserTbl.

(** A row of table [user]. *)
Record row : Type := {
  did : string;
  username : string;
  email : string;
  password : string;
  createdAt : string;
  lastSeenNotifs : string
}.

End UserTbl.

Module Listed.

(** An entry of the list that [listRecordsForCollection] returns, over
    the type of the decoded payloads. *)
Record t (unknown : Type) : Type := {
  uri : string;
  value : unknown
}.

End Listed.

(** ** The state monad of the store

    A computation on a state [S] that may throw; the state survives the
    exception. *)

Definition M (S A : Type) : Type := S -> Js.result A * S.

Definition ret {S A : Type} (a : A) : M S A := fun s => (Js.ok a, s).

Definition raise {S A : Type} (e : Js.exn) : M S A := fun s => (Js.throw e, s).

Definition bind {S A B : Type} (m : M S A) (k : A -> M S B) : M S B :=
  fun s =>
    match m s with
    | (inl e, s') => (inl e, s')
    | (inr a, s') => k a s'
    end.

(** A synchronous call that may throw, inside an [async] body. *)
Definition lift {S A : Type} (r : Js.result A) : M S A := fun s => (r, s).

Declare Scope store_scope.
Delimit Scope store_scope with store.
Notation "x <- m ;; k" := (bind m (fun x => k))
  (at level 100, m at next level, right associativity) : store_scope.
Notation "m ;; k" := (bind m (fun _ => k))
  (at level 100, right associativity) : store_scope.

(** The order of record keys under [ORDER BY] and in the bounds [<] and
    [>]: the byte order of the strings, which is the collation [BINARY] of
    the embedded engine. *)
Definition key_lt (a b : string) : bool := String.ltb a b.

Section Store.

(** *** What the module takes from its collaborators *)

(** The payloads, [unknown] in the source, and the two functions of the
    global [JSON] object. *)
Variable unknown : Type.
Variable JSON_stringify : unknown -> string.
Variable JSON_parse : string -> Js.result unknown.

(** Content addresses, [CID] of [multiformats]. *)
Variable CID : Type.
Variable CID_toString : CID -> string.
Variable CID_parse : string -> Js.result CID.

(** [scrypt.verify(password, hash)] of [./scrypt]. *)
Variable scrypt_verify : string -> string -> bool.

(** The two case foldings that the lookups of users compare.
    [toUpperCase] is [String.prototype.toUpperCase] of the runtime, which
    follows Unicode; [UPPER] is the SQL function of that name, which the
    database engine computes: the embedded engine folds the letters
    [a]-[z] only, the server engine follows its locale. *)
Variable toUpperCase : string -> string.
Variable UPPER : string -> string.

(** The tables that the record plugins own, the table of the
    notifications plugin, and the events that go into it.  Each plugin
    reads and writes its own tables only. *)
Variable Typed : Type.
Variable Notifs : Type.
Variable Notification : Type.

(** [DbRecordPlugin] of [./types]. *)
Record DbRecordPlugin : Type := {
  collection : string;
  validateSchema : unknown -> Lexicon.ValidationResult;
  insert : AdxUri.t -> unknown -> M Typed unit;
  delete : AdxUri.t -> M Typed unit;
  notifsForRecord : AdxUri.t -> unknown -> Js.result (list Notification)
}.

(** [NotificationsPlugin] of [./types]. *)
Record NotificationsPlugin : Type := {
  process : list Notification -> M Notifs unit;
  deleteForRecord : AdxUri.t -> M Notifs unit
}.

(** *** The state of the SQL database, [this.db] *)
Record Db : Type := {
  record : list RecordTbl.row;
  repo_root : list RepoRootTbl.row;
  user : list UserTbl.row;
  typed : Typed;
  user_notification : Notifs
}.

Definition set_record (f : list RecordTbl.row -> list RecordTbl.row)
    (s : Db) : Db :=
  {| record := f (record s); repo_root := repo_root s; user := user s;
     typed := typed s; user_notification := user_notification s |}.

Definition set_repo_root
    (f : list RepoRootTbl.row -> list RepoRootTbl.row) (s : Db) : Db :=
  {| record := record s; repo_root := f (repo_root s); user := user s;
     typed := typed s; user_notification := user_notification s |}.

(** A plugin call runs on the plugin's tables inside the database. *)
Definition on_typed {A : Type} (m : M Typed A) : M Db A :=
  fun s =>
    let '(r, t) := m (typed s) in
    (r, {| record := record s; repo_root := repo_root s; user := user s;
           typed := t; user_notification := user_notification s |}).

Definition on_notifs {A : Type} (m : M Notifs A) : M Db A :=
  fun s =>
    let '(r, n) := m (user_notification s) in
    (r, {| record := record s; repo_root := repo_root s; user := user s;
           typed := typed s; user_notification := n |}).

(** *** The [Database] object *)

(** [this.records], built by the constructor in this order of keys. *)
Record Records : Type := {
  post : DbRecordPlugin;
  like : DbRecordPlugin;
  repost : DbRecordPlugin;
  follow : DbRecordPlugin;
  badge : DbRecordPlugin;
  profile : DbRecordPlugin
}.

(** [Object.values(this.records)]: the values in the order in which the
    constructor adds the keys. *)
Definition Object_values (r : Records) : list DbRecordPlugin :=
  [post r; like r; repost r; follow r; badge r; profile r].

Record Database : Type := {
  records : Records;
  notifications : NotificationsPlugin
}.

(** [findTableForCollection]. *)
Definition findTableForCollection (this : Database) (coll : string)
    : Js.result DbRecordPlugin :=
  match find (fun plugin => String.eqb (collection plugin) coll)
             (Object_values (records this)) with
  | None => Js.throw (Js.Error "Could not find table for collection")
  | Some found => Js.ok found
  end.

(** Whether some plugin of [this.records] owns the collection. *)
Definition registered (this : Database) (coll : string) : bool :=
  existsb (fun plugin => String.eqb (collection plugin) coll)
          (Object_values (records this)).

(** [validateRecord]. *)
Definition validateRecord (this : Database) (coll : string) (obj : unknown)
    : Js.result Lexicon.ValidationResult :=
  match findTableForCollection this coll with
  | inl _ =>
      let result := Lexicon.new_ValidationResult in
      let result := Lexicon._t result Lexicon.Incompatible "Schema not found" in
      Js.ok result
  | inr table => Js.ok (validateSchema table obj)
  end.

(** [canIndexRecord]. *)
Definition canIndexRecord (this : Database) (coll : string) (obj : unknown)
    : Js.result bool :=
  match findTableForCollection this coll with
  | inl e => Js.throw e
  | inr table => Js.ok (Lexicon.valid (validateSchema table obj))
  end.

(** *** The generic log *)

(** Modelled from the spec: the declaration of table [record] is not
    part of the sources at hand.  The spec gives the serialised URI as
    the primary key of the generic log, so the backend rejects a row
    whose [uri] the table already has, and writes nothing then. *)
Definition insertInto_record (r : RecordTbl.row) : M Db unit :=
  fun s =>
    if existsb (fun r' => String.eqb (RecordTbl.uri r') (RecordTbl.uri r))
               (record s)
    then (Js.throw Js.StorageFailure, s)
    else (Js.ok tt, set_record (fun rows => (rows ++ [r])%list) s).

(** [deleteFrom('record').where('uri', '=', u)]. *)
Definition deleteFrom_record (u : string) : M Db unit :=
  fun s =>
    (Js.ok tt,
     set_record
       (filter (fun r => negb (String.eqb (RecordTbl.uri r) u))) s).

(** [Promise.all] over effects that are already started: every one of
    them runs to its end, and the call rejects when one of them does.
    The effects of [deleteRecord] work on different tables, so the order
    in which they are run here does not show in the state. *)
Fixpoint Promise_all {S : Type} (ps : list (M S unit)) : M S unit :=
  fun s =>
    match ps with
    | [] => (Js.ok tt, s)
    | p :: ps' =>
        let '(r, s1) := p s in
        let '(r', s2) := Promise_all ps' s1 in
        (match r with inl e => inl e | inr _ => r' end, s2)
    end.

(** [indexRecord].  [indexedAt] and [receivedAt] are the two readings of
    the clock, [new Date().toISOString()]. *)
Definition indexRecord (this : Database) (uri : AdxUri.t) (obj : unknown)
    (indexedAt receivedAt : string) : M Db unit :=
  let record :=
    {| RecordTbl.uri := AdxUri.toString uri;
       RecordTbl.did := AdxUri.host uri;
       RecordTbl.collection := AdxUri.collection uri;
       RecordTbl.recordKey := AdxUri.recordKey uri;
       RecordTbl.raw := JSON_stringify obj;
       RecordTbl.indexedAt := indexedAt;
       RecordTbl.receivedAt := receivedAt |} in
  if negb (Js.startsWith (RecordTbl.did record) "did:") then
    raise (Js.Error "Expected indexed URI to contain DID")
  else if (String.length (RecordTbl.collection record) <? 1)%nat then
    raise (Js.Error "Expected indexed URI to contain a collection")
  else if (String.length (RecordTbl.recordKey record) <? 1)%nat then
    raise (Js.Error "Expected indexed URI to contain a record key")
  else
    (insertInto_record record ;;
     table <- lift (findTableForCollection this (AdxUri.collection uri)) ;;
     on_typed (insert table uri obj) ;;
     notifs <- lift (notifsForRecord table uri obj) ;;
     on_notifs (process (notifications this) notifs))%store.

(** The row that [indexRecord] builds. *)
Definition row_of (uri : AdxUri.t) (obj : unknown)
    (indexedAt receivedAt : string) : RecordTbl.row :=
  {| RecordTbl.uri := AdxUri.toString uri;
     RecordTbl.did := AdxUri.host uri;
     RecordTbl.collection := AdxUri.collection uri;
     RecordTbl.recordKey := AdxUri.recordKey uri;
     RecordTbl.raw := JSON_stringify obj;
     RecordTbl.indexedAt := indexedAt;
     RecordTbl.receivedAt := receivedAt |}.

(** [deleteRecord]. *)
Definition deleteRecord (this : Database) (uri : AdxUri.t) : M Db unit :=
  (table <- lift (findTableForCollection this (AdxUri.collection uri)) ;;
   let deleteQuery := deleteFrom_record (AdxUri.toString uri) in
   Promise_all
     [ on_typed (delete table uri);
       deleteQuery;
       on_notifs (deleteForRecord (notifications this) uri) ])%store.

(** [listCollectionsForDid]. *)
Definition listCollectionsForDid (s : Db) (did : string) : list string :=
  let collections :=
    filter (fun row => String.eqb (RecordTbl.did row) did) (record s) in
  map (fun row => RecordTbl.collection row) collections.

(** [ORDER BY recordKey]: a stable insertion sort.  [precedes a b] says
    that [a] goes strictly before [b]. *)
Fixpoint insert_row (precedes : RecordTbl.row -> RecordTbl.row -> bool)
    (x : RecordTbl.row) (l : list RecordTbl.row) : list RecordTbl.row :=
  match l with
  | [] => [x]
  | y :: l' =>
      if precedes y x then y :: insert_row precedes x l' else x :: l
  end.

Definition precedes (direction_desc : bool) (a b : RecordTbl.row) : bool :=
  if direction_desc
  then key_lt (RecordTbl.recordKey b) (RecordTbl.recordKey a)
  else key_lt (RecordTbl.recordKey a) (RecordTbl.recordKey b).

Definition orderBy_recordKey (direction_desc : bool)
    (rows : list RecordTbl.row) : list RecordTbl.row :=
  fold_right (insert_row (precedes direction_desc)) [] rows.

(** No row goes strictly before a row that stands before it. *)
Definition ordered (desc : bool) : list RecordTbl.row -> Prop :=
  StronglySorted (fun a b => precedes desc b a = false).

(** The rows of one collection of one identity. *)
Definition owned_by (did coll : string) (row : RecordTbl.row) : bool :=
  String.eqb (RecordTbl.did row) did
  && String.eqb (RecordTbl.collection row) coll.

(** The exclusive bounds on the record key; [None] is [undefined]. *)
Definition within (before after : option string) (row : RecordTbl.row)
    : bool :=
  match before with
  | Some b => key_lt (RecordTbl.recordKey row) b
  | None => true
  end
  && match after with
     | Some a => key_lt a (RecordTbl.recordKey row)
     | None => true
     end.

(** The [WHERE] clause that [listRecordsForCollection] builds. *)
Definition where_listRecords (did coll : string)
    (before after : option string) (row : RecordTbl.row) : bool :=
  owned_by did coll row && within before after row.

(** Rows in ascending order of their keys, [k1 < k2 < ... < kn]. *)
Definition key_asc (a b : RecordTbl.row) : Prop :=
  key_lt (RecordTbl.recordKey a) (RecordTbl.recordKey b) = true.

(** An ascending list of rows in the direction of a query. *)
Definition direction (reverse : bool) (rows : list RecordTbl.row)
    : list RecordTbl.row :=
  if reverse then rev rows else rows.

(** The rows that the query of [listRecordsForCollection] returns, for
    a limit that is a count of rows. *)
Definition select_listRecords (s : Db) (did coll : string) (limit : nat)
    (reverse : bool) (before after : option string) : list RecordTbl.row :=
  firstn limit
    (orderBy_recordKey reverse
       (filter (where_listRecords did coll before after) (record s))).

(** [rows.map(f)] for an [f] that may throw. *)
Fixpoint map_throwing {A B : Type} (f : A -> Js.result B) (l : list A)
    : Js.result (list B) :=
  match l with
  | [] => Js.ok []
  | a :: l' =>
      match f a with
      | inl e => inl e
      | inr b =>
          match map_throwing f l' with
          | inl e => inl e
          | inr bs => Js.ok (b :: bs)
          end
      end
  end.

Definition listed_of_row (row : RecordTbl.row)
    : Js.result (Listed.t unknown) :=
  match JSON_parse (RecordTbl.raw row) with
  | inl e => inl e
  | inr v => Js.ok {| Listed.uri := RecordTbl.uri row; Listed.value := v |}
  end.

(** [listRecordsForCollection].  [limit] is a count of rows: of the
    values of [number], the integers from 0 on.  What the query does
    with another number is left to the engine (the embedded one puts no
    bound for a negative limit and refuses a fraction) and is not
    modelled. *)
Definition listRecordsForCollection (s : Db) (did coll : string)
    (limit : nat) (reverse : bool) (before after : option string)
    : Js.result (list (Listed.t unknown)) :=
  let res := select_listRecords s did coll limit reverse before after in
  map_throwing listed_of_row res.

(** [getRecord]: [None] is [null]. *)
Definition getRecord (s : Db) (uri : AdxUri.t)
    : Js.result (option unknown) :=
  match find (fun r => String.eqb (RecordTbl.uri r) (AdxUri.toString uri))
             (record s) with
  | Some record =>
      match JSON_parse (RecordTbl.raw record) with
      | inl e => inl e
      | inr v => Js.ok (Some v)
      end
  | None => Js.ok None
  end.

(** *** Repository roots *)

(** [getRepoRoot]: [None] is [null]. *)
Definition getRepoRoot (s : Db) (did : string) : Js.result (option CID) :=
  match find (fun r => String.eqb (RepoRootTbl.did r) did) (repo_root s) with
  | Some found =>
      match CID_parse (RepoRootTbl.root found) with
      | inl e => inl e
      | inr c => Js.ok (Some c)
      end
  | None => Js.ok None
  end.

(** Whether table [repo_root] has a row of the identity. *)
Definition has_repo_root (s : Db) (did : string) : bool :=
  existsb (fun r => String.eqb (RepoRootTbl.did r) did) (repo_root s).

(** [updateRepoRoot]: an [UPDATE ... SET root = ? WHERE did = ?]. *)
Definition updateRepoRoot (did : string) (root : CID) : M Db unit :=
  fun s =>
    (Js.ok tt,
     set_repo_root
       (map (fun r =>
               if String.eqb (RepoRootTbl.did r) did
               then {| RepoRootTbl.did := RepoRootTbl.did r;
                       RepoRootTbl.root := CID_toString root |}
               else r)) s).

(** *** Users *)

(** [getUser]: [None] is [null]. *)
Definition getUser (s : Db) (usernameOrDid : string) : option UserTbl.row :=
  if Js.startsWith usernameOrDid "did:" then
    find (fun u => String.eqb (UserTbl.did u) usernameOrDid) (user s)
  else
    find (fun u => String.eqb (UPPER (UserTbl.username u))
                              (toUpperCase usernameOrDid)) (user s).

(** [getUserByEmail]. *)
Definition getUserByEmail (s : Db) (email : string) : option UserTbl.row :=
  find (fun u => String.eqb (UPPER (UserTbl.email u))
                            (toUpperCase email)) (user s).

(** [getUserDid]. *)
Definition getUserDid (s : Db) (usernameOrDid : string) : option string :=
  if Js.startsWith usernameOrDid "did:" then Some usernameOrDid
  else
    match getUser s usernameOrDid with
    | Some found => Some (UserTbl.did found)
    | None => None
    end.

(** [verifyUserPassword]: [None] is [null]. *)
Definition verifyUserPassword (s : Db) (username password : string)
    : option string :=
  match find (fun u => String.eqb (UserTbl.username u) username) (user s) with
  | None => None
  | Some found =>
      let validPass := scrypt_verify password (UserTbl.password found) in
      if negb validPass then None else Some (UserTbl.did found)
  end.

(** The constraints that table [user] declares, as the test that a new
    row passes against the rows of the table.  The declaration of the
    table is not part of the sources at hand. *)
Variable user_accepts : list UserTbl.row -> UserTbl.row -> bool.

Definition set_user (f : list UserTbl.row -> list UserTbl.row) (s : Db)
    : Db :=
  {| record := record s; repo_root := repo_root s; user := f (user s);
     typed := typed s; user_notification := user_notification s |}.

(** [insertInto('user').values(u)]. *)
Definition insertInto_user (u : UserTbl.row) : M Db unit :=
  fun s =>
    if user_accepts (user s) u
    then (Js.ok tt, set_user (fun rows => (rows ++ [u])%list) s)
    else (Js.throw Js.StorageFailure, s).

(** [registerUser].  [scrypt.hash] salts the hash it returns, so the hash
    is an input here: [hashed] is what [scrypt.hash(password)] returned,
    and [createdAt] and [lastSeenNotifs] are the two readings of the
    clock. *)
Definition registerUser (email username did password : string)
    (hashed createdAt lastSeenNotifs : string) : M Db unit :=
  let user :=
    {| UserTbl.email := email;
       UserTbl.username := username;
       UserTbl.did := did;
       UserTbl.password := hashed;
       UserTbl.createdAt := createdAt;
       UserTbl.lastSeenNotifs := lastSeenNotifs |} in
  insertInto_user user.

(** The row of a user with another password hash. *)
Definition set_password (hashedPassword : string) (u : UserTbl.row)
    : UserTbl.row :=
  {| UserTbl.email := UserTbl.email u;
     UserTbl.username := UserTbl.username u;
     UserTbl.did := UserTbl.did u;
     UserTbl.password := hashedPassword;
     UserTbl.createdAt := UserTbl.createdAt u;
     UserTbl.lastSeenNotifs := UserTbl.lastSeenNotifs u |}.

(** [updateUserPassword]: an [UPDATE ... SET password = ? WHERE did = ?];
    [hashedPassword] is what [scrypt.hash(password)] returned. *)
Definition updateUserPassword (did password : string)
    (hashedPassword : string) : M Db unit :=
  fun s =>
    (Js.ok tt,
     set_user
       (map (fun u =>
               if String.eqb (UserTbl.did u) did
               then set_password hashedPassword u
               else u)) s).

End Store.

(** ** Opening a database *)

Module Dialect.

(** [type Dialect = 'pg' | 'sqlite']. *)
Inductive t : Type :=
| pg
| sqlite.

End Dialect.

(** What the static constructors settle of a [Database]: its [dialect],
    its [schema], the place of the backend, and the statement that every
    new connection of the pool runs first. *)
Record Connection : Type := {
  dialect : Dialect.t;
  schema : option string;
  target : string;
  on_connect : option string
}.

Definition is_letter_or_underscore (c : ascii) : bool :=
  let n := nat_of_ascii c in
  ((65 <=? n) && (n <=? 90) || (97 <=? n) && (n <=? 122) || (n =? 95))%nat.

Fixpoint all_letters_or_underscores (s : string) : bool :=
  match s with
  | EmptyString => true
  | String c s' => is_letter_or_underscore c && all_letters_or_underscores s'
  end.

(** The test of the regular expression [^[a-z_]+$] without regard to
    case: one character at least, and letters and underscores only. *)
Definition schema_regexp_test (s : string) : bool :=
  match s with
  | EmptyString => false
  | String _ _ => all_letters_or_underscores s
  end.

(** The statement [SET search_path TO ...] with the schema between double
    quotes. *)
Definition search_path_statement (schema : string) : string :=
  "SET search_path TO "
  ++ String "034"%char (schema ++ String "034"%char EmptyString).

(** [Database.sqlite]. *)
Definition sqlite (location : string) : Connection :=
  {| dialect := Dialect.sqlite; schema := None; target := location;
     on_connect := None |}.

(** [Database.postgres]; [None] is an [undefined] schema. *)
Definition postgres (url : string) (schema : option string)
    : Js.result Connection :=
  match schema with
  | Some name =>
      if negb (schema_regexp_test name) then
        Js.throw
          (Js.Error ("Postgres schema must only contain [A-Za-z_]: " ++ name))
      else
        Js.ok {| dialect := Dialect.pg; schema := Some name; target := url;
                 on_connect := Some (search_path_statement name) |}
  | None =>
      Js.ok {| dialect := Dialect.pg; schema := None; target := url;
               on_connect := None |}
  end.

(** [Database.memory]. *)
Definition memory : Connection := sqlite ":memory:".

(** ** The feed projector *)

Module FeedRow.

(** [type: 'post' | 'repost']. *)
Inductive kind : Type :=
| post
| repost.

Definition kind_eqb (a b : kind) : bool :=
  match a, b with
  | post, post | repost, repost => true
  | _, _ => false
  end.

(** [FeedRow]. *)
Record t : Type := {
  type : kind;
  postUri : string;
  cursor : string;
  recordRaw : string;
  indexedAt : string;
  authorDid : string;
  authorName : string;
  authorDisplayName : Js.nullable string;
  originatorDid : string;
  originatorName : string;
  originatorDisplayName : Js.nullable string;
  likeCount : Z;
  repostCount : Z;
  replyCount : Z;
  requesterRepost : Js.nullable string;
  requesterLike : Js.nullable string
}.

End FeedRow.

Module FeedItem.

(** The [author] and [repostedBy] of a feed item. *)
Record actor : Type := {
  did : string;
  name : string;
  displayName : option string
}.

Record state : Type := {
  repost : option string;
  like : option string
}.

(** [FeedItem], over the type of the decoded payloads.  A field that is
    [undefined] is [None]. *)
Record t (unknown : Type) : Type := {
  cursor : string;
  uri : string;
  author : actor;
  repostedBy : option actor;
  record : unknown;
  replyCount : Z;
  repostCount : Z;
  likeCount : Z;
  indexedAt : string;
  myState : state
}.

End FeedItem.

Section Feed.

Variable unknown : Type.
Variable JSON_parse : string -> Js.result unknown.

(** [rowToFeedItem]. *)
Definition rowToFeedItem (row : FeedRow.t) : Js.result (FeedItem.t unknown) :=
  match JSON_parse (FeedRow.recordRaw row) with
  | inl e => inl e
  | inr parsed =>
      Js.ok
        {| FeedItem.cursor := FeedRow.cursor row;
           FeedItem.uri := FeedRow.postUri row;
           FeedItem.author :=
             {| FeedItem.did := FeedRow.authorDid row;
                FeedItem.name := FeedRow.authorName row;
                FeedItem.displayName :=
                  Js.coalesce_undefined (FeedRow.authorDisplayName row) |};
           FeedItem.repostedBy :=
             if FeedRow.kind_eqb (FeedRow.type row) FeedRow.repost
             then Some
                    {| FeedItem.did := FeedRow.originatorDid row;
                       FeedItem.name := FeedRow.originatorName row;
                       FeedItem.displayName :=
                         Js.coalesce_undefined
                           (FeedRow.originatorDisplayName row) |}
             else None;
           FeedItem.record := parsed;
           FeedItem.replyCount := FeedRow.replyCount row;
           FeedItem.repostCount := FeedRow.repostCount row;
           FeedItem.likeCount := FeedRow.likeCount row;
           FeedItem.indexedAt := FeedRow.indexedAt row;
           FeedItem.myState :=
             {| FeedItem.repost :=
                  Js.coalesce_undefined (FeedRow.requesterRepost row);
                FeedItem.like :=
                  Js.coalesce_undefined (FeedRow.requesterLike row) |} |}
  end.

End Feed.

(** ** JSON documents

    The payloads that are data: [null], booleans, integers, strings,
    arrays and objects, with the text [JSON.stringify] prints for them and
    the reading of it by [JSON.parse].  Numbers are the integers here, a
    string is a string of bytes, and an object is the list of its members
    in the order in which [JSON.stringify] visits them.  A text with a
    fraction or an exponent is outside these documents and is refused.
    This is the instance of [unknown],
    [JSON_stringify] and [JSON_parse] on which the store is run. *)

Module Json.

#[local] Set Warnings "-register-all".

Inductive t : Type :=
| Null
| Bool (b : bool)
| Number (n : Z)
| Str (s : string)
| Array (l : list t)
| Object (l : list (string * t)).

Definition dquote : ascii := "034"%char.
Definition backslash : ascii := "092"%char.

Definition hex_digit (n : nat) : ascii :=
  if (n <? 10)%nat then ascii_of_nat (48 + n) else ascii_of_nat (87 + n).

(** A character inside a quoted string. *)
Definition escape_char (c : ascii) : string :=
  let n := nat_of_ascii c in
  if (n =? 34)%nat then String backslash (String dquote EmptyString)
  else if (n =? 92)%nat then String backslash (String backslash EmptyString)
  else if (n =? 8)%nat then String backslash "b"
  else if (n =? 12)%nat then String backslash "f"
  else if (n =? 10)%nat then String backslash "n"
  else if (n =? 13)%nat then String backslash "r"
  else if (n =? 9)%nat then String backslash "t"
  else if (n <? 32)%nat then
    String backslash
      (String "u" (String "0" (String "0"
         (String (hex_digit (n / 16))
            (String (hex_digit (n mod 16)) EmptyString)))))
  else String c EmptyString.

Fixpoint escape (s : string) : string :=
  match s with
  | EmptyString => EmptyString
  | String c s' => escape_char c ++ escape s'
  end.

Definition quote (s : string) : string :=
  String dquote (escape s ++ String dquote EmptyString).

Definition string_of_Z (n : Z) : string :=
  DecimalString.NilZero.string_of_int (Z.to_int n).

(** The elements of an array after the first, and the closing
    bracket. *)
Definition elements_with (f : t -> string) : list t -> string :=
  fix elements (l : list t) : string :=
    match l with
    | [] => "]"
    | v :: l' => "," ++ f v ++ elements l'
    end.

(** The members of an object after the first, and the closing brace. *)
Definition members_with (f : t -> string) : list (string * t) -> string :=
  fix members (l : list (string * t)) : string :=
    match l with
    | [] => "}"
    | (k, v) :: l' => "," ++ quote k ++ ":" ++ f v ++ members l'
    end.

(** [JSON.stringify] on documents. *)
Fixpoint stringify (v : t) : string :=
  match v with
  | Null => "null"
  | Bool true => "true"
  | Bool false => "false"
  | Number n => string_of_Z n
  | Str s => quote s
  | Array l =>
      match l with
      | [] => "[]"
      | v0 :: l0 => "[" ++ stringify v0 ++ elements_with stringify l0
      end
  | Object l =>
      match l with
      | [] => "{}"
      | (k0, v0) :: l0 =>
          "{" ++ quote k0 ++ ":" ++ stringify v0
          ++ members_with stringify l0
      end
  end.

(** The number of nodes of a document, with one more for each element
    and member: the depth of calls that reading its text takes. *)
Fixpoint size (v : t) : nat :=
  match v with
  | Array l => S (list_sum (map (fun e => S (size e)) l))
  | Object l => S (list_sum (map (fun m => S (size (snd m))) l))
  | _ => 1
  end.

(** *** Reading *)

Definition is_ws (c : ascii) : bool :=
  let n := nat_of_ascii c in
  ((n =? 32) || (n =? 9) || (n =? 10) || (n =? 13))%nat.

Fixpoint skip_ws (s : string) : string :=
  match s with
  | String c s' => if is_ws c then skip_ws s' else s
  | EmptyString => s
  end.

(** [s] without its prefix [lit]. *)
Fixpoint expect (lit s : string) : option string :=
  match lit with
  | EmptyString => Some s
  | String c lit' =>
      match s with
      | String c' s' => if Ascii.eqb c c' then expect lit' s' else None
      | EmptyString => None
      end
  end.

Definition hex_value (c : ascii) : option nat :=
  let n := nat_of_ascii c in
  if ((48 <=? n) && (n <=? 57))%nat then Some (n - 48)
  else if ((97 <=? n) && (n <=? 102))%nat then Some (n - 87)
  else if ((65 <=? n) && (n <=? 70))%nat then Some (n - 55)
  else None.

(** The character that stands after a backslash. *)
Definition unescape (e : ascii) : option ascii :=
  let n := nat_of_ascii e in
  if (n =? 34)%nat then Some dquote
  else if (n =? 92)%nat then Some backslash
  else if (n =? 47)%nat then Some "/"%char
  else if (n =? 98)%nat then Some (ascii_of_nat 8)
  else if (n =? 102)%nat then Some (ascii_of_nat 12)
  else if (n =? 110)%nat then Some (ascii_of_nat 10)
  else if (n =? 114)%nat then Some (ascii_of_nat 13)
  else if (n =? 116)%nat then Some (ascii_of_nat 9)
  else None.

(** The characters of a string up to its closing quote, and the text
    after the quote.  An escape [\uXXXX] is read when it names a byte. *)
Fixpoint parse_chars (s : string) : option (string * string) :=
  match s with
  | EmptyString => None
  | String c s1 =>
      if Ascii.eqb c dquote then Some (EmptyString, s1)
      else if Ascii.eqb c backslash then
        match s1 with
        | EmptyString => None
        | String e s2 =>
            if Ascii.eqb e "u" then
              match s2 with
              | String h1 (String h2 (String h3 (String h4 s3))) =>
                  match hex_value h1, hex_value h2,
                        hex_value h3, hex_value h4 with
                  | Some O, Some O, Some a, Some b =>
                      match parse_chars s3 with
                      | Some (str, rest) =>
                          Some (String (ascii_of_nat (16 * a + b)) str, rest)
                      | None => None
                      end
                  | _, _, _, _ => None
                  end
              | _ => None
              end
            else
              match unescape e with
              | Some d =>
                  match parse_chars s2 with
                  | Some (str, rest) => Some (String d str, rest)
                  | None => None
                  end
              | None => None
              end
        end
      else if (nat_of_ascii c <? 32)%nat then None
      else
        match parse_chars s1 with
        | Some (str, rest) => Some (String c str, rest)
        | None => None
        end
  end.

Definition digit_of (c : ascii) : option (Decimal.uint -> Decimal.uint) :=
  let n := nat_of_ascii c in
  if (n =? 48)%nat then Some Decimal.D0
  else if (n =? 49)%nat then Some Decimal.D1
  else if (n =? 50)%nat then Some Decimal.D2
  else if (n =? 51)%nat then Some Decimal.D3
  else if (n =? 52)%nat then Some Decimal.D4
  else if (n =? 53)%nat then Some Decimal.D5
  else if (n =? 54)%nat then Some Decimal.D6
  else if (n =? 55)%nat then Some Decimal.D7
  else if (n =? 56)%nat then Some Decimal.D8
  else if (n =? 57)%nat then Some Decimal.D9
  else None.

Fixpoint read_digits (s : string) : Decimal.uint * string :=
  match s with
  | EmptyString => (Decimal.Nil, s)
  | String c s' =>
      match digit_of c with
      | Some D => let '(d, rest) := read_digits s' in (D d, rest)
      | None => (Decimal.Nil, s)
      end
  end.

(** A text that does not go on with a digit. *)
Definition no_digit_head (s : string) : bool :=
  match s with
  | EmptyString => true
  | String c _ =>
      match digit_of c with
      | Some _ => false
      | None => true
      end
  end.

(** The first character of the text of an integer. *)
Definition number_head (c : ascii) : bool :=
  Ascii.eqb c "-"
  || match digit_of c with
     | Some _ => true
     | None => false
     end.

(** The first character of the text of a document: no blank, and not
    the end of an array or of an object. *)
Definition value_head (c : ascii) : bool :=
  negb (is_ws c) && negb (Ascii.eqb c "]") && negb (Ascii.eqb c "}").

(** An integer: an optional sign and digits without a leading zero. *)
Definition parse_number (s : string) : option (Z * string) :=
  let '(negative, s1) :=
    match s with
    | String c s' => if Ascii.eqb c "-" then (true, s') else (false, s)
    | EmptyString => (false, s)
    end in
  let '(d, rest) := read_digits s1 in
  if Decimal.uint_eq_dec (Decimal.unorm d) d
  then Some (Z.of_int (if negative then Decimal.Neg d else Decimal.Pos d),
             rest)
  else None.

Fixpoint parse_value (fuel : nat) (s : string) {struct fuel}
    : option (t * string) :=
  match fuel with
  | O => None
  | S fuel' =>
      match skip_ws s with
      | EmptyString => None
      | String c s' =>
          if Ascii.eqb c "n" then
            option_map (fun r => (Null, r)) (expect "ull" s')
          else if Ascii.eqb c "t" then
            option_map (fun r => (Bool true, r)) (expect "rue" s')
          else if Ascii.eqb c "f" then
            option_map (fun r => (Bool false, r)) (expect "alse" s')
          else if Ascii.eqb c dquote then
            match parse_chars s' with
            | Some (str, r) => Some (Str str, r)
            | None => None
            end
          else if Ascii.eqb c "[" then
            match skip_ws s' with
            | EmptyString => None
            | String c2 s2 =>
                if Ascii.eqb c2 "]" then Some (Array [], s2)
                else
                  match parse_elements fuel' s' with
                  | Some (vs, r) => Some (Array vs, r)
                  | None => None
                  end
            end
          else if Ascii.eqb c "{" then
            match skip_ws s' with
            | EmptyString => None
            | String c2 s2 =>
                if Ascii.eqb c2 "}" then Some (Object [], s2)
                else
                  match parse_members fuel' s' with
                  | Some (ms, r) => Some (Object ms, r)
                  | None => None
                  end
            end
          else
            match parse_number (String c s') with
            | Some (n, r) => Some (Number n, r)
            | None => None
            end
      end
  end

with parse_elements (fuel : nat) (s : string) {struct fuel}
    : option (list t * string) :=
  match fuel with
  | O => None
  | S fuel' =>
      match parse_value fuel' s with
      | None => None
      | Some (v, r) =>
          match skip_ws r with
          | EmptyString => None
          | String c r' =>
              if Ascii.eqb c "," then
                match parse_elements fuel' r' with
                | Some (vs, r'') => Some (v :: vs, r'')
                | None => None
                end
              else if Ascii.eqb c "]" then Some ([v], r')
              else None
          end
      end
  end

with parse_members (fuel : nat) (s : string) {struct fuel}
    : option (list (string * t) * string) :=
  match fuel with
  | O => None
  | S fuel' =>
      match skip_ws s with
      | EmptyString => None
      | String c s1 =>
          if Ascii.eqb c dquote then
            match parse_chars s1 with
            | None => None
            | Some (k, r) =>
                match skip_ws r with
                | EmptyString => None
                | String c2 r2 =>
                    if Ascii.eqb c2 ":" then
                      match parse_value fuel' r2 with
                      | None => None
                      | Some (v, r3) =>
                          match skip_ws r3 with
                          | EmptyString => None
                          | String c3 r4 =>
                              if Ascii.eqb c3 "," then
                                match parse_members fuel' r4 with
                                | Some (ms, r5) => Some ((k, v) :: ms, r5)
                                | None => None
                                end
                              else if Ascii.eqb c3 "}" then
                                Some ([(k, v)], r4)
                              else None
                          end
                      end
                    else None
                end
            end
          else None
      end
  end.

(** [JSON.parse]: one document, and nothing but blanks after it. *)
Definition parse (s : string) : Js.result t :=
  match parse_value (S (String.length s)) s with
  | Some (v, rest) =>
      match skip_ws rest with
      | EmptyString => Js.ok v
      | String _ _ => Js.throw Js.SyntaxError
      end
  | None => Js.throw Js.SyntaxError
  end.

End Json.


(** The three errors by which [indexRecord] rejects a URI that is not the
    URI of a record. *)
Definition ContractViolation (e : Js.exn) : Prop :=
  e = Js.Error "Expected indexed URI to contain DID"
  \/ e = Js.Error "Expected indexed URI to contain a collection"
  \/ e = Js.Error "Expected indexed URI to contain a record key".

(** The error of [findTableForCollection]. *)
Definition NotFound : Js.exn := Js.Error "Could not find table for collection".

(** ** An instance to run the store on

    Plugins that keep, per collection, the URIs they index, a
    notifications table of pairs, content addresses that are their own
    text, and JSON documents as payloads. *)

Module Demo.

Definition Typed : Type := list (string * string).
Definition Notification : Type := (string * string)%type.
Definition Notifs : Type := list Notification.

Definition validate (obj : Json.t) : Lexicon.ValidationResult :=
  match obj with
  | Json.Object _ => Lexicon.new_ValidationResult
  | _ =>
      Lexicon._t Lexicon.new_ValidationResult Lexicon.Invalid
        "Record must be an object"
  end.

Definition plugin (coll : string)
    : DbRecordPlugin Json.t Typed Notification :=
  {| collection := coll;
     validateSchema := validate;
     insert := fun uri _ rows =>
       if existsb (fun r => String.eqb (snd r) (AdxUri.toString uri)) rows
       then (Js.throw Js.StorageFailure, rows)
       else (Js.ok tt, (rows ++ [(coll, AdxUri.toString uri)])%list);
     delete := fun uri rows =>
       (Js.ok tt,
        filter (fun r => negb (String.eqb (snd r) (AdxUri.toString uri)))
               rows);
     notifsForRecord := fun uri _ =>
       Js.ok [(AdxUri.toString uri, AdxUri.host uri)] |}.

Definition notificationPlugin : NotificationsPlugin Notifs Notification :=
  {| process := fun notifs rows => (Js.ok tt, (rows ++ notifs)%list);
     deleteForRecord := fun uri rows =>
       (Js.ok tt,
        filter (fun r => negb (String.eqb (fst r) (AdxUri.toString uri)))
               rows) |}.

Definition database : Database Json.t Typed Notifs Notification :=
  {| records :=
       {| post := plugin "app.bsky.post";
          like := plugin "app.bsky.like";
          repost := plugin "app.bsky.repost";
          follow := plugin "app.bsky.follow";
          badge := plugin "app.bsky.badge";
          profile := plugin "app.bsky.profile" |};
     notifications := notificationPlugin |}.

Definition empty : Db Typed Notifs :=
  {| record := []; repo_root := []; user := [];
     typed := []; user_notification := [] |}.

(** A URI with the text [at://host/collection/recordKey]. *)
Definition uri (host coll rkey : string) : AdxUri.t :=
  {| AdxUri.host := host;
     AdxUri.collection := coll;
     AdxUri.recordKey := rkey;
     AdxUri.toString := "at://" ++ host ++ "/" ++ coll ++ "/" ++ rkey |}.

(** A password hash that is the password behind a tag. *)
Definition scrypt_verify (password hash : string) : bool :=
  String.eqb hash ("scrypt:" ++ password).

Definition index (u : AdxUri.t) (obj : Json.t) (s : Db Typed Notifs)
    : Js.result unit * Db Typed Notifs :=
  indexRecord Json.stringify database u obj
    "2022-10-20T12:00:00.000Z" "2022-10-20T12:00:00.000Z" s.

(** Content addresses as their own text. *)
Definition CID : Type := string.
Definition CID_toString (c : CID) : string := c.
Definition CID_parse (s : string) : Js.result CID := Js.ok s.

Definition alice : string := "did:example:alice".

(** A post of [alice] under a record key. *)
Definition post_uri (rkey : string) : AdxUri.t :=
  uri alice "app.bsky.post" rkey.

Definition post_obj (text : string) : Json.t :=
  Json.Object [("text", Json.Str text)].

Definition index_all (l : list (string * string)) (s : Db Typed Notifs)
    : Db Typed Notifs :=
  fold_left (fun s p => snd (index (post_uri (fst p)) (post_obj (snd p)) s))
            l s.

(** The store after three posts, indexed out of the order of their
    keys. *)
Definition three_posts : Db Typed Notifs :=
  index_all [("3jb", "second"); ("3jc", "third"); ("3ja", "first")] empty.

(** The row of a post in the log, and its entry in a listing. *)
Definition post_row (rkey text : string) : RecordTbl.row :=
  row_of Json.stringify (post_uri rkey) (post_obj text)
    "2022-10-20T12:00:00.000Z" "2022-10-20T12:00:00.000Z".

Definition post_listed (rkey text : string) : Listed.t Json.t :=
  {| Listed.uri := AdxUri.toString (post_uri rkey);
     Listed.value := post_obj text |}.

Definition user_row (did username password : string) : UserTbl.row :=
  {| UserTbl.did := did;
     UserTbl.username := username;
     UserTbl.email := username ++ "@example.com";
     UserTbl.password := "scrypt:" ++ password;
     UserTbl.createdAt := "2022-10-20T12:00:00.000Z";
     UserTbl.lastSeenNotifs := "2022-10-20T12:00:00.000Z" |}.

(** [UPPER] as the embedded engine computes it: the letters [a]-[z]
    only. *)
Definition UPPER (s : string) : string := Js.fold_ascii s.

(** The second byte of a character from U+00C0 to U+00FF after the byte
    195, in upper case: the letters from U+00E0 to U+00FE but the
    division sign move down by 32, the sharp s becomes two letters, and
    the y with diaeresis leaves the block. *)
Definition upper_latin1 (d : ascii) (rest : string) : string :=
  let n := nat_of_ascii d in
  if (n =? 159)%nat then String "S" (String "S" rest)
  else if (n =? 191)%nat then String "197" (String "184" rest)
  else if ((160 <=? n) && (n <=? 190) && negb (n =? 183))%nat
       then String "195" (String (ascii_of_nat (n - 32)) rest)
       else String "195" (String d rest).

(** [toUpperCase] of the runtime on text in UTF-8, for the characters up
    to U+00FF: the ASCII letters, the letters after the byte 195, and the
    micro sign.  Other characters stay as they are. *)
Fixpoint toUpperCase (s : string) : string :=
  match s with
  | EmptyString => EmptyString
  | String c s' =>
      match s' with
      | EmptyString => String (Js.upper_ascii c) EmptyString
      | String d s'' =>
          if (nat_of_ascii c =? 195)%nat
          then upper_latin1 d (toUpperCase s'')
          else if ((nat_of_ascii c =? 194) && (nat_of_ascii d =? 181))%nat
               then String "206" (String "156" (toUpperCase s''))
               else String (Js.upper_ascii c) (toUpperCase s')
      end
  end.

(** The name [jos] and the e with acute accent, in UTF-8. *)
Definition jose : string :=
  String "j" (String "o" (String "s" (String "195" (String "169"
    EmptyString)))).

Definition with_users (users : list UserTbl.row) : Db Typed Notifs :=
  {| record := []; repo_root := []; user := users;
     typed := []; user_notification := [] |}.

Definition with_roots (roots : list RepoRootTbl.row) : Db Typed Notifs :=
  {| record := []; repo_root := roots; user := [];
     typed := []; user_notification := [] |}.

(** The row of the feed projection scenario, with an empty object as
    its stored payload. *)
Definition repost_row : FeedRow.t :=
  {| FeedRow.type := FeedRow.repost;
     FeedRow.postUri := "at://did:x/app.x.post/xyz";
     FeedRow.cursor := "2022-10-20T12:00:00.000Z";
     FeedRow.recordRaw := "{}";
     FeedRow.indexedAt := "2022-10-20T12:00:00.000Z";
     FeedRow.authorDid := "did:x";
     FeedRow.authorName := "x.test";
     FeedRow.authorDisplayName := Js.null;
     FeedRow.originatorDid := "did:y";
     FeedRow.originatorName := "y.test";
     FeedRow.originatorDisplayName := Js.notnull "Y";
     FeedRow.likeCount := 0;
     FeedRow.repostCount := 1;
     FeedRow.replyCount := 0;
     FeedRow.requesterRepost := Js.notnull "at://did:x/app.x.repost/abc";
     FeedRow.requesterLike := Js.null |}.

(** A plugin for the likes that takes the objects with a subject only,
    and the database with this plugin in the place of the likes. *)
Definition validate_like (obj : Json.t) : Lexicon.ValidationResult :=
  match obj with
  | Json.Object members =>
      if existsb (fun m => String.eqb (fst m) "subject") members
      then Lexicon.new_ValidationResult
      else
        Lexicon._t Lexicon.new_ValidationResult Lexicon.Invalid
          "Like must have a subject"
  | _ =>
      Lexicon._t Lexicon.new_ValidationResult Lexicon.Invalid
        "Record must be an object"
  end.

Definition like_plugin : DbRecordPlugin Json.t Typed Notification :=
  {| collection := "app.bsky.like";
     validateSchema := validate_like;
     insert := insert (plugin "app.bsky.like");
     delete := delete (plugin "app.bsky.like");
     notifsForRecord := notifsForRecord (plugin "app.bsky.like") |}.

Definition database_with_likes
    : Database Json.t Typed Notifs Notification :=
  {| records :=
       {| post := plugin "app.bsky.post";
          like := like_plugin;
          repost := plugin "app.bsky.repost";
          follow := plugin "app.bsky.follow";
          badge := plugin "app.bsky.badge";
          profile := plugin "app.bsky.profile" |};
     notifications := notificationPlugin |}.

(** A notifications plugin whose removal fails. *)
Definition failing_notificationPlugin
    : NotificationsPlugin Notifs Notification :=
  {| process := fun notifs rows => (Js.ok tt, (rows ++ notifs)%list);
     deleteForRecord := fun _ rows => (Js.throw Js.StorageFailure, rows) |}.

Definition failing_database : Database Json.t Typed Notifs Notification :=
  {| records := records database;
     notifications := failing_notificationPlugin |}.

(** The identity as the primary key of the users. *)
Definition user_accepts (rows : list UserTbl.row) (u : UserTbl.row) : bool :=
  negb (existsb (fun r => String.eqb (UserTbl.did r) (UserTbl.did u)) rows).

Definition register (username did password : string) (s : Db Typed Notifs)
    : Js.result unit * Db Typed Notifs :=
  registerUser user_accepts (username ++ "@example.com") username did
    password ("scrypt:" ++ password)
    "2022-10-20T12:00:00.000Z" "2022-10-20T12:00:00.000Z" s.

(** A row of the feed for a plain post. *)
Definition post_feed_row : FeedRow.t :=
  {| FeedRow.type := FeedRow.post;
     FeedRow.postUri := "at://did:x/app.x.post/xyz";
     FeedRow.cursor := "2022-10-20T12:00:00.000Z";
     FeedRow.recordRaw := "{}";
     FeedRow.indexedAt := "2022-10-20T12:00:00.000Z";
     FeedRow.authorDid := "did:x";
     FeedRow.authorName := "x.test";
     FeedRow.authorDisplayName := Js.null;
     FeedRow.originatorDid := "did:x";
     FeedRow.originatorName := "x.test";
     FeedRow.originatorDisplayName := Js.null;
     FeedRow.likeCount := 2;
     FeedRow.repostCount := 0;
     FeedRow.replyCount := 1;
     FeedRow.requesterRepost := Js.null;
     FeedRow.requesterLike := Js.null |}.

End Demo.

(** * Properties of the record store *)

Section StoreFacts.

Variable unknown : Type.
Variable JSON_stringify : unknown -> string.
Variable JSON_parse : string -> Js.result unknown.
Variable CID : Type.
Variable CID_toString : CID -> string.
Variable CID_parse : string -> Js.result CID.
Variable scrypt_verify : string -> string -> bool.
Variable toUpperCase : string -> string.
Variable UPPER : string -> string.
Variable Typed : Type.
Variable Notifs : Type.
Variable Notification : Type.

Implicit Types (this : Database unknown Typed Notifs Notification).
Implicit Types (s : Db Typed Notifs) (uri : AdxUri.t) (obj : unknown).

(** *** The index catalog *)

Lemma findTableForCollection_registered this (coll : string) :
  registered this coll = true ->
  exists table,
    findTableForCollection this coll = Js.ok table
    /\ In table (Object_values (records this))
    /\ collection table = coll.
Proof.
  unfold registered, findTableForCollection. intros Hreg.
  destruct (find _ _) as [found|] eqn:Hfind.
  - apply find_some in Hfind. destruct Hfind as [Hin Heq].
    apply String.eqb_eq in Heq. exists found. auto.
  - apply existsb_exists in Hreg. destruct Hreg as [p [Hin Heq]].
    apply (find_none _ _ Hfind) in Hin. congruence.
Qed.

Lemma findTableForCollection_unregistered this (coll : string) :
  registered this coll = false ->
  findTableForCollection this coll = Js.throw NotFound.
Proof.
  unfold registered, findTableForCollection. intros Hreg.
  destruct (find _ _) as [found|] eqn:Hfind; [|reflexivity].
  apply find_some in Hfind.
  assert (existsb (fun plugin => (collection plugin =? coll)%string)
                  (Object_values (records this)) = true) as Habs
    by (apply existsb_exists; eauto).
  congruence.
Qed.

Lemma find_existsb (A : Type) (f : A -> bool) (l : list A) :
  existsb f l = match find f l with Some _ => true | None => false end.
Proof.
  induction l as [|x l IH]; simpl; [reflexivity|].
  destruct (f x); [reflexivity | exact IH].
Qed.

Lemma find_In_some (A : Type) (f : A -> bool) (l : list A) (a : A) :
  In a l -> f a = true -> exists b, find f l = Some b.
Proof.
  intros Hin Ha. destruct (find f l) as [b|] eqn:Hfind; [eauto|].
  rewrite (find_none _ _ Hfind _ Hin) in Ha. discriminate.
Qed.

(** The element that [find] returns is the first that passes the test. *)
Lemma find_first (A : Type) (f : A -> bool) (l : list A) (a : A) :
  find f l = Some a ->
  exists before after,
    l = (before ++ a :: after)%list
    /\ f a = true
    /\ forall b, In b before -> f b = false.
Proof.
  induction l as [|x l IH]; simpl; [discriminate|].
  destruct (f x) eqn:Hx.
  - intros [= ->]. exists [], l. split; [reflexivity|].
    split; [exact Hx|]. intros b [].
  - intros Hfind. destruct (IH Hfind) as [before [after [-> [Ha Hb]]]].
    exists (x :: before), after. split; [reflexivity|].
    split; [exact Ha|]. intros b [<- | Hin]; [exact Hx | exact (Hb b Hin)].
Qed.

(** C5.  [validateRecord] never throws.  For a collection that no plugin
    owns it returns the verdict with code [Incompatible] and the message
    "Schema not found".  For a collection that a plugin owns it returns
    what the [validateSchema] of the plugin of that collection returns:
    the plugin is one of [this.records], its [collection] is the
    collection asked for, and no plugin before it in [this.records] has
    that collection.  So every plugin of [this.records] that alone has
    its collection gives the verdicts for it. *)
Theorem validateRecord_verdict
    (this : Database unknown Typed Notifs Notification) (coll : string)
    (obj : unknown) :
  (exists r, validateRecord this coll obj = Js.ok r)
  /\ (registered this coll = false ->
      exists r,
        validateRecord this coll obj = Js.ok r
        /\ Lexicon.code r = Lexicon.Incompatible
        /\ Lexicon.message r = Some "Schema not found")
  /\ (registered this coll = true ->
      exists before table after,
        Object_values (records this) = (before ++ table :: after)%list
        /\ (forall p, In p before -> collection p <> coll)
        /\ collection table = coll
        /\ validateRecord this coll obj = Js.ok (validateSchema table obj))
  /\ (forall table,
        In table (Object_values (records this)) ->
        (forall p, In p (Object_values (records this)) ->
                   collection p = collection table -> p = table) ->
        validateRecord this (collection table) obj
        = Js.ok (validateSchema table obj)).
Proof.
  split; [|split; [|split]].
  - unfold validateRecord.
    destruct (findTableForCollection this coll); eauto.
  - intros Hreg. unfold validateRecord.
    rewrite (findTableForCollection_unregistered _ _ Hreg). simpl.
    eexists. split; [reflexivity|]. split; reflexivity.
  - intros Hreg. unfold validateRecord, findTableForCollection.
    unfold registered in Hreg. rewrite find_existsb in Hreg.
    destruct (find _ (Object_values (records this))) as [table|] eqn:Hfind;
      [|discriminate].
    destruct (find_first _ _ Hfind) as [before [after [Hl [Ht Hb]]]].
    exists before, table, after. split; [exact Hl|].
    split; [|split; [apply String.eqb_eq; exact Ht | reflexivity]].
    intros p Hp. apply String.eqb_neq. exact (Hb p Hp).
  - intros table Hin Huniq. unfold validateRecord, findTableForCollection.
    destruct (find_In_some
                (fun plugin => String.eqb (collection plugin)
                                          (collection table))
                _ _ Hin (String.eqb_refl _)) as [found Hfound].
    rewrite Hfound. apply find_some in Hfound.
    destruct Hfound as [Hfin Hfeq]. apply String.eqb_eq in Hfeq.
    rewrite (Huniq _ Hfin Hfeq). reflexivity.
Qed.

(** C6.  For a collection that a plugin owns, [canIndexRecord] returns
    the [valid] of the verdict that [validateRecord] returns; for a
    collection that no plugin owns, [canIndexRecord] throws the error of
    the lookup, where [validateRecord] returns a verdict. *)
Theorem canIndexRecord_validateRecord
    (this : Database unknown Typed Notifs Notification) (coll : string) (obj : unknown) :
  (registered this coll = true ->
   exists r,
     validateRecord this coll obj = Js.ok r
     /\ canIndexRecord this coll obj = Js.ok (Lexicon.valid r))
  /\ (registered this coll = false ->
      canIndexRecord this coll obj = Js.throw NotFound
      /\ exists r, validateRecord this coll obj = Js.ok r).
Proof.
  split; intros Hreg.
  - destruct (findTableForCollection_registered _ _ Hreg)
      as [table [Htable _]].
    exists (validateSchema table obj).
    unfold validateRecord, canIndexRecord. rewrite Htable.
    split; reflexivity.
  - unfold validateRecord, canIndexRecord.
    rewrite (findTableForCollection_unregistered _ _ Hreg). simpl.
    split; [reflexivity | eauto].
Qed.

(** C4.  When the host of the URI does not start with "did:", or its
    collection is empty, or its record key is empty, [indexRecord]
    throws one of its three contract errors and leaves the whole state
    of the database as it was: the generic log, the tables of the
    plugins and the notifications. *)
Theorem indexRecord_rejects
    (this : Database unknown Typed Notifs Notification) (uri : AdxUri.t) (obj : unknown) (indexedAt receivedAt : string)
    (s : Db Typed Notifs) :
  Js.startsWith (AdxUri.host uri) "did:" = false
  \/ AdxUri.collection uri = EmptyString
  \/ AdxUri.recordKey uri = EmptyString ->
  exists e,
    indexRecord JSON_stringify this uri obj indexedAt receivedAt s
    = (Js.throw e, s)
    /\ ContractViolation e.
Proof.
  intros Hbad. unfold indexRecord, ContractViolation, raise. simpl.
  destruct (Js.startsWith (AdxUri.host uri) "did:") eqn:Hdid; simpl.
  - destruct (String.length (AdxUri.collection uri) <? 1)%nat eqn:Hcoll.
    + eexists. split; [reflexivity|]. auto.
    + destruct (String.length (AdxUri.recordKey uri) <? 1)%nat eqn:Hkey.
      * eexists. split; [reflexivity|]. auto.
      * exfalso. destruct Hbad as [Hbad | [Hbad | Hbad]].
        -- discriminate.
        -- rewrite Hbad in Hcoll. discriminate.
        -- rewrite Hbad in Hkey. discriminate.
  - eexists. split; [reflexivity|]. auto.
Qed.

(** C10.  For a URI whose collection no plugin owns, [deleteRecord]
    throws the error of the lookup before it removes anything: the state
    of the database is the one before the call. *)
Theorem deleteRecord_unregistered
    (this : Database unknown Typed Notifs Notification) (uri : AdxUri.t) (s : Db Typed Notifs) :
  registered this (AdxUri.collection uri) = false ->
  deleteRecord this uri s = (Js.throw NotFound, s).
Proof.
  intros Hreg. unfold deleteRecord, bind, lift.
  rewrite (findTableForCollection_unregistered _ _ Hreg). reflexivity.
Qed.

(** *** The generic log *)

Lemma record_on_typed (A : Type) (m : M Typed A) s :
  record (snd (on_typed (Notifs := Notifs) m s)) = record s.
Proof. unfold on_typed. destruct (m (typed s)). reflexivity. Qed.

Lemma record_on_notifs (A : Type) (m : M Notifs A) s :
  record (snd (on_notifs (Typed := Typed) m s)) = record s.
Proof. unfold on_notifs. destruct (m (user_notification s)). reflexivity. Qed.

(** A call of [indexRecord] that returns has found no row under the URI
    and has put its row at the end of the log. *)
Lemma indexRecord_ok_inv this uri obj (indexedAt receivedAt : string) s s' :
  indexRecord JSON_stringify this uri obj indexedAt receivedAt s
  = (Js.ok tt, s') ->
  existsb (fun r => String.eqb (RecordTbl.uri r) (AdxUri.toString uri))
          (record s) = false
  /\ record s'
     = (record s
        ++ [row_of JSON_stringify uri obj indexedAt receivedAt])%list.
Proof.
  unfold indexRecord.
  cbn [RecordTbl.did RecordTbl.collection RecordTbl.recordKey].
  destruct (negb _); [discriminate|].
  destruct (_ <? 1)%nat; [discriminate|].
  destruct (_ <? 1)%nat; [discriminate|].
  unfold bind at 1. unfold insertInto_record.
  cbn [RecordTbl.uri].
  destruct (existsb _ (record s)) eqn:Hdup; [discriminate|].
  unfold bind at 1, lift.
  destruct (findTableForCollection this (AdxUri.collection uri))
    as [e|table]; [discriminate|].
  unfold bind at 1.
  fold (row_of JSON_stringify uri obj indexedAt receivedAt).
  set (row := row_of JSON_stringify uri obj indexedAt receivedAt).
  pose proof (record_on_typed (insert table uri obj)
                (set_record (fun rows => (rows ++ [row])%list) s)) as Ht.
  destruct (on_typed (insert table uri obj) _) as [[e|[]] s1];
    [discriminate|].
  unfold bind at 1.
  destruct (notifsForRecord table uri obj) as [e|notifs]; [discriminate|].
  pose proof (record_on_notifs (process (notifications this) notifs) s1)
    as Hn.
  destruct (on_notifs (process (notifications this) notifs) s1)
    as [r s2].
  intros Heq. injection Heq as _ <-.
  split; [reflexivity|].
  simpl in Hn, Ht. rewrite Hn, Ht. reflexivity.
Qed.

Lemma find_app_last (A : Type) (f : A -> bool) (l : list A) (a : A) :
  existsb f l = false -> f a = true -> find f (l ++ [a]) = Some a.
Proof.
  induction l as [|x l IH]; simpl; intros Hl Ha.
  - rewrite Ha. reflexivity.
  - apply orb_false_iff in Hl. destruct Hl as [Hx Hl].
    rewrite Hx. auto.
Qed.

(** After [indexRecord(uri, obj)] has returned, for a payload that
    [JSON.parse] reads back from its [JSON.stringify] text,
    [getRecord(uri)] returns [obj], and the collection of the URI is in
    the list that [listCollectionsForDid] returns for its host. *)
Lemma indexRecord_getRecord this uri obj (indexedAt receivedAt : string)
    s s' :
  JSON_parse (JSON_stringify obj) = Js.ok obj ->
  indexRecord JSON_stringify this uri obj indexedAt receivedAt s
  = (Js.ok tt, s') ->
  getRecord JSON_parse s' uri = Js.ok (Some obj)
  /\ In (AdxUri.collection uri) (listCollectionsForDid s' (AdxUri.host uri)).
Proof.
  intros Hjson Hok.
  destruct (indexRecord_ok_inv _ _ _ _ _ _ Hok) as [Hfresh Hlog].
  split.
  - unfold getRecord. rewrite Hlog.
    rewrite (find_app_last _ _ _ Hfresh).
    + simpl. rewrite Hjson. reflexivity.
    + simpl. apply String.eqb_refl.
  - unfold listCollectionsForDid. rewrite Hlog.
    apply in_map_iff.
    exists (row_of JSON_stringify uri obj indexedAt receivedAt).
    split; [reflexivity|].
    apply filter_In. split.
    + apply in_or_app. right. left. reflexivity.
    + simpl. apply String.eqb_refl.
Qed.

Lemma Promise_all_deleteRecord_record
    (table : DbRecordPlugin unknown Typed Notification) this uri s :
  record
    (snd (Promise_all
            [ on_typed (delete table uri);
              deleteFrom_record (AdxUri.toString uri);
              on_notifs (deleteForRecord (notifications this) uri) ] s))
  = filter (fun r => negb (String.eqb (RecordTbl.uri r) (AdxUri.toString uri)))
           (record s).
Proof.
  simpl.
  pose proof (record_on_typed (delete table uri) s) as Ht.
  destruct (on_typed (delete table uri) s) as [r1 s1]. simpl in Ht.
  unfold deleteFrom_record.
  pose proof (record_on_notifs (deleteForRecord (notifications this) uri)
                (set_record
                   (filter (fun r => negb (String.eqb (RecordTbl.uri r)
                                                      (AdxUri.toString uri))))
                   s1)) as Hn.
  destruct (on_notifs (deleteForRecord (notifications this) uri) _)
    as [r3 s3]. simpl in Hn. simpl. rewrite Hn, Ht. reflexivity.
Qed.

(** A call of [deleteRecord] that finds the plugin leaves in the log the
    rows that are not under the URI, whatever the three removals
    return. *)
Lemma deleteRecord_record this uri s table :
  findTableForCollection this (AdxUri.collection uri) = Js.ok table ->
  record (snd (deleteRecord this uri s))
  = filter (fun r => negb (String.eqb (RecordTbl.uri r) (AdxUri.toString uri)))
           (record s).
Proof.
  intros Htable. unfold deleteRecord, bind, lift. rewrite Htable.
  unfold Js.ok. apply Promise_all_deleteRecord_record.
Qed.

Lemma find_filter_negb (A : Type) (f : A -> bool) (l : list A) :
  find f (filter (fun a => negb (f a)) l) = None.
Proof.
  induction l as [|x l IH]; simpl; [reflexivity|].
  destruct (f x) eqn:Hx; simpl; [assumption|].
  rewrite Hx. assumption.
Qed.

Lemma In_firstn (A : Type) (n : nat) (l : list A) (a : A) :
  In a (firstn n l) -> In a l.
Proof.
  intros Hin. rewrite <- (firstn_skipn n l). apply in_or_app. auto.
Qed.

Lemma insert_row_perm (prec : RecordTbl.row -> RecordTbl.row -> bool)
    (x : RecordTbl.row) (l : list RecordTbl.row) :
  Permutation (x :: l) (insert_row prec x l).
Proof.
  induction l as [|y l IH]; simpl; [reflexivity|].
  destruct (prec y x); [|reflexivity].
  rewrite perm_swap. apply perm_skip. exact IH.
Qed.

(** [ORDER BY] keeps the rows. *)
Lemma orderBy_recordKey_perm (desc : bool) (rows : list RecordTbl.row) :
  Permutation rows (orderBy_recordKey desc rows).
Proof.
  unfold orderBy_recordKey.
  induction rows as [|x rows IH]; simpl; [reflexivity|].
  rewrite <- insert_row_perm. apply perm_skip. exact IH.
Qed.

(** The rows that the query of [listRecordsForCollection] returns are
    rows of the log that pass its [WHERE] clause. *)
Lemma select_listRecords_In s (did coll : string) (limit : nat)
    (reverse : bool) (before after : option string) (r : RecordTbl.row) :
  In r (select_listRecords s did coll limit reverse before after) ->
  In r (record s) /\ where_listRecords did coll before after r = true.
Proof.
  unfold select_listRecords. intros Hin.
  apply In_firstn in Hin.
  apply (Permutation_in _ (Permutation_sym (orderBy_recordKey_perm _ _)))
    in Hin.
  apply filter_In in Hin. exact Hin.
Qed.

(** The entries of the list carry the URIs of the rows, in their
    order. *)
Lemma map_throwing_listed_uri (rows : list RecordTbl.row)
    (l : list (Listed.t unknown)) :
  map_throwing (listed_of_row JSON_parse) rows = Js.ok l ->
  map (@Listed.uri unknown) l = map RecordTbl.uri rows.
Proof.
  revert l. induction rows as [|r rows IH]; simpl; intros l Hl.
  - injection Hl as <-. reflexivity.
  - unfold listed_of_row in Hl at 1.
    destruct (JSON_parse (RecordTbl.raw r)) as [e|v]; [discriminate|].
    simpl in Hl.
    destruct (map_throwing (listed_of_row JSON_parse) rows) as [e|bs];
      [discriminate|].
    injection Hl as <-. simpl. rewrite (IH bs eq_refl). reflexivity.
Qed.

(** C7.  After [deleteRecord(uri)] has returned for a URI whose
    collection a plugin owns, [getRecord(uri)] returns [null], and no
    call of [listRecordsForCollection], whatever its identity,
    collection, limit, direction and bounds, selects a row under the URI
    or returns an entry under it. *)
Theorem deleteRecord_removes
    (this : Database unknown Typed Notifs Notification) (uri : AdxUri.t) (s s' : Db Typed Notifs) :
  registered this (AdxUri.collection uri) = true ->
  deleteRecord this uri s = (Js.ok tt, s') ->
  getRecord JSON_parse s' uri = Js.ok None
  /\ forall (did coll : string) (limit : nat) (reverse : bool)
        (before after : option string),
      ~ In (AdxUri.toString uri)
           (map RecordTbl.uri
              (select_listRecords s' did coll limit reverse before after))
      /\ forall l,
          listRecordsForCollection JSON_parse s' did coll limit reverse
            before after = Js.ok l ->
          ~ In (AdxUri.toString uri) (map (@Listed.uri unknown) l).
Proof.
  intros Hreg Hok.
  destruct (findTableForCollection_registered _ _ Hreg)
    as [table [Htable _]].
  pose proof (deleteRecord_record this uri s Htable) as Hlog.
  rewrite Hok in Hlog. simpl in Hlog.
  assert (forall did coll limit reverse before after,
             ~ In (AdxUri.toString uri)
                  (map RecordTbl.uri
                     (select_listRecords s' did coll limit reverse
                        before after))) as Hsel.
  { intros did coll limit reverse before after Hin.
    apply in_map_iff in Hin. destruct Hin as [r [Huri Hin]].
    apply select_listRecords_In in Hin. destruct Hin as [Hin _].
    rewrite Hlog in Hin. apply filter_In in Hin.
    destruct Hin as [_ Hneq]. rewrite Huri, String.eqb_refl in Hneq.
    discriminate. }
  split.
  - unfold getRecord. rewrite Hlog.
    rewrite (find_filter_negb
               (fun r => String.eqb (RecordTbl.uri r) (AdxUri.toString uri))).
    reflexivity.
  - intros did coll limit reverse before after. split; [apply Hsel|].
    intros l Hl. unfold listRecordsForCollection in Hl.
    rewrite (map_throwing_listed_uri _ Hl). apply Hsel.
Qed.

(** *** Repository roots *)

Lemma find_map_same_key (A : Type) (key : A -> bool) (f : A -> A)
    (l : list A) :
  (forall a, key (f a) = key a) ->
  find key (map f l) = option_map f (find key l).
Proof.
  intros Hkey. induction l as [|x l IH]; simpl; [reflexivity|].
  rewrite Hkey. destruct (key x); [reflexivity | exact IH].
Qed.

(** [getRepoRoot] returns [null] exactly for an identity without a
    row. *)
Lemma getRepoRoot_null s (did : string) :
  getRepoRoot CID_parse s did = Js.ok None <-> has_repo_root s did = false.
Proof.
  unfold getRepoRoot, has_repo_root. rewrite find_existsb.
  destruct (find _ (repo_root s)) as [found|].
  - destruct (CID_parse (RepoRootTbl.root found)); split; discriminate.
  - split; reflexivity.
Qed.

(** C3, as the code has it.  [updateRepoRoot(did, root)] returns, and it
    overwrites the root of the rows that the identity has, whatever
    they held: when the identity has a row, [getRepoRoot(did)] then
    returns [root]; when it has none, the call writes nothing and
    [getRepoRoot(did)] still returns [null].  [getRepoRoot] returns
    [null] exactly for an identity without a row. *)
Theorem updateRepoRoot_overwrites
    (s : Db Typed Notifs) (did : string) (root : CID) :
  CID_parse (CID_toString root) = Js.ok root ->
  fst (updateRepoRoot CID_toString did root s) = Js.ok tt
  /\ (has_repo_root s did = true ->
      getRepoRoot CID_parse (snd (updateRepoRoot CID_toString did root s)) did
      = Js.ok (Some root))
  /\ (has_repo_root s did = false ->
      snd (updateRepoRoot CID_toString did root s) = s
      /\ getRepoRoot CID_parse (snd (updateRepoRoot CID_toString did root s))
           did = Js.ok None)
  /\ (forall s0,
        getRepoRoot CID_parse s0 did = Js.ok None
        <-> has_repo_root s0 did = false).
Proof.
  intros Hcid. split; [reflexivity|]. split; [|split].
  - unfold has_repo_root, getRepoRoot, updateRepoRoot. simpl.
    rewrite find_existsb. intros Hrow.
    rewrite find_map_same_key
      by (intros a; destruct (RepoRootTbl.did a =? did)%string eqn:Ha;
          simpl; rewrite ?Ha; reflexivity).
    destruct (find _ (repo_root s)) as [found|] eqn:Hfind; [|discriminate].
    apply find_some in Hfind. destruct Hfind as [_ Hdid].
    simpl. rewrite Hdid. simpl. rewrite Hcid. reflexivity.
  - intros Hrow.
    assert (snd (updateRepoRoot CID_toString did root s) = s) as Hsame.
    { unfold updateRepoRoot, set_repo_root. simpl.
      unfold has_repo_root in Hrow.
      destruct s as [rec roots users ty nt]. simpl in *. f_equal.
      rewrite <- (map_id roots) at 2. apply map_ext_in.
      intros a Ha.
      destruct (RepoRootTbl.did a =? did)%string eqn:Hdid; [|reflexivity].
      assert (existsb (fun r => (RepoRootTbl.did r =? did)%string) roots
              = true) as Habs by (apply existsb_exists; eauto).
      congruence. }
    split; [exact Hsame|]. rewrite Hsame. apply getRepoRoot_null.
    exact Hrow.
  - intros s0. apply getRepoRoot_null.
Qed.

(** *** Users *)

(** C9, as the code has it.  [getUser] compares the stored name as the
    engine's [UPPER] folds it with the given name as the runtime's
    [toUpperCase] folds it.  For a stored user and a name that passes
    this comparison with the user's name: when the name does not start
    with "did:", [getUser] finds a user whose name passes the comparison
    too, and this is the stored user when no other user has such a name.
    Two ASCII names that are equal up to the case of their letters pass
    the comparison, when both foldings are the folding of the letters
    [a]-[z] on ASCII strings.  When no stored user has exactly the given
    name, [verifyUserPassword] returns [null] for every password; and
    under the user's own name, when it is the name of that user alone
    and the password verifies, [verifyUserPassword] returns the user's
    identity. *)
Theorem verifyUserPassword_case_sensitive
    (s : Db Typed Notifs) (u : UserTbl.row) (name : string) :
  In u (user s) ->
  (toUpperCase name = UPPER (UserTbl.username u) ->
   Js.startsWith name "did:" = false ->
   exists found,
     getUser toUpperCase UPPER s name = Some found
     /\ UPPER (UserTbl.username found) = toUpperCase name
     /\ ((forall u', In u' (user s) ->
                     UPPER (UserTbl.username u') = toUpperCase name ->
                     u' = u) ->
         found = u))
  /\ ((forall x, Js.is_ascii x = true -> toUpperCase x = Js.fold_ascii x) ->
      (forall x, Js.is_ascii x = true -> UPPER x = Js.fold_ascii x) ->
      Js.is_ascii name = true ->
      Js.is_ascii (UserTbl.username u) = true ->
      Js.fold_ascii name = Js.fold_ascii (UserTbl.username u) ->
      toUpperCase name = UPPER (UserTbl.username u))
  /\ ((forall u', In u' (user s) -> UserTbl.username u' <> name) ->
      forall password,
        verifyUserPassword scrypt_verify s name password = None)
  /\ ((forall u', In u' (user s) ->
                  UserTbl.username u' = UserTbl.username u -> u' = u) ->
      forall password,
        scrypt_verify password (UserTbl.password u) = true ->
        verifyUserPassword scrypt_verify s (UserTbl.username u) password
        = Some (UserTbl.did u)).
Proof.
  intros Hin. split; [|split; [|split]].
  - intros Hupper Hdid. unfold getUser. rewrite Hdid.
    destruct (find_In_some
                (fun u0 => String.eqb (UPPER (UserTbl.username u0))
                                      (toUpperCase name))
                _ _ Hin) as [found Hfound].
    { rewrite Hupper. apply String.eqb_refl. }
    exists found. split; [exact Hfound|].
    apply find_some in Hfound. destruct Hfound as [Hfin Hfeq].
    apply String.eqb_eq in Hfeq. split; [exact Hfeq|].
    intros Huniq. apply Huniq; assumption.
  - intros Hjs Hsql Hname Hstored Hfold.
    rewrite (Hjs _ Hname), (Hsql _ Hstored). exact Hfold.
  - intros Hnone password. unfold verifyUserPassword.
    destruct (find _ (user s)) as [found|] eqn:Hfind; [|reflexivity].
    apply find_some in Hfind. destruct Hfind as [Hfin Hfeq].
    apply String.eqb_eq in Hfeq. exfalso. exact (Hnone _ Hfin Hfeq).
  - intros Huniq password Hpass. unfold verifyUserPassword.
    destruct (find_In_some
                (fun u0 => String.eqb (UserTbl.username u0)
                                      (UserTbl.username u))
                _ _ Hin (String.eqb_refl _)) as [found Hfound].
    rewrite Hfound. apply find_some in Hfound.
    destruct Hfound as [Hfin Hfeq]. apply String.eqb_eq in Hfeq.
    rewrite (Huniq _ Hfin Hfeq), Hpass. reflexivity.
Qed.

End StoreFacts.

(** * Properties of the feed projector *)

Section FeedFacts.

Variable unknown : Type.
Variable JSON_parse : string -> Js.result unknown.

(** [rowToFeedItem] returns exactly when the stored payload decodes. *)
Lemma rowToFeedItem_returns (row : FeedRow.t) :
  (exists item, rowToFeedItem JSON_parse row = Js.ok item)
  <-> exists v, JSON_parse (FeedRow.recordRaw row) = Js.ok v.
Proof.
  unfold rowToFeedItem.
  destruct (JSON_parse (FeedRow.recordRaw row)) as [e|v].
  - split; intros [x Hx]; discriminate.
  - split; intros _; eexists; reflexivity.
Qed.

(** C8.  For a row whose stored payload decodes, [rowToFeedItem] returns
    an item whose author is made of the author fields of the row, whose
    [repostedBy] is made of the originator fields when the type of the
    row is "repost" and is [undefined] otherwise, and whose [myState]
    holds the requester's URIs, [undefined] where the row has [null].
    So for a row of type "repost" with author "did:x", originator
    "did:y", no like of the requester and the requester's repost
    "at://did:x/app.x.repost/abc", the item has these in [author.did],
    [repostedBy.did], [myState.like] and [myState.repost]. *)
Theorem rowToFeedItem_projection (row : FeedRow.t) (v : unknown) :
  JSON_parse (FeedRow.recordRaw row) = Js.ok v ->
  exists item,
    rowToFeedItem JSON_parse row = Js.ok item
    /\ FeedItem.author item
       = {| FeedItem.did := FeedRow.authorDid row;
            FeedItem.name := FeedRow.authorName row;
            FeedItem.displayName :=
              Js.coalesce_undefined (FeedRow.authorDisplayName row) |}
    /\ (FeedRow.type row = FeedRow.repost ->
        FeedItem.repostedBy item
        = Some {| FeedItem.did := FeedRow.originatorDid row;
                  FeedItem.name := FeedRow.originatorName row;
                  FeedItem.displayName :=
                    Js.coalesce_undefined
                      (FeedRow.originatorDisplayName row) |})
    /\ (FeedRow.type row <> FeedRow.repost ->
        FeedItem.repostedBy item = None)
    /\ FeedItem.like (FeedItem.myState item)
       = match FeedRow.requesterLike row with
         | Js.null => None
         | Js.notnull u => Some u
         end
    /\ FeedItem.repost (FeedItem.myState item)
       = match FeedRow.requesterRepost row with
         | Js.null => None
         | Js.notnull u => Some u
         end
    /\ (FeedRow.type row = FeedRow.repost ->
        FeedRow.authorDid row = "did:x" ->
        FeedRow.originatorDid row = "did:y" ->
        FeedRow.requesterLike row = Js.null ->
        FeedRow.requesterRepost row
        = Js.notnull "at://did:x/app.x.repost/abc" ->
        FeedItem.did (FeedItem.author item) = "did:x"
        /\ option_map FeedItem.did (FeedItem.repostedBy item) = Some "did:y"
        /\ FeedItem.like (FeedItem.myState item) = None
        /\ FeedItem.repost (FeedItem.myState item)
           = Some "at://did:x/app.x.repost/abc").
Proof.
  intros Hraw. unfold rowToFeedItem. rewrite Hraw.
  eexists. split; [reflexivity|]. simpl.
  split; [reflexivity|]. split; [|split; [|split; [|split]]].
  - intros ->. reflexivity.
  - intros Hpost. destruct (FeedRow.type row);
      [reflexivity | contradiction].
  - destruct (FeedRow.requesterLike row); reflexivity.
  - destruct (FeedRow.requesterRepost row); reflexivity.
  - intros -> -> -> -> ->. simpl. repeat split.
Qed.

End FeedFacts.

(** * Pagination *)

Section OrderFacts.

Lemma key_lt_compare (a b : string) :
  key_lt a b = true <-> String.compare a b = Lt.
Proof.
  unfold key_lt, String.ltb.
  destruct (String.compare a b); split; congruence.
Qed.

Lemma key_lt_trans (a b c : string) :
  key_lt a b = true -> key_lt b c = true -> key_lt a c = true.
Proof.
  rewrite !key_lt_compare. intros Hab Hbc.
  apply String_as_OT.cmp_lt. apply String_as_OT.cmp_lt in Hab, Hbc.
  exact (String_as_OT.lt_trans _ _ _ Hab Hbc).
Qed.

Lemma key_lt_asym (a b : string) :
  key_lt a b = true -> key_lt b a = false.
Proof.
  intros Hab. apply key_lt_compare in Hab.
  unfold key_lt, String.ltb. rewrite String.compare_antisym, Hab.
  reflexivity.
Qed.

Lemma key_lt_total (a b : string) :
  key_lt a b = false -> key_lt b a = false -> a = b.
Proof.
  unfold key_lt, String.ltb. rewrite (String.compare_antisym b a).
  destruct (String.compare a b) eqn:Hab; simpl; try discriminate.
  intros _ _. apply String.compare_eq_iff. exact Hab.
Qed.

Lemma key_lt_negtrans (a b c : string) :
  key_lt a b = false -> key_lt b c = false -> key_lt a c = false.
Proof.
  intros Hab Hbc. destruct (key_lt a c) eqn:Hac; [|reflexivity].
  destruct (key_lt b a) eqn:Hba.
  - rewrite (key_lt_trans _ _ _ Hba Hac) in Hbc. discriminate.
  - rewrite (key_lt_total _ _ Hab Hba) in Hac. congruence.
Qed.

Lemma precedes_asym (desc : bool) (a b : RecordTbl.row) :
  precedes desc a b = true -> precedes desc b a = false.
Proof. destruct desc; simpl; apply key_lt_asym. Qed.

Lemma precedes_negtrans (desc : bool) (a b c : RecordTbl.row) :
  precedes desc a b = false -> precedes desc b c = false ->
  precedes desc a c = false.
Proof.
  destruct desc; simpl; intros Hab Hbc.
  - exact (key_lt_negtrans _ _ _ Hbc Hab).
  - exact (key_lt_negtrans _ _ _ Hab Hbc).
Qed.

Lemma insert_row_ordered (desc : bool) (x : RecordTbl.row)
    (l : list RecordTbl.row) :
  ordered desc l -> ordered desc (insert_row (precedes desc) x l).
Proof.
  unfold ordered. induction l as [|y l IH]; simpl; intros Hl.
  - constructor; constructor.
  - apply StronglySorted_inv in Hl. destruct Hl as [Hl Hy].
    destruct (precedes desc y x) eqn:Hyx.
    + constructor; [exact (IH Hl)|].
      rewrite <- insert_row_perm. constructor; [|exact Hy].
      exact (precedes_asym _ _ _ Hyx).
    + constructor; [constructor; assumption|].
      constructor; [exact Hyx|].
      apply Forall_forall. intros z Hz.
      rewrite Forall_forall in Hy.
      exact (precedes_negtrans _ _ _ _ (Hy z Hz) Hyx).
Qed.

Lemma orderBy_recordKey_ordered (desc : bool) (rows : list RecordTbl.row) :
  ordered desc (orderBy_recordKey desc rows).
Proof.
  unfold orderBy_recordKey. induction rows as [|x rows IH]; simpl.
  - constructor.
  - apply insert_row_ordered. exact IH.
Qed.

(** A list in strict order is the only ordered arrangement of its
    rows. *)
Lemma ordered_unique (desc : bool) (L l : list RecordTbl.row) :
  StronglySorted (fun a b => precedes desc a b = true) L ->
  ordered desc l -> Permutation l L -> l = L.
Proof.
  unfold ordered. intros HL. revert l.
  induction HL as [|x L HL IH Hx]; intros l Hl Hperm.
  - apply Permutation_sym, Permutation_nil in Hperm. exact Hperm.
  - destruct l as [|y l].
    + apply Permutation_nil in Hperm. discriminate.
    + apply StronglySorted_inv in Hl. destruct Hl as [Hl Hy].
      assert (y = x) as ->.
      { assert (In y (x :: L)) as Hyin
          by (apply (Permutation_in _ Hperm); left; reflexivity).
        assert (In x (y :: l)) as Hxin
          by (apply (Permutation_in _ (Permutation_sym Hperm)); left;
              reflexivity).
        destruct Hyin as [Heq | Hyin]; [symmetry; exact Heq|].
        destruct Hxin as [Heq | Hxin]; [exact Heq|].
        rewrite Forall_forall in Hx, Hy.
        pose proof (Hx _ Hyin) as H1. pose proof (Hy _ Hxin) as H2.
        congruence. }
      f_equal. apply IH; [exact Hl|].
      exact (Permutation_cons_inv Hperm).
Qed.

Lemma orderBy_recordKey_sorted (desc : bool) (L l : list RecordTbl.row) :
  StronglySorted (fun a b => precedes desc a b = true) L ->
  Permutation l L -> orderBy_recordKey desc l = L.
Proof.
  intros HL Hperm. apply (ordered_unique HL).
  - apply orderBy_recordKey_ordered.
  - rewrite <- Hperm. apply Permutation_sym, orderBy_recordKey_perm.
Qed.

Lemma StronglySorted_snoc (A : Type) (R : A -> A -> Prop) (l : list A)
    (x : A) :
  StronglySorted R l -> Forall (fun y => R y x) l ->
  StronglySorted R (l ++ [x]).
Proof.
  induction 1 as [|y l Hl IH Hy]; intros Hx; simpl.
  - constructor; constructor.
  - inversion Hx; subst. constructor; [auto|].
    apply Forall_app. split; [exact Hy|]. constructor; auto.
Qed.

Lemma StronglySorted_rev (A : Type) (R : A -> A -> Prop) (l : list A) :
  StronglySorted R l -> StronglySorted (fun a b => R b a) (rev l).
Proof.
  induction 1 as [|x l Hl IH Hx]; simpl; [constructor|].
  apply StronglySorted_snoc; [exact IH|].
  apply Forall_rev. exact Hx.
Qed.

Lemma StronglySorted_filter (A : Type) (R : A -> A -> Prop)
    (f : A -> bool) (l : list A) :
  StronglySorted R l -> StronglySorted R (filter f l).
Proof.
  induction 1 as [|x l Hl IH Hx]; simpl; [constructor|].
  destruct (f x); [|exact IH].
  constructor; [exact IH|].
  rewrite Forall_forall in *. intros y Hy.
  apply filter_In in Hy. apply Hx. tauto.
Qed.

Lemma Permutation_filter (A : Type) (f : A -> bool) (l l' : list A) :
  Permutation l l' -> Permutation (filter f l) (filter f l').
Proof.
  induction 1 as [|x l l' Hp IH|x y l|l l' l'' H1 IH1 H2 IH2]; simpl.
  - constructor.
  - destruct (f x); [apply perm_skip|]; exact IH.
  - destruct (f x), (f y); try reflexivity. apply perm_swap.
  - exact (Permutation_trans IH1 IH2).
Qed.

Lemma filter_andb (A : Type) (f g : A -> bool) (l : list A) :
  filter (fun a => f a && g a) l = filter g (filter f l).
Proof.
  induction l as [|x l IH]; simpl; [reflexivity|].
  destruct (f x); simpl; [destruct (g x)|]; rewrite IH; reflexivity.
Qed.

(** An ascending list, taken in the direction of the query, is in the
    strict order of that direction. *)
Lemma direction_sorted (reverse : bool) (rows : list RecordTbl.row) :
  StronglySorted key_asc rows ->
  StronglySorted (fun a b => precedes reverse a b = true)
                 (direction reverse rows).
Proof.
  intros Hrows. destruct reverse; simpl.
  - exact (StronglySorted_rev Hrows).
  - exact Hrows.
Qed.

End OrderFacts.

Section PaginationFacts.

Variable unknown : Type.
Variable JSON_parse : string -> Js.result unknown.
Variable Typed : Type.
Variable Notifs : Type.

Implicit Types (s : Db Typed Notifs) (rs : list RecordTbl.row).

Lemma map_throwing_app (A B : Type) (f : A -> Js.result B)
    (l1 l2 : list A) (b1 b2 : list B) :
  map_throwing f l1 = Js.ok b1 -> map_throwing f l2 = Js.ok b2 ->
  map_throwing f (l1 ++ l2) = Js.ok (b1 ++ b2)%list.
Proof.
  revert b1. induction l1 as [|a l1 IH]; simpl; intros b1 H1 H2.
  - injection H1 as <-. exact H2.
  - destruct (f a) as [e|b]; [discriminate|].
    destruct (map_throwing f l1) as [e|bs]; [discriminate|].
    injection H1 as <-. rewrite (IH bs eq_refl H2). reflexivity.
Qed.

Lemma map_throwing_rev (A B : Type) (f : A -> Js.result B) (l : list A)
    (bs : list B) :
  map_throwing f l = Js.ok bs -> map_throwing f (rev l) = Js.ok (rev bs).
Proof.
  revert bs. induction l as [|a l IH]; simpl; intros bs Hl.
  - injection Hl as <-. reflexivity.
  - destruct (f a) as [e|b] eqn:Ha; [discriminate|].
    destruct (map_throwing f l) as [e|bs'] eqn:Hl'; [discriminate|].
    injection Hl as <-. simpl.
    apply map_throwing_app; [exact (IH bs' eq_refl)|].
    simpl. rewrite Ha. reflexivity.
Qed.

(** The query of [listRecordsForCollection], for a collection whose rows
    are [rs] in ascending order of their keys: the rows within the
    bounds, in the direction asked for, cut at the limit. *)
Lemma select_listRecords_sorted s (did coll : string) rs (limit : nat)
    (reverse : bool) (before after : option string) :
  Permutation (filter (owned_by did coll) (record s)) rs ->
  StronglySorted key_asc rs ->
  select_listRecords s did coll limit reverse before after
  = firstn limit (direction reverse (filter (within before after) rs)).
Proof.
  intros Hperm Hsorted. unfold select_listRecords. f_equal.
  apply orderBy_recordKey_sorted.
  - apply direction_sorted, StronglySorted_filter, Hsorted.
  - unfold where_listRecords. rewrite filter_andb.
    rewrite (Permutation_filter (within before after) Hperm).
    destruct reverse; simpl; [apply Permutation_rev | reflexivity].
Qed.

(** C2, as the code has it.  Let the rows of one collection of one
    identity be [rs], in ascending order of their keys.  With limit [m],
    forward and without bounds, [listRecordsForCollection] returns the
    first [m] of them in that order.  Whatever the limit and the
    direction, it selects only rows whose key is strictly above [after]
    and strictly below [before], and the entries it returns are those of
    the selected rows.  In reverse it selects the rows within
    the bounds in descending order, cut at the limit; this is the
    forward selection reversed when the limit is at least the number of
    rows within the bounds. *)
Theorem listRecordsForCollection_pagination
    (s : Db Typed Notifs) (did coll : string) (rs : list RecordTbl.row) :
  Permutation (filter (owned_by did coll) (record s)) rs ->
  StronglySorted key_asc rs ->
  (forall m,
      listRecordsForCollection JSON_parse s did coll m false None None
      = map_throwing (listed_of_row JSON_parse) (firstn m rs))
  /\ (forall limit reverse before after r,
        In r (select_listRecords s did coll limit reverse before after) ->
        (forall k, after = Some k ->
                   key_lt k (RecordTbl.recordKey r) = true)
        /\ (forall k, before = Some k ->
                      key_lt (RecordTbl.recordKey r) k = true))
  /\ (forall limit reverse before after l,
        listRecordsForCollection JSON_parse s did coll limit reverse
          before after = Js.ok l ->
        map (@Listed.uri unknown) l
        = map RecordTbl.uri
            (select_listRecords s did coll limit reverse before after))
  /\ (forall limit before after,
        select_listRecords s did coll limit true before after
        = firstn limit (rev (filter (within before after) rs)))
  /\ (forall limit before after,
        length (filter (within before after) rs) <= limit ->
        select_listRecords s did coll limit true before after
        = rev (select_listRecords s did coll limit false before after)
        /\ forall l,
            listRecordsForCollection JSON_parse s did coll limit false
              before after = Js.ok l ->
            listRecordsForCollection JSON_parse s did coll limit true
              before after = Js.ok (rev l)).
Proof.
  intros Hperm Hsorted. split; [|split; [|split; [|split]]].
  - intros m. unfold listRecordsForCollection.
    rewrite (select_listRecords_sorted s did coll m false None None
               Hperm Hsorted).
    simpl. unfold within. simpl. rewrite filter_true. reflexivity.
  - intros limit reverse before after r Hin.
    apply select_listRecords_In in Hin. destruct Hin as [_ Hwhere].
    unfold where_listRecords, within in Hwhere.
    apply andb_true_iff in Hwhere. destruct Hwhere as [_ Hwithin].
    apply andb_true_iff in Hwithin. destruct Hwithin as [Hb Ha].
    split; intros k ->; assumption.
  - intros limit reverse before after l Hl.
    exact (map_throwing_listed_uri JSON_parse _ Hl).
  - intros limit before after.
    exact (select_listRecords_sorted s did coll limit true before after
             Hperm Hsorted).
  - intros limit before after Hlimit.
    assert (select_listRecords s did coll limit true before after
            = rev (select_listRecords s did coll limit false before after))
      as Hrev.
    { rewrite !(select_listRecords_sorted s did coll _ _ _ _ Hperm Hsorted).
      simpl. rewrite !firstn_all2; [reflexivity | exact Hlimit |].
      rewrite length_rev. exact Hlimit. }
    split; [exact Hrev|].
    intros l Hl. unfold listRecordsForCollection in *.
    rewrite Hrev. apply map_throwing_rev. exact Hl.
Qed.

End PaginationFacts.

(** * Reading back what [JSON.stringify] prints *)

Module JsonFacts.

Import Json.

Lemma append_assoc (a b c : string) :
  ((a ++ b) ++ c = a ++ (b ++ c))%string.
Proof.
  induction a as [|x a IH]; simpl; [reflexivity|].
  rewrite IH. reflexivity.
Qed.

(** A quoted string reads back as the string. *)
Lemma parse_chars_escape (s rest : string) :
  parse_chars (escape s ++ String dquote rest) = Some (s, rest).
Proof.
  induction s as [|c s IH].
  - reflexivity.
  - simpl escape. rewrite append_assoc.
    destruct c as [[] [] [] [] [] [] [] []];
      (match goal with
       | |- context [escape_char ?c] =>
           let e := eval vm_compute in (escape_char c) in
           change (escape_char c) with e
       end);
      simpl; rewrite IH; reflexivity.
Qed.

(** *** Numbers *)

Lemma read_digits_no_digit (rest : string) :
  no_digit_head rest = true -> read_digits rest = (Decimal.Nil, rest).
Proof.
  destruct rest as [|c rest]; simpl; [reflexivity|].
  destruct (digit_of c); [discriminate | reflexivity].
Qed.

Lemma read_digits_uint (d : Decimal.uint) (rest : string) :
  no_digit_head rest = true ->
  read_digits (NilEmpty.string_of_uint d ++ rest) = (d, rest).
Proof.
  intros Hrest.
  induction d as [|d IH|d IH|d IH|d IH|d IH|d IH|d IH|d IH|d IH|d IH];
    [exact (read_digits_no_digit _ Hrest)|..];
    cbn -[read_digits]; cbn [read_digits];
    (match goal with
     | |- context [digit_of ?c] =>
         let e := eval vm_compute in (digit_of c) in
         change (digit_of c) with e
     end);
    rewrite IH; reflexivity.
Qed.

Lemma unorm_to_uint (p : positive) :
  Decimal.unorm (Pos.to_uint p) = Pos.to_uint p.
Proof.
  rewrite <- (DecimalPos.Unsigned.to_of (Pos.to_uint p)).
  rewrite DecimalPos.Unsigned.of_to. reflexivity.
Qed.

Lemma parse_number_uint (negative : bool) (d : Decimal.uint)
    (rest : string) :
  d <> Decimal.Nil -> Decimal.unorm d = d -> no_digit_head rest = true ->
  parse_number
    ((if negative then String "-" (NilEmpty.string_of_uint d)
      else NilEmpty.string_of_uint d) ++ rest)
  = Some (Z.of_int (if negative then Decimal.Neg d else Decimal.Pos d),
          rest).
Proof.
  intros Hnil Hnorm Hrest. unfold parse_number.
  pose proof (read_digits_uint d rest Hrest) as Hread.
  destruct negative.
  - cbn -[read_digits Decimal.unorm Z.of_int]. rewrite Hread.
    destruct (Decimal.uint_eq_dec (Decimal.unorm d) d);
      [reflexivity | contradiction].
  - assert (exists c s',
               (NilEmpty.string_of_uint d ++ rest)%string = String c s'
               /\ Ascii.eqb c "-" = false) as [c [s' [Hs Hc]]]
      by (destruct d; [contradiction|..]; eexists; eexists;
          (split; reflexivity)).
    rewrite Hs in *. rewrite Hc, Hread.
    destruct (Decimal.uint_eq_dec (Decimal.unorm d) d);
      [reflexivity | contradiction].
Qed.

(** An integer reads back from its decimal text. *)
Lemma parse_number_Z (n : Z) (rest : string) :
  no_digit_head rest = true ->
  parse_number (string_of_Z n ++ rest) = Some (n, rest).
Proof.
  intros Hrest. unfold string_of_Z.
  rewrite <- (DecimalZ.of_to n) at 2.
  destruct n as [|p|p]; simpl Z.to_int.
  - assert (Decimal.D0 Decimal.Nil <> Decimal.Nil) as Hnil by discriminate.
    exact (parse_number_uint false rest Hnil eq_refl Hrest).
  - pose proof (DecimalPos.Unsigned.to_uint_nonnil p) as Hnil.
    pose proof (parse_number_uint false rest Hnil (unorm_to_uint p) Hrest) as H.
    simpl in H. unfold NilZero.string_of_int, NilZero.string_of_uint.
    destruct (Pos.to_uint p); [contradiction|..]; exact H.
  - pose proof (DecimalPos.Unsigned.to_uint_nonnil p) as Hnil.
    pose proof (parse_number_uint true rest Hnil (unorm_to_uint p) Hrest) as H.
    unfold NilZero.string_of_int, NilZero.string_of_uint.
    destruct (Pos.to_uint p); [contradiction|..]; exact H.
Qed.

(** *** Documents *)

Lemma parse_value_number_head (fuel : nat) (c : ascii) (s : string) :
  number_head c = true ->
  parse_value (S fuel) (String c s)
  = match parse_number (String c s) with
    | Some (n, r) => Some (Number n, r)
    | None => None
    end.
Proof.
  destruct c as [[] [] [] [] [] [] [] []]; intros H;
    vm_compute in H; try discriminate H; reflexivity.
Qed.

Lemma number_head_value_head (c : ascii) :
  number_head c = true -> value_head c = true.
Proof.
  destruct c as [[] [] [] [] [] [] [] []]; intros H;
    vm_compute in H; try discriminate H; reflexivity.
Qed.

Lemma string_of_uint_head (d : Decimal.uint) :
  d <> Decimal.Nil ->
  exists c s, NilEmpty.string_of_uint d = String c s /\ number_head c = true.
Proof.
  destruct d; [contradiction|..]; intros _; eexists; eexists;
    (split; reflexivity).
Qed.

Lemma string_of_Z_head (n : Z) :
  exists c s, string_of_Z n = String c s /\ number_head c = true.
Proof.
  unfold string_of_Z. destruct n as [|p|p]; simpl Z.to_int.
  - eexists; eexists; split; reflexivity.
  - pose proof (DecimalPos.Unsigned.to_uint_nonnil p) as Hnil.
    destruct (@string_of_uint_head _ Hnil) as [c [s [Hs Hc]]].
    exists c, s. split; [|exact Hc]. rewrite <- Hs.
    unfold NilZero.string_of_int, NilZero.string_of_uint.
    destruct (Pos.to_uint p); [contradiction|..]; reflexivity.
  - eexists; eexists; split; reflexivity.
Qed.

Lemma parse_value_number (fuel : nat) (n : Z) (rest : string) :
  no_digit_head rest = true ->
  parse_value (S fuel) (string_of_Z n ++ rest) = Some (Number n, rest).
Proof.
  intros Hrest. pose proof (@parse_number_Z n rest Hrest) as Hn.
  destruct (string_of_Z_head n) as [c [s [Hs Hc]]].
  rewrite Hs in *. simpl append in *.
  rewrite (@parse_value_number_head _ _ _ Hc), Hn. reflexivity.
Qed.

Lemma stringify_head (v : t) :
  exists c s, stringify v = String c s /\ value_head c = true.
Proof.
  destruct v as [|[]|n|s|[|v0 l0]|[|[k0 v0] l0]];
    try (eexists; eexists; split; reflexivity).
  destruct (string_of_Z_head n) as [c [s [Hs Hc]]].
  exists c, s. split; [exact Hs | exact (@number_head_value_head _ Hc)].
Qed.

Lemma skip_ws_value_head (c : ascii) (s : string) :
  value_head c = true -> skip_ws (String c s) = String c s.
Proof.
  unfold value_head. intros H. simpl.
  destruct (is_ws c); [discriminate | reflexivity].
Qed.

Lemma value_head_not_bracket (c : ascii) :
  value_head c = true -> Ascii.eqb c "]" = false.
Proof.
  unfold value_head. destruct (is_ws c); [discriminate|].
  destruct (Ascii.eqb c "]"); [discriminate | reflexivity].
Qed.

Lemma parse_value_array (fuel : nat) (x : string) (c : ascii) (s : string) :
  skip_ws x = String c s -> Ascii.eqb c "]" = false ->
  parse_value (S fuel) (String "[" x)
  = match parse_elements fuel x with
    | Some (vs, r) => Some (Array vs, r)
    | None => None
    end.
Proof.
  intros Hx Hc. cbn [parse_value].
  change (skip_ws (String "[" x)) with (String "[" x).
  cbn -[parse_value parse_elements parse_members skip_ws].
  rewrite Hx, Hc. reflexivity.
Qed.

Lemma parse_value_object (fuel : nat) (s : string) :
  parse_value (S fuel) (String "{" (String dquote s))
  = match parse_members fuel (String dquote s) with
    | Some (ms, r) => Some (Object ms, r)
    | None => None
    end.
Proof. reflexivity. Qed.

Lemma parse_value_string (fuel : nat) (s : string) :
  parse_value (S fuel) (String dquote s)
  = match parse_chars s with
    | Some (str, r) => Some (Str str, r)
    | None => None
    end.
Proof. reflexivity. Qed.

Lemma quote_append (s rest : string) :
  (quote s ++ rest)%string = String dquote (escape s ++ String dquote rest).
Proof. unfold quote. simpl. rewrite append_assoc. reflexivity. Qed.

Lemma parse_members_quote (fuel : nat) (k s : string) :
  parse_members (S fuel) (quote k ++ String ":" s)
  = match parse_value fuel s with
    | None => None
    | Some (v, r3) =>
        match skip_ws r3 with
        | EmptyString => None
        | String c3 r4 =>
            if Ascii.eqb c3 ","
            then match parse_members fuel r4 with
                 | Some (ms, r5) => Some ((k, v) :: ms, r5)
                 | None => None
                 end
            else if Ascii.eqb c3 "}" then Some ([(k, v)], r4) else None
        end
    end.
Proof.
  rewrite quote_append. cbn [parse_members].
  change (skip_ws (String dquote (escape k ++ String dquote (String ":" s))))
    with (String dquote (escape k ++ String dquote (String ":" s))).
  cbn -[parse_chars parse_value parse_members skip_ws escape].
  rewrite parse_chars_escape. reflexivity.
Qed.

Lemma size_pos (v : t) : 1 <= size v.
Proof. destruct v; simpl; lia. Qed.

Lemma no_digit_head_elements (l : list t) (rest : string) :
  no_digit_head (elements_with stringify l ++ rest) = true.
Proof. destruct l; reflexivity. Qed.

Lemma no_digit_head_members (l : list (string * t)) (rest : string) :
  no_digit_head (members_with stringify l ++ rest) = true.
Proof. destruct l as [|[k v] l]; reflexivity. Qed.

(** With fuel for its size, the text of a document reads back as the
    document, whatever text follows that is not a digit. *)
Lemma parse_fuel (fuel : nat) :
  (forall v rest,
      size v <= fuel -> no_digit_head rest = true ->
      parse_value fuel (stringify v ++ rest) = Some (v, rest))
  /\ (forall v l rest,
        S (size v) + list_sum (map (fun e => S (size e)) l) <= fuel ->
        parse_elements fuel
          (stringify v ++ elements_with stringify l ++ rest)
        = Some (v :: l, rest))
  /\ (forall k v l rest,
        S (size v) + list_sum (map (fun m => S (size (snd m))) l) <= fuel ->
        parse_members fuel
          (quote k ++ String ":"
             (stringify v ++ members_with stringify l ++ rest))
        = Some ((k, v) :: l, rest)).
Proof.
  induction fuel as [|fuel [IHv [IHe IHm]]].
  - split; [|split]; intros; pose proof (size_pos v); lia.
  - split; [|split].
    + intros v rest Hsize Hrest.
      destruct v as [|[]|n|s|[|v0 l0]|[|[k0 v0] l0]];
        try reflexivity.
      * exact (@parse_value_number _ _ _ Hrest).
      * simpl stringify. rewrite quote_append, parse_value_string.
        rewrite parse_chars_escape. reflexivity.
      * simpl stringify. simpl append. rewrite append_assoc.
        destruct (stringify_head v0) as [c [s0 [Hs Hc]]].
        erewrite parse_value_array;
          [|rewrite Hs; simpl append; exact (@skip_ws_value_head _ _ Hc)
           |exact (@value_head_not_bracket _ Hc)].
        rewrite IHe; [reflexivity|]. simpl in Hsize. lia.
      * simpl stringify. simpl append. rewrite !append_assoc.
        simpl append. rewrite append_assoc.
        pose proof (IHm k0 v0 l0 rest) as H.
        rewrite quote_append in *. rewrite parse_value_object.
        rewrite H; [reflexivity|]. simpl in Hsize. lia.
    + intros v l rest Hsize. cbn [parse_elements].
      rewrite IHv; [|lia | apply no_digit_head_elements].
      destruct l as [|v1 l1].
      * reflexivity.
      * simpl elements_with. simpl append. rewrite !append_assoc.
        cbn -[parse_elements elements_with stringify].
        change (is_ws ",") with false. cbv iota.
        change (Ascii.eqb "," ",") with true. cbv iota.
        rewrite IHe; [reflexivity|]. simpl in Hsize. lia.
    + intros k v l rest Hsize. rewrite parse_members_quote.
      rewrite IHv; [|lia | apply no_digit_head_members].
      destruct l as [|[k1 v1] l1].
      * reflexivity.
      * pose proof (IHm k1 v1 l1 rest) as H.
        simpl members_with. simpl append. rewrite !append_assoc.
        simpl append. rewrite append_assoc.
        cbn -[parse_members members_with stringify quote].
        change (is_ws ",") with false. cbv iota.
        change (Ascii.eqb "," ",") with true. cbv iota.
        rewrite quote_append in H.
        rewrite H; [reflexivity|]. simpl in Hsize. lia.
Qed.

(** Induction on documents, through their elements and members. *)
Lemma t_ind_nested (P : t -> Prop) :
  P Null ->
  (forall b, P (Bool b)) ->
  (forall n, P (Number n)) ->
  (forall s, P (Str s)) ->
  (forall l, Forall P l -> P (Array l)) ->
  (forall l, Forall (fun m => P (snd m)) l -> P (Object l)) ->
  forall v, P v.
Proof.
  intros Hnull Hbool Hnumber Hstr Harray Hobject.
  fix IH 1. intros [|b|n|s|l|l].
  - exact Hnull.
  - apply Hbool.
  - apply Hnumber.
  - apply Hstr.
  - apply Harray. induction l as [|v l IHl]; constructor.
    + apply IH.
    + exact IHl.
  - apply Hobject. induction l as [|[k v] l IHl]; constructor.
    + apply IH.
    + exact IHl.
Qed.

Lemma length_append (a b : string) :
  String.length (a ++ b) = String.length a + String.length b.
Proof.
  induction a as [|c a IH]; simpl; [reflexivity|].
  rewrite IH. reflexivity.
Qed.

Lemma append_nil_r (a : string) : (a ++ EmptyString)%string = a.
Proof.
  induction a as [|c a IH]; simpl; [reflexivity|].
  rewrite IH. reflexivity.
Qed.

(** The text of a document is at least as long as the document is
    large. *)
Lemma size_le_length (v : t) : size v <= String.length (stringify v).
Proof.
  induction v as [|b|n|s|l IHl|l IHl] using t_ind_nested.
  - simpl. lia.
  - destruct b; simpl; lia.
  - destruct (string_of_Z_head n) as [c [s [Hs _]]].
    simpl. rewrite Hs. simpl. lia.
  - simpl. lia.
  - destruct l as [|v0 l0]; [simpl; lia|].
    inversion IHl as [|? ? Hv0 Hl0]; subst.
    assert (list_sum (map (fun e => S (size e)) l0) + 1
            <= String.length (elements_with stringify l0)) as Htail.
    { clear Hv0 IHl. induction Hl0 as [|v1 l1 Hv1 Hl1 IH]; simpl; [lia|].
      rewrite length_append. lia. }
    change (stringify (Array (v0 :: l0)))
      with (String "[" (stringify v0 ++ elements_with stringify l0)).
    simpl. rewrite length_append. lia.
  - destruct l as [|[k0 v0] l0]; [simpl; lia|].
    inversion IHl as [|? ? Hv0 Hl0]; subst. simpl in Hv0.
    assert (list_sum (map (fun m => S (size (snd m))) l0) + 1
            <= String.length (members_with stringify l0)) as Htail.
    { clear Hv0 IHl.
      induction Hl0 as [|[k1 v1] l1 Hv1 Hl1 IH]; simpl; [lia|].
      simpl in Hv1. rewrite !length_append. simpl. rewrite length_append.
      lia. }
    change (stringify (Object ((k0, v0) :: l0)))
      with (String "{" (quote k0 ++ String ":"
                          (stringify v0 ++ members_with stringify l0))).
    simpl. rewrite !length_append. simpl. rewrite length_append. lia.
Qed.

(** [JSON.parse] reads every document back from the text that
    [JSON.stringify] prints for it. *)
Lemma parse_stringify (v : t) : parse (stringify v) = Js.ok v.
Proof.
  unfold parse.
  destruct (parse_fuel (S (String.length (stringify v)))) as [Hv _].
  pose proof (Hv v EmptyString) as H. rewrite append_nil_r in H.
  rewrite H; [reflexivity | | reflexivity].
  pose proof (size_le_length v). lia.
Qed.

End JsonFacts.

(** * The round trip of a record *)

Section RoundTrip.

Variable Typed : Type.
Variable Notifs : Type.
Variable Notification : Type.

(** C1.  For every URI and every JSON document [obj], after
    [indexRecord(uri, obj)] has returned, [getRecord(uri)] returns [obj],
    and the collection of the URI is in the list that
    [listCollectionsForDid] returns for the host of the URI. *)
Theorem indexRecord_round_trip
    (this : Database Json.t Typed Notifs Notification) (uri : AdxUri.t)
    (obj : Json.t) (indexedAt receivedAt : string) (s s' : Db Typed Notifs) :
  indexRecord Json.stringify this uri obj indexedAt receivedAt s
  = (Js.ok tt, s') ->
  getRecord Json.parse s' uri = Js.ok (Some obj)
  /\ In (AdxUri.collection uri) (listCollectionsForDid s' (AdxUri.host uri)).
Proof.
  intros Hok.
  eapply indexRecord_getRecord; [|exact Hok].
  apply JsonFacts.parse_stringify.
Qed.

End RoundTrip.

(** * More on the generic log *)

Section LogFacts.

Variable unknown : Type.
Variable JSON_stringify : unknown -> string.
Variable JSON_parse : string -> Js.result unknown.
Variable Typed : Type.
Variable Notifs : Type.
Variable Notification : Type.

Implicit Types (this : Database unknown Typed Notifs Notification).
Implicit Types (s : Db Typed Notifs) (uri : AdxUri.t) (obj : unknown).

Lemma on_typed_frame (A : Type) (m : M Typed A) s :
  record (snd (on_typed (Notifs := Notifs) m s)) = record s
  /\ repo_root (snd (on_typed (Notifs := Notifs) m s)) = repo_root s
  /\ user (snd (on_typed (Notifs := Notifs) m s)) = user s
  /\ user_notification (snd (on_typed (Notifs := Notifs) m s))
     = user_notification s
  /\ typed (snd (on_typed (Notifs := Notifs) m s)) = snd (m (typed s))
  /\ fst (on_typed (Notifs := Notifs) m s) = fst (m (typed s)).
Proof. unfold on_typed. destruct (m (typed s)). repeat split. Qed.

Lemma on_notifs_frame (A : Type) (m : M Notifs A) s :
  record (snd (on_notifs (Typed := Typed) m s)) = record s
  /\ repo_root (snd (on_notifs (Typed := Typed) m s)) = repo_root s
  /\ user (snd (on_notifs (Typed := Typed) m s)) = user s
  /\ typed (snd (on_notifs (Typed := Typed) m s)) = typed s
  /\ user_notification (snd (on_notifs (Typed := Typed) m s))
     = snd (m (user_notification s))
  /\ fst (on_notifs (Typed := Typed) m s) = fst (m (user_notification s)).
Proof. unfold on_notifs. destruct (m (user_notification s)). repeat split. Qed.

(** The part of [indexRecord] after the insertion into the log writes
    neither the log nor the tables of the roots and of the users. *)
Lemma indexRecord_tail_frame this uri obj s :
  let res :=
    (table <- lift (findTableForCollection this (AdxUri.collection uri)) ;;
     on_typed (insert table uri obj) ;;
     notifs <- lift (notifsForRecord table uri obj) ;;
     on_notifs (process (notifications this) notifs))%store s in
  record (snd res) = record s
  /\ repo_root (snd res) = repo_root s
  /\ user (snd res) = user s.
Proof.
  unfold bind, lift.
  destruct (findTableForCollection this (AdxUri.collection uri))
    as [e|table]; [repeat split|].
  destruct (on_typed_frame (insert table uri obj) s)
    as [H1 [H2 [H3 _]]].
  destruct (on_typed (insert table uri obj) s) as [[e|[]] s1];
    simpl in *; [repeat split; assumption|].
  destruct (notifsForRecord table uri obj) as [e|notifs];
    simpl; [repeat split; assumption|].
  destruct (on_notifs_frame (process (notifications this) notifs) s1)
    as [G1 [G2 [G3 _]]].
  destruct (on_notifs (process (notifications this) notifs) s1)
    as [r s2]. simpl in *.
  repeat split; congruence.
Qed.

Lemma length_ltb_1 (x : string) :
  (String.length x <? 1)%nat = true <-> x = EmptyString.
Proof. destruct x; simpl; split; intros H; (reflexivity || discriminate H). Qed.

Lemma length_ltb_1_false (x : string) :
  x <> EmptyString -> (String.length x <? 1)%nat = false.
Proof. destruct x; simpl; [intros H; contradiction | reflexivity]. Qed.

(** [indexRecord] on a URI that passes its three checks. *)
Lemma indexRecord_unfold this uri obj (indexedAt receivedAt : string) s :
  Js.startsWith (AdxUri.host uri) "did:" = true ->
  AdxUri.collection uri <> EmptyString ->
  AdxUri.recordKey uri <> EmptyString ->
  indexRecord JSON_stringify this uri obj indexedAt receivedAt s
  = (insertInto_record
       (row_of JSON_stringify uri obj indexedAt receivedAt) ;;
     table <- lift (findTableForCollection this (AdxUri.collection uri)) ;;
     on_typed (insert table uri obj) ;;
     notifs <- lift (notifsForRecord table uri obj) ;;
     on_notifs (process (notifications this) notifs))%store s.
Proof.
  intros Hdid Hcoll Hkey. unfold indexRecord.
  cbn [RecordTbl.did RecordTbl.collection RecordTbl.recordKey].
  rewrite Hdid, (length_ltb_1_false Hcoll), (length_ltb_1_false Hkey).
  reflexivity.
Qed.

(** On a URI that is in the log already, the insertion fails and nothing
    is written. *)
Lemma indexRecord_duplicate this uri obj (indexedAt receivedAt : string) s :
  Js.startsWith (AdxUri.host uri) "did:" = true ->
  AdxUri.collection uri <> EmptyString ->
  AdxUri.recordKey uri <> EmptyString ->
  existsb (fun r => String.eqb (RecordTbl.uri r) (AdxUri.toString uri))
          (record s) = true ->
  indexRecord JSON_stringify this uri obj indexedAt receivedAt s
  = (Js.throw Js.StorageFailure, s).
Proof.
  intros Hdid Hcoll Hkey Hdup.
  rewrite (indexRecord_unfold this uri obj indexedAt receivedAt s
             Hdid Hcoll Hkey).
  unfold bind at 1. unfold insertInto_record. cbn [row_of RecordTbl.uri].
  rewrite Hdup. reflexivity.
Qed.

(** On a URI that is not in the log, the row is written and the rest of
    the call runs on the log with the row. *)
Lemma indexRecord_fresh this uri obj (indexedAt receivedAt : string) s :
  Js.startsWith (AdxUri.host uri) "did:" = true ->
  AdxUri.collection uri <> EmptyString ->
  AdxUri.recordKey uri <> EmptyString ->
  existsb (fun r => String.eqb (RecordTbl.uri r) (AdxUri.toString uri))
          (record s) = false ->
  indexRecord JSON_stringify this uri obj indexedAt receivedAt s
  = (table <- lift (findTableForCollection this (AdxUri.collection uri)) ;;
     on_typed (insert table uri obj) ;;
     notifs <- lift (notifsForRecord table uri obj) ;;
     on_notifs (process (notifications this) notifs))%store
      (set_record
         (fun rows =>
            (rows ++ [row_of JSON_stringify uri obj indexedAt receivedAt])%list)
         s).
Proof.
  intros Hdid Hcoll Hkey Hdup.
  rewrite (indexRecord_unfold this uri obj indexedAt receivedAt s
             Hdid Hcoll Hkey).
  unfold bind at 1. unfold insertInto_record. cbn [row_of RecordTbl.uri].
  rewrite Hdup. reflexivity.
Qed.

(** Every outcome of [indexRecord]: the state is the one before, or the
    URI was not in the log and the log has got the row of the call at its
    end, the tables of the roots and of the users being as before. *)
Lemma indexRecord_outcome this uri obj (indexedAt receivedAt : string) s :
  (exists e,
      indexRecord JSON_stringify this uri obj indexedAt receivedAt s
      = (Js.throw e, s))
  \/ (existsb (fun r => String.eqb (RecordTbl.uri r) (AdxUri.toString uri))
              (record s) = false
      /\ record
           (snd (indexRecord JSON_stringify this uri obj indexedAt
                   receivedAt s))
         = (record s
            ++ [row_of JSON_stringify uri obj indexedAt receivedAt])%list
      /\ repo_root
           (snd (indexRecord JSON_stringify this uri obj indexedAt
                   receivedAt s)) = repo_root s
      /\ user
           (snd (indexRecord JSON_stringify this uri obj indexedAt
                   receivedAt s)) = user s).
Proof.
  destruct (Js.startsWith (AdxUri.host uri) "did:") eqn:Hdid.
  2: { left. unfold indexRecord. cbn [RecordTbl.did]. rewrite Hdid.
       eexists. reflexivity. }
  destruct (String.eqb (AdxUri.collection uri) EmptyString) eqn:Hcoll.
  { left. apply String.eqb_eq in Hcoll. unfold indexRecord.
    cbn [RecordTbl.did RecordTbl.collection]. rewrite Hdid, Hcoll.
    eexists. reflexivity. }
  destruct (String.eqb (AdxUri.recordKey uri) EmptyString) eqn:Hkey.
  { left. apply String.eqb_eq in Hkey. apply String.eqb_neq in Hcoll.
    unfold indexRecord.
    cbn [RecordTbl.did RecordTbl.collection RecordTbl.recordKey].
    rewrite Hdid, (length_ltb_1_false Hcoll), Hkey.
    eexists. reflexivity. }
  apply String.eqb_neq in Hcoll, Hkey.
  destruct (existsb
              (fun r => String.eqb (RecordTbl.uri r) (AdxUri.toString uri))
              (record s)) eqn:Hdup.
  - left. eexists. apply indexRecord_duplicate; assumption.
  - right. split; [reflexivity|].
    rewrite (indexRecord_fresh this uri obj indexedAt receivedAt s
               Hdid Hcoll Hkey Hdup).
    destruct (indexRecord_tail_frame this uri obj
                (set_record
                   (fun rows =>
                      (rows
                       ++ [row_of JSON_stringify uri obj indexedAt
                             receivedAt])%list) s))
      as [H1 [H2 H3]].
    cbv zeta in H1, H2, H3.
    rewrite H1, H2, H3. repeat split.
Qed.

(** X1.  Whatever [indexRecord] returns, it has removed and changed no
    row of the log: the log is the one before, or the one before with
    the row of the call at its end; and it has not written the tables of
    the roots and of the users. *)
Theorem indexRecord_keeps_rows
    (this : Database unknown Typed Notifs Notification) (uri : AdxUri.t)
    (obj : unknown) (indexedAt receivedAt : string) (s : Db Typed Notifs) :
  (record (snd (indexRecord JSON_stringify this uri obj indexedAt
                  receivedAt s)) = record s
   \/ record (snd (indexRecord JSON_stringify this uri obj indexedAt
                     receivedAt s))
      = (record s
         ++ [row_of JSON_stringify uri obj indexedAt receivedAt])%list)
  /\ repo_root (snd (indexRecord JSON_stringify this uri obj indexedAt
                       receivedAt s)) = repo_root s
  /\ user (snd (indexRecord JSON_stringify this uri obj indexedAt
                  receivedAt s)) = user s.
Proof.
  destruct (indexRecord_outcome this uri obj indexedAt receivedAt s)
    as [[e He] | [_ [Hlog [Hroot Huser]]]].
  - rewrite He. simpl. auto.
  - auto.
Qed.

(** X2.  For a URI whose host starts with "did:" and whose collection
    and record key are not empty, so that the three tests at the head of
    [indexRecord] let it through, that is not in the log, and whose
    collection no plugin owns, [indexRecord] throws the error of the
    lookup after it has written the row into the log: the row stays, and
    nothing else is written.  [indexRecord] does not call
    [canIndexRecord]. *)
Theorem indexRecord_unregistered_writes_log
    (this : Database unknown Typed Notifs Notification) (uri : AdxUri.t)
    (obj : unknown) (indexedAt receivedAt : string) (s : Db Typed Notifs) :
  Js.startsWith (AdxUri.host uri) "did:" = true ->
  AdxUri.collection uri <> EmptyString ->
  AdxUri.recordKey uri <> EmptyString ->
  existsb (fun r => String.eqb (RecordTbl.uri r) (AdxUri.toString uri))
          (record s) = false ->
  registered this (AdxUri.collection uri) = false ->
  indexRecord JSON_stringify this uri obj indexedAt receivedAt s
  = (Js.throw NotFound,
     set_record
       (fun rows =>
          (rows ++ [row_of JSON_stringify uri obj indexedAt receivedAt])%list)
       s).
Proof.
  intros Hdid Hcoll Hkey Hfresh Hreg.
  rewrite (indexRecord_fresh this uri obj indexedAt receivedAt s
             Hdid Hcoll Hkey Hfresh).
  unfold bind, lift.
  rewrite (findTableForCollection_unregistered _ _ Hreg). reflexivity.
Qed.

(** A call of [indexRecord] that returns was given a URI that passes the
    three checks, of a collection that a plugin owns. *)
Lemma indexRecord_ok_wellformed this uri obj (indexedAt receivedAt : string)
    s s' :
  indexRecord JSON_stringify this uri obj indexedAt receivedAt s
  = (Js.ok tt, s') ->
  Js.startsWith (AdxUri.host uri) "did:" = true
  /\ AdxUri.collection uri <> EmptyString
  /\ AdxUri.recordKey uri <> EmptyString
  /\ registered this (AdxUri.collection uri) = true.
Proof.
  intros Hok.
  assert (Js.startsWith (AdxUri.host uri) "did:" = true
          /\ AdxUri.collection uri <> EmptyString
          /\ AdxUri.recordKey uri <> EmptyString) as [Hdid [Hcoll Hkey]].
  { unfold indexRecord in Hok.
    cbn [RecordTbl.did RecordTbl.collection RecordTbl.recordKey] in Hok.
    destruct (Js.startsWith (AdxUri.host uri) "did:"); [|discriminate].
    simpl negb in Hok. cbv iota in Hok.
    destruct (String.length (AdxUri.collection uri) <? 1)%nat eqn:H1;
      [discriminate|].
    destruct (String.length (AdxUri.recordKey uri) <? 1)%nat eqn:H2;
      [discriminate|].
    split; [reflexivity|].
    split; intros Heq; rewrite Heq in *; discriminate. }
  repeat (split; [assumption|]).
  destruct (indexRecord_ok_inv _ _ _ _ _ _ _ Hok) as [Hfresh _].
  rewrite (indexRecord_fresh this uri obj indexedAt receivedAt s
             Hdid Hcoll Hkey Hfresh) in Hok.
  unfold bind, lift in Hok.
  destruct (registered this (AdxUri.collection uri)) eqn:Hreg;
    [reflexivity|].
  rewrite (findTableForCollection_unregistered _ _ Hreg) in Hok.
  discriminate.
Qed.

(** X3.  After [indexRecord(uri, obj)] has returned, a second
    [indexRecord] of the same URI, whatever its payload, is rejected by
    the primary key of the log and writes nothing. *)
Theorem indexRecord_twice
    (this : Database unknown Typed Notifs Notification) (uri : AdxUri.t)
    (obj obj' : unknown) (indexedAt receivedAt indexedAt' receivedAt' : string)
    (s s' : Db Typed Notifs) :
  indexRecord JSON_stringify this uri obj indexedAt receivedAt s
  = (Js.ok tt, s') ->
  indexRecord JSON_stringify this uri obj' indexedAt' receivedAt' s'
  = (Js.throw Js.StorageFailure, s').
Proof.
  intros Hok.
  destruct (indexRecord_ok_inv _ _ _ _ _ _ _ Hok) as [_ Hlog].
  destruct (indexRecord_ok_wellformed _ _ _ _ _ _ Hok)
    as [Hdid [Hcoll [Hkey _]]].
  apply indexRecord_duplicate; try assumption.
  rewrite Hlog, existsb_app. simpl. rewrite String.eqb_refl.
  rewrite orb_true_r. reflexivity.
Qed.

(** The log that [deleteRecord] leaves: the log before when no plugin
    owns the collection, and else its rows that are not under the URI. *)
Lemma deleteRecord_log this uri s :
  record (snd (deleteRecord this uri s))
  = if registered this (AdxUri.collection uri)
    then filter (fun r => negb (String.eqb (RecordTbl.uri r)
                                           (AdxUri.toString uri)))
                (record s)
    else record s.
Proof.
  destruct (registered this (AdxUri.collection uri)) eqn:Hreg.
  - destruct (findTableForCollection_registered _ _ Hreg)
      as [table [Htable _]].
    exact (deleteRecord_record this uri s Htable).
  - unfold deleteRecord, bind, lift.
    rewrite (findTableForCollection_unregistered _ _ Hreg). reflexivity.
Qed.

Lemma find_app_miss (A : Type) (f : A -> bool) (l : list A) (a : A) :
  f a = false -> find f (l ++ [a]) = find f l.
Proof.
  intros Ha. induction l as [|x l IH]; simpl.
  - rewrite Ha. reflexivity.
  - destruct (f x); [reflexivity | exact IH].
Qed.

Lemma find_filter_keep (A : Type) (f p : A -> bool) (l : list A) :
  (forall a, f a = true -> p a = true) ->
  find f (filter p l) = find f l.
Proof.
  intros Hfp. induction l as [|x l IH]; simpl; [reflexivity|].
  destruct (p x) eqn:Hp; simpl.
  - destruct (f x); [reflexivity | exact IH].
  - destruct (f x) eqn:Hf; [|exact IH].
    rewrite (Hfp _ Hf) in Hp. discriminate.
Qed.

Lemma filter_all (A : Type) (p : A -> bool) (l : list A) :
  existsb (fun a => negb (p a)) l = false -> filter p l = l.
Proof.
  induction l as [|x l IH]; simpl; [reflexivity|].
  intros H. apply orb_false_iff in H. destruct H as [Hx Hl].
  apply negb_false_iff in Hx. rewrite Hx, (IH Hl). reflexivity.
Qed.

Lemma getRecord_log s1 s2 uri :
  record s1 = record s2 ->
  getRecord JSON_parse s1 uri = getRecord JSON_parse s2 uri.
Proof. unfold getRecord. intros ->. reflexivity. Qed.

(** X4.  [indexRecord] of one URI leaves what [getRecord] returns for
    every URI of another text as it was, whatever the call returns. *)
Theorem indexRecord_other_uri
    (this : Database unknown Typed Notifs Notification) (uri uri' : AdxUri.t)
    (obj : unknown) (indexedAt receivedAt : string) (s : Db Typed Notifs) :
  AdxUri.toString uri' <> AdxUri.toString uri ->
  getRecord JSON_parse
    (snd (indexRecord JSON_stringify this uri obj indexedAt receivedAt s))
    uri'
  = getRecord JSON_parse s uri'.
Proof.
  intros Hneq.
  destruct (indexRecord_outcome this uri obj indexedAt receivedAt s)
    as [[e He] | [_ [Hlog _]]].
  - rewrite He. reflexivity.
  - unfold getRecord. rewrite Hlog, find_app_miss; [reflexivity|].
    simpl. apply String.eqb_neq. congruence.
Qed.

(** X5.  [deleteRecord] of one URI leaves what [getRecord] returns for
    every URI of another text as it was, whatever the call returns. *)
Theorem deleteRecord_other_uri
    (this : Database unknown Typed Notifs Notification) (uri uri' : AdxUri.t)
    (s : Db Typed Notifs) :
  AdxUri.toString uri' <> AdxUri.toString uri ->
  getRecord JSON_parse (snd (deleteRecord this uri s)) uri'
  = getRecord JSON_parse s uri'.
Proof.
  intros Hneq. unfold getRecord. rewrite deleteRecord_log.
  destruct (registered this (AdxUri.collection uri)); [|reflexivity].
  rewrite find_filter_keep; [reflexivity|].
  intros r Hr. apply String.eqb_eq in Hr. apply negb_true_iff.
  apply String.eqb_neq. congruence.
Qed.

(** X6.  For a URI whose collection a plugin owns, [deleteRecord] takes
    the row out of the log also when one of its removals fails and the
    call throws: [getRecord(uri)] returns [null] after every outcome. *)
Theorem deleteRecord_log_row_gone
    (this : Database unknown Typed Notifs Notification) (uri : AdxUri.t)
    (s : Db Typed Notifs) :
  registered this (AdxUri.collection uri) = true ->
  getRecord JSON_parse (snd (deleteRecord this uri s)) uri = Js.ok None.
Proof.
  intros Hreg. unfold getRecord. rewrite deleteRecord_log, Hreg.
  rewrite (find_filter_negb
             (fun r => String.eqb (RecordTbl.uri r) (AdxUri.toString uri))).
  reflexivity.
Qed.

(** X7.  The three removals of [deleteRecord] are not compensated: the
    tables of the plugin and the notifications are left as the plugin's
    [delete] and [deleteForRecord] leave them, whether they fail or not,
    and the call returns exactly when both of them return. *)
Theorem deleteRecord_no_compensation
    (this : Database unknown Typed Notifs Notification) (uri : AdxUri.t)
    (s : Db Typed Notifs) (table : DbRecordPlugin unknown Typed Notification) :
  findTableForCollection this (AdxUri.collection uri) = Js.ok table ->
  typed (snd (deleteRecord this uri s)) = snd (delete table uri (typed s))
  /\ user_notification (snd (deleteRecord this uri s))
     = snd (deleteForRecord (notifications this) uri (user_notification s))
  /\ (fst (deleteRecord this uri s) = Js.ok tt
      <-> fst (delete table uri (typed s)) = Js.ok tt
          /\ fst (deleteForRecord (notifications this) uri
                    (user_notification s)) = Js.ok tt).
Proof.
  intros Htable. unfold deleteRecord, bind, lift. rewrite Htable.
  unfold Js.ok. simpl.
  destruct (on_typed_frame (delete table uri) s)
    as [_ [_ [_ [Hn1 [Ht1 Hr1]]]]].
  destruct (on_typed (delete table uri) s) as [r1 s1]. simpl in *.
  unfold deleteFrom_record.
  destruct (on_notifs_frame (deleteForRecord (notifications this) uri)
              (set_record
                 (filter (fun r => negb (String.eqb (RecordTbl.uri r)
                                                    (AdxUri.toString uri))))
                 s1)) as [_ [_ [_ [Ht3 [Hn3 Hr3]]]]].
  destruct (on_notifs (deleteForRecord (notifications this) uri) _)
    as [r3 s3]. simpl in *.
  rewrite Hn1 in Hn3, Hr3. rewrite Ht3, Ht1, Hn3, <- Hr1, <- Hr3.
  split; [reflexivity|]. split; [reflexivity|].
  destruct r1 as [e1|[]], r3 as [e3|[]]; split;
    try (intros [H1 H2]); try (intros H); try discriminate; auto.
Qed.

(** X8.  [deleteRecord] after an [indexRecord] of the same URI that has
    returned gives the log back as it was before the two calls. *)
Theorem deleteRecord_after_indexRecord
    (this : Database unknown Typed Notifs Notification) (uri : AdxUri.t)
    (obj : unknown) (indexedAt receivedAt : string) (s s' : Db Typed Notifs) :
  indexRecord JSON_stringify this uri obj indexedAt receivedAt s
  = (Js.ok tt, s') ->
  record (snd (deleteRecord this uri s')) = record s.
Proof.
  intros Hok.
  destruct (indexRecord_ok_inv _ _ _ _ _ _ _ Hok) as [Hfresh Hlog].
  destruct (indexRecord_ok_wellformed _ _ _ _ _ _ Hok) as [_ [_ [_ Hreg]]].
  rewrite deleteRecord_log, Hreg, Hlog, filter_app. simpl.
  rewrite String.eqb_refl. simpl. rewrite app_nil_r.
  apply filter_all. rewrite <- Hfresh. clear.
  induction (record s) as [|x l IH]; simpl; [reflexivity|].
  rewrite negb_involutive, IH. reflexivity.
Qed.

(** X9.  [deleteRecord] of a URI that is not in the log leaves the log as
    it is, so a second [deleteRecord] of a URI changes the log no more
    than the first. *)
Theorem deleteRecord_absent
    (this : Database unknown Typed Notifs Notification) (uri : AdxUri.t)
    (s : Db Typed Notifs) :
  (existsb (fun r => String.eqb (RecordTbl.uri r) (AdxUri.toString uri))
           (record s) = false ->
   record (snd (deleteRecord this uri s)) = record s)
  /\ record (snd (deleteRecord this uri (snd (deleteRecord this uri s))))
     = record (snd (deleteRecord this uri s)).
Proof.
  assert (forall s0 : Db Typed Notifs,
             existsb (fun r => String.eqb (RecordTbl.uri r)
                                          (AdxUri.toString uri))
                     (record s0) = false ->
             record (snd (deleteRecord this uri s0)) = record s0) as Habsent.
  { intros s0 Hs0. rewrite deleteRecord_log.
    destruct (registered this (AdxUri.collection uri)); [|reflexivity].
    apply filter_all. rewrite <- Hs0. clear.
    induction (record s0) as [|x l IH]; simpl; [reflexivity|].
    rewrite negb_involutive, IH. reflexivity. }
  split; [apply Habsent|].
  rewrite !deleteRecord_log.
  destruct (registered this (AdxUri.collection uri)); [|reflexivity].
  apply filter_all. clear.
  induction (record s) as [|x l IH]; simpl; [reflexivity|].
  destruct (String.eqb (RecordTbl.uri x) (AdxUri.toString uri)) eqn:Hx;
    simpl; [exact IH|].
  rewrite Hx. simpl. exact IH.
Qed.

(** X10.  [listCollectionsForDid] has one entry for each record: after an
    [indexRecord] that has returned, the list for the host of the URI is
    the list before with the collection of the URI at its end, also when
    the collection was in the list already, and the list for every other
    identity is as before. *)
Theorem listCollectionsForDid_after_indexRecord
    (this : Database unknown Typed Notifs Notification) (uri : AdxUri.t)
    (obj : unknown) (indexedAt receivedAt : string) (s s' : Db Typed Notifs) :
  indexRecord JSON_stringify this uri obj indexedAt receivedAt s
  = (Js.ok tt, s') ->
  listCollectionsForDid s' (AdxUri.host uri)
  = (listCollectionsForDid s (AdxUri.host uri)
     ++ [AdxUri.collection uri])%list
  /\ forall did,
      did <> AdxUri.host uri ->
      listCollectionsForDid s' did = listCollectionsForDid s did.
Proof.
  intros Hok.
  destruct (indexRecord_ok_inv _ _ _ _ _ _ _ Hok) as [_ Hlog].
  unfold listCollectionsForDid. rewrite Hlog. split.
  - rewrite filter_app, map_app. simpl. rewrite String.eqb_refl.
    reflexivity.
  - intros did Hdid. rewrite filter_app, map_app. simpl.
    assert (String.eqb (AdxUri.host uri) did = false) as Hneq
      by (apply String.eqb_neq; congruence).
    rewrite Hneq. simpl. apply app_nil_r.
Qed.

End LogFacts.

(** * More on the listing of records *)

Section ListFacts.

Variable unknown : Type.
Variable JSON_parse : string -> Js.result unknown.
Variable Typed : Type.
Variable Notifs : Type.

Implicit Types (s : Db Typed Notifs).

Lemma map_throwing_length (A B : Type) (f : A -> Js.result B) (l : list A)
    (bs : list B) :
  map_throwing f l = Js.ok bs -> length bs = length l.
Proof.
  revert bs. induction l as [|a l IH]; simpl; intros bs Hl.
  - injection Hl as <-. reflexivity.
  - destruct (f a) as [e|b]; [discriminate|].
    destruct (map_throwing f l) as [e|bs']; [discriminate|].
    injection Hl as <-. simpl. rewrite (IH bs' eq_refl). reflexivity.
Qed.

Lemma map_throwing_In (A B : Type) (f : A -> Js.result B) (l : list A)
    (bs : list B) (b : B) :
  map_throwing f l = Js.ok bs -> In b bs ->
  exists a, In a l /\ f a = Js.ok b.
Proof.
  revert bs. induction l as [|a l IH]; simpl; intros bs Hl Hb.
  - injection Hl as <-. destruct Hb.
  - destruct (f a) as [e|b0] eqn:Ha; [discriminate|].
    destruct (map_throwing f l) as [e|bs'] eqn:Hl'; [discriminate|].
    injection Hl as <-. destruct Hb as [<- | Hb].
    + exists a. auto.
    + destruct (IH bs' eq_refl Hb) as [a' [Hin Hf]]. exists a'. auto.
Qed.


Lemma listed_of_row_ok (r : RecordTbl.row) (e : Listed.t unknown) :
  listed_of_row JSON_parse r = Js.ok e <->
  Listed.uri e = RecordTbl.uri r
  /\ JSON_parse (RecordTbl.raw r) = Js.ok (Listed.value e).
Proof.
  unfold listed_of_row.
  destruct (JSON_parse (RecordTbl.raw r)) as [err|v]; split.
  - discriminate.
  - intros [_ H]. discriminate.
  - intros H. injection H as <-. simpl. auto.
  - intros [Huri Hv]. injection Hv as ->. destruct e. simpl in *.
    subst. reflexivity.
Qed.

(** X11.  For a limit that is a count of rows, 0, 1, 2 and so on,
    [listRecordsForCollection] returns at most [limit] entries: as many
    as the limit, or all the rows that pass the [WHERE] clause when they
    are fewer; with limit 0 it returns the empty list, whatever the log
    holds.  Limits that are no counts are not covered. *)
Theorem listRecordsForCollection_limit
    (s : Db Typed Notifs) (did coll : string) (limit : nat) (reverse : bool)
    (before after : option string) :
  (forall l,
      listRecordsForCollection JSON_parse s did coll limit reverse
        before after = Js.ok l ->
      length l
      = Nat.min limit
          (length (filter (where_listRecords did coll before after)
                          (record s))))
  /\ listRecordsForCollection JSON_parse s did coll 0 reverse before after
     = Js.ok [].
Proof.
  split.
  - intros l Hl. unfold listRecordsForCollection in Hl.
    rewrite (map_throwing_length _ _ Hl). unfold select_listRecords.
    rewrite length_firstn.
    rewrite <- (Permutation_length (orderBy_recordKey_perm reverse _)).
    reflexivity.
  - reflexivity.
Qed.

(** X12.  Every entry that [listRecordsForCollection] returns is a record
    of the log of the identity and of the collection asked for, within
    the bounds, under its URI and with its stored payload decoded. *)
Theorem listRecordsForCollection_sound
    (s : Db Typed Notifs) (did coll : string) (limit : nat) (reverse : bool)
    (before after : option string) (l : list (Listed.t unknown))
    (e : Listed.t unknown) :
  listRecordsForCollection JSON_parse s did coll limit reverse before after
  = Js.ok l ->
  In e l ->
  exists r,
    In r (record s)
    /\ RecordTbl.did r = did
    /\ RecordTbl.collection r = coll
    /\ within before after r = true
    /\ Listed.uri e = RecordTbl.uri r
    /\ JSON_parse (RecordTbl.raw r) = Js.ok (Listed.value e).
Proof.
  intros Hl He. unfold listRecordsForCollection in Hl.
  destruct (map_throwing_In _ _ e Hl He) as [r [Hr Hre]].
  apply listed_of_row_ok in Hre. destruct Hre as [Huri Hraw].
  apply select_listRecords_In in Hr. destruct Hr as [Hin Hwhere].
  unfold where_listRecords, owned_by in Hwhere.
  apply andb_true_iff in Hwhere. destruct Hwhere as [Hown Hwithin].
  apply andb_true_iff in Hown. destruct Hown as [Hdid Hcoll].
  apply String.eqb_eq in Hdid, Hcoll.
  exists r. repeat split; assumption.
Qed.


Lemma StronglySorted_firstn (A : Type) (R : A -> A -> Prop) (n : nat)
    (l : list A) :
  StronglySorted R l -> StronglySorted R (firstn n l).
Proof.
  revert l. induction n as [|n IH]; intros l Hl; [constructor|].
  destruct l as [|x l]; [constructor|].
  apply StronglySorted_inv in Hl. destruct Hl as [Hl Hx]. simpl.
  constructor; [exact (IH l Hl)|].
  rewrite Forall_forall in *. intros y Hy. apply Hx.
  exact (In_firstn _ _ _ Hy).
Qed.

(** X14.  The rows that [listRecordsForCollection] selects stand in the
    order asked for, also when keys repeat: forward, no row has a key
    strictly below the key of a row before it; in reverse, none has a key
    strictly above. *)
Theorem select_listRecords_ordered
    (s : Db Typed Notifs) (did coll : string) (limit : nat) (reverse : bool)
    (before after : option string) :
  StronglySorted
    (fun a b =>
       if reverse
       then key_lt (RecordTbl.recordKey a) (RecordTbl.recordKey b) = false
       else key_lt (RecordTbl.recordKey b) (RecordTbl.recordKey a) = false)
    (select_listRecords s did coll limit reverse before after).
Proof.
  unfold select_listRecords. apply StronglySorted_firstn.
  pose proof (orderBy_recordKey_ordered reverse
                (filter (where_listRecords did coll before after)
                        (record s))) as H.
  unfold ordered, precedes in H. destruct reverse; exact H.
Qed.

Lemma StronglySorted_app_inv (A : Type) (R : A -> A -> Prop)
    (l1 l2 : list A) :
  StronglySorted R (l1 ++ l2) ->
  StronglySorted R l1 /\ StronglySorted R l2
  /\ forall a b, In a l1 -> In b l2 -> R a b.
Proof.
  induction l1 as [|x l1 IH]; simpl; intros H.
  - split; [constructor|]. split; [exact H|]. intros a b [].
  - apply StronglySorted_inv in H. destruct H as [H Hx].
    destruct (IH H) as [H1 [H2 H12]].
    apply Forall_app in Hx. destruct Hx as [Hx1 Hx2].
    split; [constructor; assumption|]. split; [exact H2|].
    intros a b [<- | Ha] Hb.
    + rewrite Forall_forall in Hx2. exact (Hx2 b Hb).
    + exact (H12 a b Ha Hb).
Qed.

Lemma filter_keeps_all (A : Type) (p : A -> bool) (l : list A) :
  (forall a, In a l -> p a = true) -> filter p l = l.
Proof.
  induction l as [|x l IH]; simpl; intros H; [reflexivity|].
  rewrite (H x (or_introl eq_refl)), IH; [reflexivity|].
  intros a Ha. apply H. right. exact Ha.
Qed.

Lemma filter_keeps_none (A : Type) (p : A -> bool) (l : list A) :
  (forall a, In a l -> p a = false) -> filter p l = [].
Proof.
  induction l as [|x l IH]; simpl; intros H; [reflexivity|].
  rewrite (H x (or_introl eq_refl)). apply IH.
  intros a Ha. apply H. right. exact Ha.
Qed.

Lemma key_lt_irrefl (a : string) : key_lt a a = false.
Proof.
  destruct (key_lt a a) eqn:H; [|reflexivity].
  rewrite (key_lt_asym _ _ H) in H. discriminate.
Qed.

(** The rows on the two sides of a row of an ascending list are the rows
    above its key and the rows below it. *)
Lemma within_split (page rest : list RecordTbl.row) (last : RecordTbl.row) :
  StronglySorted key_asc (page ++ last :: rest) ->
  filter (within None (Some (RecordTbl.recordKey last)))
         (page ++ last :: rest) = rest
  /\ filter (within (Some (RecordTbl.recordKey last)) None)
            (page ++ last :: rest) = page.
Proof.
  intros Hsorted.
  destruct (StronglySorted_app_inv _ _ Hsorted) as [_ [Hlr Hpl]].
  apply StronglySorted_inv in Hlr. destruct Hlr as [_ Hrest].
  rewrite Forall_forall in Hrest. unfold key_asc in *.
  assert (forall a, In a page ->
                    key_lt (RecordTbl.recordKey a) (RecordTbl.recordKey last)
                    = true) as Hpage
    by (intros a Ha; apply (Hpl a last Ha); left; reflexivity).
  assert (within None (Some (RecordTbl.recordKey last)) last = false) as Ha
    by (unfold within; simpl; apply key_lt_irrefl).
  assert (within (Some (RecordTbl.recordKey last)) None last = false) as Hb
    by (unfold within; rewrite key_lt_irrefl; reflexivity).
  rewrite !filter_app. simpl. rewrite Ha, Hb. split.
  - rewrite filter_keeps_none, filter_keeps_all; [reflexivity| |].
    + intros a Hin. unfold within. simpl. exact (Hrest a Hin).
    + intros a Hin. unfold within. simpl.
      apply key_lt_asym. exact (Hpage a Hin).
  - rewrite filter_keeps_all, filter_keeps_none; [apply app_nil_r| |].
    + intros a Hin. unfold within. rewrite andb_true_r.
      apply key_lt_asym. exact (Hrest a Hin).
    + intros a Hin. unfold within. rewrite andb_true_r.
      exact (Hpage a Hin).
Qed.

(** X15.  The record key is a cursor.  Let the rows of one collection of
    one identity be, in ascending order of their keys, the rows [page],
    then the row [last], then the rows [rest].  Forward with the key of
    [last] as [after], [listRecordsForCollection] selects the first
    [limit] rows of [rest]; in reverse with that key as [before], it
    selects the first [limit] rows of [page] taken backwards.  No row is
    selected twice and none is skipped from one page to the next. *)
Theorem listRecordsForCollection_cursor
    (s : Db Typed Notifs) (did coll : string)
    (page rest : list RecordTbl.row) (last : RecordTbl.row) (limit : nat) :
  Permutation (filter (owned_by did coll) (record s))
              (page ++ last :: rest) ->
  StronglySorted key_asc (page ++ last :: rest) ->
  select_listRecords s did coll limit false None
    (Some (RecordTbl.recordKey last))
  = firstn limit rest
  /\ select_listRecords s did coll limit true
       (Some (RecordTbl.recordKey last)) None
     = firstn limit (rev page)
  /\ listRecordsForCollection JSON_parse s did coll limit false None
       (Some (RecordTbl.recordKey last))
     = map_throwing (listed_of_row JSON_parse) (firstn limit rest)
  /\ listRecordsForCollection JSON_parse s did coll limit true
       (Some (RecordTbl.recordKey last)) None
     = map_throwing (listed_of_row JSON_parse) (firstn limit (rev page)).
Proof.
  intros Hperm Hsorted.
  destruct (within_split _ _ _ Hsorted) as [Hafter Hbefore].
  assert (select_listRecords s did coll limit false None
            (Some (RecordTbl.recordKey last)) = firstn limit rest) as H1.
  { rewrite (select_listRecords_sorted s did coll limit false _ _
               Hperm Hsorted).
    simpl. rewrite Hafter. reflexivity. }
  assert (select_listRecords s did coll limit true
            (Some (RecordTbl.recordKey last)) None
          = firstn limit (rev page)) as H2.
  { rewrite (select_listRecords_sorted s did coll limit true _ _
               Hperm Hsorted).
    simpl. rewrite Hbefore. reflexivity. }
  unfold listRecordsForCollection. rewrite H1, H2. repeat split.
Qed.

End ListFacts.

(** * More on roots and users *)

Section AccountFacts.

Variable CID : Type.
Variable CID_toString : CID -> string.
Variable CID_parse : string -> Js.result CID.
Variable scrypt_verify : string -> string -> bool.
Variable toUpperCase : string -> string.
Variable UPPER : string -> string.
Variable user_accepts : list UserTbl.row -> UserTbl.row -> bool.
Variable Typed : Type.
Variable Notifs : Type.

Implicit Types (s : Db Typed Notifs).

(** X16.  [updateRepoRoot] for one identity leaves the root that
    [getRepoRoot] returns for every other identity as it was, adds no row
    and removes none, and writes neither the log nor the users. *)
Theorem updateRepoRoot_other_identities
    (s : Db Typed Notifs) (did : string) (root : CID) :
  (forall did',
      did' <> did ->
      getRepoRoot CID_parse (snd (updateRepoRoot CID_toString did root s)) did'
      = getRepoRoot CID_parse s did')
  /\ (forall did',
        has_repo_root (snd (updateRepoRoot CID_toString did root s)) did'
        = has_repo_root s did')
  /\ length (repo_root (snd (updateRepoRoot CID_toString did root s)))
     = length (repo_root s)
  /\ record (snd (updateRepoRoot CID_toString did root s)) = record s
  /\ user (snd (updateRepoRoot CID_toString did root s)) = user s.
Proof.
  assert (forall did' (a : RepoRootTbl.row),
             String.eqb
               (RepoRootTbl.did
                  (if String.eqb (RepoRootTbl.did a) did
                   then {| RepoRootTbl.did := RepoRootTbl.did a;
                           RepoRootTbl.root := CID_toString root |}
                   else a)) did'
             = String.eqb (RepoRootTbl.did a) did') as Hkey
    by (intros did' a; destruct (String.eqb (RepoRootTbl.did a) did);
        reflexivity).
  split; [|split; [|split; [|split]]]; try reflexivity.
  - intros did' Hneq. unfold getRepoRoot, updateRepoRoot. simpl.
    rewrite (find_map_same_key
               (fun r => String.eqb (RepoRootTbl.did r) did') _ _ (Hkey did')).
    destruct (find _ (repo_root s)) as [found|] eqn:Hfind; [|reflexivity].
    apply find_some in Hfind. destruct Hfind as [_ Hdid].
    apply String.eqb_eq in Hdid. simpl.
    assert (String.eqb (RepoRootTbl.did found) did = false) as Hother
      by (apply String.eqb_neq; congruence).
    rewrite Hother. reflexivity.
  - intros did'. unfold has_repo_root, updateRepoRoot. simpl.
    rewrite !find_existsb.
    rewrite (find_map_same_key
               (fun r => String.eqb (RepoRootTbl.did r) did') _ _ (Hkey did')).
    destruct (find _ (repo_root s)); reflexivity.
  - unfold updateRepoRoot. simpl. apply length_map.
Qed.

(** X17.  The last writer wins: two calls of [updateRepoRoot] for one
    identity leave the database as the second call alone does. *)
Theorem updateRepoRoot_last_writer_wins
    (s : Db Typed Notifs) (did : string) (root1 root2 : CID) :
  snd (updateRepoRoot CID_toString did root2
         (snd (updateRepoRoot CID_toString did root1 s)))
  = snd (updateRepoRoot CID_toString did root2 s).
Proof.
  unfold updateRepoRoot, set_repo_root. simpl. f_equal.
  rewrite map_map. apply map_ext. intros a.
  destruct (String.eqb (RepoRootTbl.did a) did) eqn:Ha; simpl; rewrite Ha;
    reflexivity.
Qed.

(** *** Names of users *)

(** X18.  The lookups by name see the given string through the
    runtime's [toUpperCase] only: two names that do not start with "did:"
    and that [toUpperCase] folds to one string get the same answer from
    [getUser], and two addresses that it folds to one string the same
    answer from [getUserByEmail].  The user that [getUser] returns is a
    stored user: the one of that identity for a name that starts with
    "did:", and else one whose name as the engine's [UPPER] folds it is
    the given name as [toUpperCase] folds it.  For a name that does not
    start with "did:", [getUser] returns [null] exactly when no stored
    user has such a name, whether or not a stored user has exactly the
    given name. *)
Theorem getUser_case_insensitive (s : Db Typed Notifs) (name : string) :
  (forall name',
      Js.startsWith name "did:" = false ->
      Js.startsWith name' "did:" = false ->
      toUpperCase name' = toUpperCase name ->
      getUser toUpperCase UPPER s name' = getUser toUpperCase UPPER s name)
  /\ (forall email',
        toUpperCase email' = toUpperCase name ->
        getUserByEmail toUpperCase UPPER s email'
        = getUserByEmail toUpperCase UPPER s name)
  /\ (forall u,
        getUser toUpperCase UPPER s name = Some u ->
        In u (user s)
        /\ (if Js.startsWith name "did:"
            then UserTbl.did u = name
            else UPPER (UserTbl.username u) = toUpperCase name))
  /\ (Js.startsWith name "did:" = false ->
      (getUser toUpperCase UPPER s name = None
       <-> forall u, In u (user s) ->
                     UPPER (UserTbl.username u) <> toUpperCase name)).
Proof.
  split; [|split; [|split]].
  - intros name' Hname Hname' Hfold. unfold getUser.
    rewrite Hname, Hname', Hfold. reflexivity.
  - intros email' Hfold. unfold getUserByEmail. rewrite Hfold. reflexivity.
  - intros u Hu. unfold getUser in Hu.
    destruct (Js.startsWith name "did:"); apply find_some in Hu;
      destruct Hu as [Hin Heq]; apply String.eqb_eq in Heq; auto.
  - intros Hname. unfold getUser. rewrite Hname. split.
    + intros Hnone u Hu. apply String.eqb_neq.
      exact (find_none _ _ Hnone u Hu).
    + intros Hnone.
      destruct (find _ (user s)) as [found|] eqn:Hfind; [|reflexivity].
      apply find_some in Hfind. destruct Hfind as [Hfin Hfeq].
      apply String.eqb_eq in Hfeq. exfalso. exact (Hnone _ Hfin Hfeq).
Qed.

(** X19.  [getUserDid] agrees with [getUser] whenever [getUser] finds a
    user, and returns [null] only when [getUser] does; but a string that
    starts with "did:" comes back as it is, without a lookup, also when
    no user has that identity and [getUser] returns [null]. *)
Theorem getUserDid_getUser (s : Db Typed Notifs) (name : string) :
  (forall u, getUser toUpperCase UPPER s name = Some u ->
             getUserDid toUpperCase UPPER s name = Some (UserTbl.did u))
  /\ (getUserDid toUpperCase UPPER s name = None ->
      getUser toUpperCase UPPER s name = None)
  /\ (Js.startsWith name "did:" = true ->
      getUserDid toUpperCase UPPER s name = Some name)
  /\ (Js.startsWith name "did:" = false ->
      getUserDid toUpperCase UPPER s name
      = option_map UserTbl.did (getUser toUpperCase UPPER s name)).
Proof.
  unfold getUserDid. split; [|split; [|split]].
  - intros u Hu. destruct (Js.startsWith name "did:") eqn:Hdid.
    + unfold getUser in Hu. rewrite Hdid in Hu. apply find_some in Hu.
      destruct Hu as [_ Heq]. apply String.eqb_eq in Heq.
      rewrite Heq. reflexivity.
    + rewrite Hu. reflexivity.
  - destruct (Js.startsWith name "did:"); [discriminate|].
    destruct (getUser toUpperCase UPPER s name); [discriminate | reflexivity].
  - intros ->. reflexivity.
  - intros ->. destruct (getUser toUpperCase UPPER s name); reflexivity.
Qed.

(** *** Registration and passwords *)

Lemma find_app_found (A : Type) (f : A -> bool) (l l' : list A) (a : A) :
  find f l = Some a -> find f (l ++ l') = Some a.
Proof.
  induction l as [|x l IH]; simpl; [discriminate|].
  destruct (f x); [auto | exact IH].
Qed.

Lemma find_none_iff (A : Type) (f : A -> bool) (l : list A) :
  (forall a, In a l -> f a = false) -> find f l = None.
Proof.
  induction l as [|x l IH]; simpl; intros H; [reflexivity|].
  rewrite (H x (or_introl eq_refl)). apply IH.
  intros a Ha. apply H. right. exact Ha.
Qed.

(** The row that [registerUser] builds. *)
Lemma registerUser_outcome (email username did password : string)
    (hashed createdAt lastSeenNotifs : string) s :
  registerUser user_accepts email username did password hashed createdAt
    lastSeenNotifs s
  = (Js.throw Js.StorageFailure, s)
  \/ registerUser user_accepts email username did password hashed createdAt
       lastSeenNotifs s
     = (Js.ok tt,
        set_user
          (fun rows =>
             (rows
              ++ [{| UserTbl.email := email;
                     UserTbl.username := username;
                     UserTbl.did := did;
                     UserTbl.password := hashed;
                     UserTbl.createdAt := createdAt;
                     UserTbl.lastSeenNotifs := lastSeenNotifs |}])%list) s).
Proof.
  unfold registerUser, insertInto_user.
  destruct (user_accepts (user s) _); auto.
Qed.

(** X20.  After [registerUser] has returned, the table of the users is
    the one before with the new user at its end; when no user had the
    name, [verifyUserPassword] under the name returns the new identity
    for every password that verifies against the stored hash and [null]
    for every other.  When the name does not start with "did:" and no
    user had a name that [getUser] takes for it, [getUser] finds the new
    user under the name if the engine's [UPPER] and the runtime's
    [toUpperCase] fold the name to one string, and returns [null] under
    the user's own name if they do not. *)
Theorem registerUser_then_lookup
    (email username did password hashed createdAt lastSeenNotifs : string)
    (s s' : Db Typed Notifs) :
  registerUser user_accepts email username did password hashed createdAt
    lastSeenNotifs s = (Js.ok tt, s') ->
  let registered_user :=
    {| UserTbl.email := email;
       UserTbl.username := username;
       UserTbl.did := did;
       UserTbl.password := hashed;
       UserTbl.createdAt := createdAt;
       UserTbl.lastSeenNotifs := lastSeenNotifs |} in
  user s' = (user s ++ [registered_user])%list
  /\ record s' = record s
  /\ repo_root s' = repo_root s
  /\ ((forall u, In u (user s) -> UserTbl.username u <> username) ->
      forall attempt,
        verifyUserPassword scrypt_verify s' username attempt
        = if scrypt_verify attempt hashed then Some did else None)
  /\ (Js.startsWith username "did:" = false ->
      (forall u, In u (user s) ->
                 UPPER (UserTbl.username u) <> toUpperCase username) ->
      (UPPER username = toUpperCase username ->
       getUser toUpperCase UPPER s' username = Some registered_user)
      /\ (UPPER username <> toUpperCase username ->
          getUser toUpperCase UPPER s' username = None)).
Proof.
  intros Hok registered_user.
  destruct (registerUser_outcome email username did password hashed
              createdAt lastSeenNotifs s) as [H | H];
    rewrite H in Hok; [discriminate|].
  injection Hok as <-. fold registered_user. simpl.
  split; [reflexivity|]. split; [reflexivity|]. split; [reflexivity|].
  split.
  - intros Hnew attempt. unfold verifyUserPassword. simpl.
    rewrite find_app_last.
    + simpl. destruct (scrypt_verify attempt hashed); reflexivity.
    + rewrite find_existsb, find_none_iff; [reflexivity|].
      intros u Hu. apply String.eqb_neq. exact (Hnew u Hu).
    + simpl. apply String.eqb_refl.
  - intros Hdid Hnew. unfold getUser. rewrite Hdid. simpl. split.
    + intros Hfold. apply find_app_last.
      * rewrite find_existsb, find_none_iff; [reflexivity|].
        intros u Hu. apply String.eqb_neq. exact (Hnew u Hu).
      * simpl. apply String.eqb_eq. exact Hfold.
    + intros Hfold. apply find_none_iff. intros u Hu.
      apply String.eqb_neq. apply in_app_or in Hu.
      destruct Hu as [Hu | [<- | []]]; [exact (Hnew u Hu) | exact Hfold].
Qed.

(** X21.  [registerUser] changes no answer that a user gave already:
    whatever it returns, a name that [getUser] resolved resolves to the
    same user, and a name that a user had gives with every password what
    [verifyUserPassword] gave before; when it throws, the database is as
    before. *)
Theorem registerUser_keeps_users
    (email username did password hashed createdAt lastSeenNotifs : string)
    (s : Db Typed Notifs) :
  let s' :=
    snd (registerUser user_accepts email username did password hashed
           createdAt lastSeenNotifs s) in
  (forall name u,
      getUser toUpperCase UPPER s name = Some u ->
      getUser toUpperCase UPPER s' name = Some u)
  /\ (forall name attempt u,
        In u (user s) -> UserTbl.username u = name ->
        verifyUserPassword scrypt_verify s' name attempt
        = verifyUserPassword scrypt_verify s name attempt)
  /\ (fst (registerUser user_accepts email username did password hashed
             createdAt lastSeenNotifs s) <> Js.ok tt ->
      s' = s).
Proof.
  intros s'. subst s'.
  destruct (registerUser_outcome email username did password hashed
              createdAt lastSeenNotifs s) as [H | H]; rewrite H; simpl.
  - split; [auto|]. split; [auto|]. reflexivity.
  - split; [|split].
    + intros name u. unfold getUser. simpl.
      destruct (Js.startsWith name "did:"); apply find_app_found.
    + intros name attempt u Hin Hname. unfold verifyUserPassword. simpl.
      destruct (find_In_some
                  (fun u0 => String.eqb (UserTbl.username u0) name)
                  _ _ Hin) as [found Hfound].
      { apply String.eqb_eq. exact Hname. }
      rewrite (find_app_found _ _ _ Hfound), Hfound. reflexivity.
    + intros Habs. exfalso. apply Habs. reflexivity.
Qed.

Lemma update_password_did (did hashed : string) (u : UserTbl.row) :
  UserTbl.did
    (if String.eqb (UserTbl.did u) did then set_password hashed u else u)
  = UserTbl.did u
  /\ UserTbl.username
       (if String.eqb (UserTbl.did u) did then set_password hashed u else u)
     = UserTbl.username u.
Proof. destruct (String.eqb (UserTbl.did u) did); split; reflexivity. Qed.

(** X22.  After [updateUserPassword] for the identity of a stored user
    whose name is that user's alone, [verifyUserPassword] under the name
    returns the identity for exactly the passwords that verify against
    the new hash: the old hash counts no more. *)
Theorem updateUserPassword_then_verify
    (s : Db Typed Notifs) (u : UserTbl.row) (password hashed : string) :
  In u (user s) ->
  (forall u', In u' (user s) ->
              UserTbl.username u' = UserTbl.username u -> u' = u) ->
  forall attempt,
    verifyUserPassword scrypt_verify
      (snd (updateUserPassword (UserTbl.did u) password hashed s))
      (UserTbl.username u) attempt
    = if scrypt_verify attempt hashed then Some (UserTbl.did u) else None.
Proof.
  intros Hin Huniq attempt. unfold verifyUserPassword, updateUserPassword.
  simpl.
  rewrite (find_map_same_key
             (fun u0 => String.eqb (UserTbl.username u0) (UserTbl.username u))).
  2: { intros a. destruct (update_password_did (UserTbl.did u) hashed a)
         as [_ Hname]. rewrite Hname. reflexivity. }
  destruct (find_In_some
              (fun u0 => String.eqb (UserTbl.username u0) (UserTbl.username u))
              _ _ Hin (String.eqb_refl _)) as [found Hfound].
  rewrite Hfound. apply find_some in Hfound. destruct Hfound as [Hfin Hfeq].
  apply String.eqb_eq in Hfeq. rewrite (Huniq _ Hfin Hfeq). simpl.
  rewrite String.eqb_refl. simpl.
  destruct (scrypt_verify attempt hashed); reflexivity.
Qed.

(** X23.  [updateUserPassword] changes passwords only, and only of the
    identity given: every name resolves with [getUser] to the user it
    resolved to, with the new hash when the user has that identity;
    under a name that no user of that identity has, [verifyUserPassword]
    returns what it returned; and for an identity that no user has, the
    database is left as it was. *)
Theorem updateUserPassword_other_users
    (s : Db Typed Notifs) (did password hashed : string) :
  let s' := snd (updateUserPassword did password hashed s) in
  (forall name,
      getUser toUpperCase UPPER s' name
      = option_map
          (fun u => if String.eqb (UserTbl.did u) did
                    then set_password hashed u else u)
          (getUser toUpperCase UPPER s name))
  /\ (forall name attempt,
        (forall u, In u (user s) -> UserTbl.username u = name ->
                   UserTbl.did u <> did) ->
        verifyUserPassword scrypt_verify s' name attempt
        = verifyUserPassword scrypt_verify s name attempt)
  /\ ((forall u, In u (user s) -> UserTbl.did u <> did) -> s' = s)
  /\ record s' = record s
  /\ repo_root s' = repo_root s.
Proof.
  intros s'. subst s'. unfold updateUserPassword. simpl.
  split; [|split; [|split; [|split]]]; try reflexivity.
  - intros name. unfold getUser. simpl.
    destruct (Js.startsWith name "did:"); apply find_map_same_key;
      intros a; destruct (update_password_did did hashed a) as [Hd Hn];
      rewrite ?Hd, ?Hn; reflexivity.
  - intros name attempt Hother. unfold verifyUserPassword. simpl.
    rewrite (find_map_same_key
               (fun u0 => String.eqb (UserTbl.username u0) name)).
    2: { intros a. destruct (update_password_did did hashed a) as [_ Hn].
         rewrite Hn. reflexivity. }
    destruct (find _ (user s)) as [found|] eqn:Hfind; [|reflexivity].
    apply find_some in Hfind. destruct Hfind as [Hfin Hfeq].
    apply String.eqb_eq in Hfeq. simpl.
    assert (String.eqb (UserTbl.did found) did = false) as Hneq
      by (apply String.eqb_neq; exact (Hother _ Hfin Hfeq)).
    rewrite Hneq. reflexivity.
  - intros Hnone. unfold set_user. destruct s as [rec roots users ty nt].
    simpl in *. f_equal. rewrite <- (map_id users) at 2.
    apply map_ext_in. intros a Ha.
    assert (String.eqb (UserTbl.did a) did = false) as Hneq
      by (apply String.eqb_neq; exact (Hnone _ Ha)).
    rewrite Hneq. reflexivity.
Qed.

End AccountFacts.

(** * More on the feed projector *)

Section MoreFeedFacts.

Variable unknown : Type.
Variable JSON_parse : string -> Js.result unknown.

(** X24.  For a row of type "post" the originator fields do not show in
    the item: two such rows that differ in them only are projected to
    the same item, or fail alike. *)
Theorem rowToFeedItem_post_ignores_originator
    (row : FeedRow.t) (did name : string) (displayName : Js.nullable string) :
  FeedRow.type row = FeedRow.post ->
  rowToFeedItem JSON_parse
    {| FeedRow.type := FeedRow.type row;
       FeedRow.postUri := FeedRow.postUri row;
       FeedRow.cursor := FeedRow.cursor row;
       FeedRow.recordRaw := FeedRow.recordRaw row;
       FeedRow.indexedAt := FeedRow.indexedAt row;
       FeedRow.authorDid := FeedRow.authorDid row;
       FeedRow.authorName := FeedRow.authorName row;
       FeedRow.authorDisplayName := FeedRow.authorDisplayName row;
       FeedRow.originatorDid := did;
       FeedRow.originatorName := name;
       FeedRow.originatorDisplayName := displayName;
       FeedRow.likeCount := FeedRow.likeCount row;
       FeedRow.repostCount := FeedRow.repostCount row;
       FeedRow.replyCount := FeedRow.replyCount row;
       FeedRow.requesterRepost := FeedRow.requesterRepost row;
       FeedRow.requesterLike := FeedRow.requesterLike row |}
  = rowToFeedItem JSON_parse row.
Proof.
  intros Hpost. unfold rowToFeedItem. simpl. rewrite Hpost. reflexivity.
Qed.

End MoreFeedFacts.

(** * Opening a database *)

Section BackendFacts.

Lemma all_letters_or_underscores_In (name : string) :
  all_letters_or_underscores name = true <->
  forall c, In c (list_ascii_of_string name) ->
            is_letter_or_underscore c = true.
Proof.
  induction name as [|c name IH]; simpl.
  - split; [intros _ c [] | reflexivity].
  - rewrite andb_true_iff, IH. split.
    + intros [Hc Hname] c' [<- | Hin]; auto.
    + intros H. split; [apply H; left; reflexivity|].
      intros c' Hin. apply H. right. exact Hin.
Qed.

Lemma is_letter_or_underscore_code (ch : ascii) :
  is_letter_or_underscore ch = true <->
  (65 <= nat_of_ascii ch <= 90 \/ 97 <= nat_of_ascii ch <= 122
   \/ nat_of_ascii ch = 95)%nat.
Proof.
  unfold is_letter_or_underscore. cbv zeta.
  rewrite !orb_true_iff, !andb_true_iff, !Nat.leb_le, Nat.eqb_eq.
  tauto.
Qed.

(** X25.  [Database.postgres] lets a schema through exactly when it is
    not empty and made of the letters [A]-[Z] and [a]-[z] and of
    underscores only: then it returns the database on that schema, with
    the statement [SET search_path TO] for each new connection, and
    otherwise it throws.  A schema that it lets through holds no double
    quote, so it cannot end its quotation in that statement.  Without a
    schema it returns the database with no statement to run. *)
Theorem postgres_schema (url name : string) :
  let letters_and_underscores :=
    name <> EmptyString
    /\ forall ch, In ch (list_ascii_of_string name) ->
                  (65 <= nat_of_ascii ch <= 90
                   \/ 97 <= nat_of_ascii ch <= 122
                   \/ nat_of_ascii ch = 95)%nat in
  (letters_and_underscores ->
   postgres url (Some name)
   = Js.ok {| dialect := Dialect.pg; schema := Some name; target := url;
              on_connect := Some (search_path_statement name) |})
  /\ (~ letters_and_underscores ->
      postgres url (Some name)
      = Js.throw
          (Js.Error ("Postgres schema must only contain [A-Za-z_]: " ++ name)))
  /\ (forall c,
        postgres url (Some name) = Js.ok c ->
        letters_and_underscores
        /\ ~ In "034"%char (list_ascii_of_string name))
  /\ postgres url None
     = Js.ok {| dialect := Dialect.pg; schema := None; target := url;
                on_connect := None |}.
Proof.
  intros letters_and_underscores.
  assert (schema_regexp_test name = true <-> letters_and_underscores)
    as Htest.
  { unfold letters_and_underscores. split.
    - intros Htest.
      assert (all_letters_or_underscores name = true /\ name <> EmptyString)
        as [Hall Hne]
        by (destruct name;
            [discriminate | split; [exact Htest | discriminate]]).
      rewrite all_letters_or_underscores_In in Hall.
      split; [exact Hne|]. intros ch Hin.
      apply is_letter_or_underscore_code. exact (Hall ch Hin).
    - intros [Hne Hall].
      assert (all_letters_or_underscores name = true) as Hall'.
      { apply all_letters_or_underscores_In. intros ch Hin.
        apply is_letter_or_underscore_code. exact (Hall ch Hin). }
      destruct name; [contradiction | exact Hall']. }
  unfold postgres.
  split; [|split; [|split; [|reflexivity]]].
  - intros Hgood. apply Htest in Hgood. rewrite Hgood. reflexivity.
  - intros Hbad. destruct (schema_regexp_test name) eqn:Hname;
      [|reflexivity].
    exfalso. apply Hbad, Htest. reflexivity.
  - intros c Hc. destruct (schema_regexp_test name) eqn:Hname;
      simpl in Hc; [|discriminate].
    assert (letters_and_underscores) as Hgood by (apply Htest; reflexivity).
    split; [exact Hgood|].
    intros Hq. destruct Hgood as [_ Hall]. apply Hall in Hq.
    change (nat_of_ascii "034") with 34%nat in Hq. lia.
Qed.

End BackendFacts.

(** * The properties on the instance *)

Section Examples.

(** On ASCII strings the two foldings of the instance are the folding of
    the letters [a]-[z]. *)
Lemma Demo_UPPER_ascii (x : string) :
  Js.is_ascii x = true -> Demo.UPPER x = Js.fold_ascii x.
Proof. reflexivity. Qed.

Lemma Demo_toUpperCase_cons (c d : ascii) (x : string) :
  Demo.toUpperCase (String c (String d x))
  = if (nat_of_ascii c =? 195)%nat
    then Demo.upper_latin1 d (Demo.toUpperCase x)
    else if ((nat_of_ascii c =? 194) && (nat_of_ascii d =? 181))%nat
         then String "206" (String "156" (Demo.toUpperCase x))
         else String (Js.upper_ascii c) (Demo.toUpperCase (String d x)).
Proof. reflexivity. Qed.

Lemma Demo_toUpperCase_ascii (x : string) :
  Js.is_ascii x = true -> Demo.toUpperCase x = Js.fold_ascii x.
Proof.
  induction x as [|c x IH]; [reflexivity|].
  intros Hascii. apply andb_prop in Hascii. destruct Hascii as [Hc Hx].
  apply Nat.ltb_lt in Hc.
  destruct x as [|d x]; [reflexivity|].
  rewrite Demo_toUpperCase_cons.
  assert ((nat_of_ascii c =? 195)%nat = false) as H195
    by (apply Nat.eqb_neq; lia).
  assert ((nat_of_ascii c =? 194)%nat = false) as H194
    by (apply Nat.eqb_neq; lia).
  rewrite H195, H194. simpl andb. cbv iota.
  rewrite (IH Hx). reflexivity.
Qed.

(** The round trip of a first post of [alice]. *)
Lemma indexRecord_round_trip_witness :
  Demo.index (Demo.post_uri "3jk") (Demo.post_obj "hello") Demo.empty
     = (Js.ok tt,
        snd (Demo.index (Demo.post_uri "3jk") (Demo.post_obj "hello")
               Demo.empty))
  /\ getRecord Json.parse
       (snd (Demo.index (Demo.post_uri "3jk") (Demo.post_obj "hello")
               Demo.empty))
       (Demo.post_uri "3jk")
     = Js.ok (Some (Demo.post_obj "hello"))
  /\ In "app.bsky.post"
        (listCollectionsForDid
           (snd (Demo.index (Demo.post_uri "3jk") (Demo.post_obj "hello")
                   Demo.empty))
           Demo.alice).
Proof.
  assert (Demo.index (Demo.post_uri "3jk") (Demo.post_obj "hello")
            Demo.empty
          = (Js.ok tt,
             snd (Demo.index (Demo.post_uri "3jk") (Demo.post_obj "hello")
                    Demo.empty))) as Hok
    by (vm_compute; reflexivity).
  split; [exact Hok|].
  exact (@indexRecord_round_trip _ _ _ Demo.database (Demo.post_uri "3jk")
            (Demo.post_obj "hello") _ _ Demo.empty _ Hok).
Defined.

(** Pages of three posts that were indexed out of the order of their
    keys. *)
Lemma listRecordsForCollection_pagination_witness :
  Permutation
    (filter (owned_by Demo.alice "app.bsky.post") (record Demo.three_posts))
    [Demo.post_row "3ja" "first"; Demo.post_row "3jb" "second";
     Demo.post_row "3jc" "third"]
  /\ StronglySorted key_asc
       [Demo.post_row "3ja" "first"; Demo.post_row "3jb" "second";
        Demo.post_row "3jc" "third"]
  /\ listRecordsForCollection Json.parse Demo.three_posts Demo.alice
       "app.bsky.post" 2 false None None
     = Js.ok [Demo.post_listed "3ja" "first"; Demo.post_listed "3jb" "second"]
  /\ listRecordsForCollection Json.parse Demo.three_posts Demo.alice
       "app.bsky.post" 5 true None (Some "3ja")
     = Js.ok [Demo.post_listed "3jc" "third"; Demo.post_listed "3jb" "second"].
Proof.
  assert (Permutation
            (filter (owned_by Demo.alice "app.bsky.post")
                    (record Demo.three_posts))
            [Demo.post_row "3ja" "first"; Demo.post_row "3jb" "second";
             Demo.post_row "3jc" "third"]) as Hperm.
  { change (Permutation
              ([Demo.post_row "3jb" "second"; Demo.post_row "3jc" "third"]
               ++ [Demo.post_row "3ja" "first"])
              (Demo.post_row "3ja" "first"
               :: [Demo.post_row "3jb" "second";
                   Demo.post_row "3jc" "third"])).
    apply Permutation_sym, Permutation_cons_append. }
  assert (StronglySorted key_asc
            [Demo.post_row "3ja" "first"; Demo.post_row "3jb" "second";
             Demo.post_row "3jc" "third"]) as Hsorted
    by (repeat constructor).
  split; [exact Hperm|]. split; [exact Hsorted|].
  destruct (listRecordsForCollection_pagination Json.parse
              Demo.three_posts Demo.alice "app.bsky.post" Hperm Hsorted)
    as [Hfirst [_ [_ [_ Hreverse]]]].
  split.
  - rewrite Hfirst. vm_compute. reflexivity.
  - assert (length
              (filter (within None (Some "3ja"))
                 [Demo.post_row "3ja" "first"; Demo.post_row "3jb" "second";
                  Demo.post_row "3jc" "third"]) <= 5) as Hlimit
      by (vm_compute; lia).
    destruct (Hreverse 5 None (Some "3ja") Hlimit) as [_ Hlist].
    apply (Hlist [Demo.post_listed "3jb" "second";
                  Demo.post_listed "3jc" "third"]).
    vm_compute. reflexivity.
Defined.

(** With limit 2 of three posts, the reverse listing holds the two
    largest keys and the forward listing the two smallest: they are not
    the same records. *)
Lemma listRecordsForCollection_reverse_counterexample :
  listRecordsForCollection Json.parse Demo.three_posts Demo.alice
    "app.bsky.post" 2 false None None
  = Js.ok [Demo.post_listed "3ja" "first"; Demo.post_listed "3jb" "second"]
  /\ listRecordsForCollection Json.parse Demo.three_posts Demo.alice
       "app.bsky.post" 2 true None None
     = Js.ok [Demo.post_listed "3jc" "third"; Demo.post_listed "3jb" "second"]
  /\ ~ In (Demo.post_listed "3jc" "third")
         [Demo.post_listed "3ja" "first"; Demo.post_listed "3jb" "second"]
  /\ listRecordsForCollection Json.parse Demo.three_posts Demo.alice
       "app.bsky.post" 2 true None None
     <> Js.ok (rev [Demo.post_listed "3ja" "first";
                    Demo.post_listed "3jb" "second"]).
Proof.
  split; [vm_compute; reflexivity|]. split; [vm_compute; reflexivity|].
  split.
  - intros [H | [H | []]]; vm_compute in H; discriminate H.
  - intros H. vm_compute in H. discriminate H.
Qed.

(** An update of the root of an identity with a row, and of one
    without. *)
Lemma updateRepoRoot_overwrites_witness :
  Demo.CID_parse (Demo.CID_toString "bafynew") = Js.ok "bafynew"
  /\ getRepoRoot Demo.CID_parse
       (snd (updateRepoRoot Demo.CID_toString Demo.alice "bafynew"
               (Demo.with_roots
                  [{| RepoRootTbl.did := Demo.alice;
                      RepoRootTbl.root := "bafyold" |}])))
       Demo.alice
     = Js.ok (Some "bafynew")
  /\ getRepoRoot Demo.CID_parse
       (snd (updateRepoRoot Demo.CID_toString Demo.alice "bafynew"
               Demo.empty))
       Demo.alice
     = Js.ok None.
Proof.
  split; [reflexivity|]. split.
  - destruct (updateRepoRoot_overwrites Demo.CID_toString Demo.CID_parse
                (Demo.with_roots
                   [{| RepoRootTbl.did := Demo.alice;
                       RepoRootTbl.root := "bafyold" |}])
                Demo.alice (root := "bafynew") eq_refl)
      as [_ [Hrow _]].
    apply Hrow. reflexivity.
  - destruct (updateRepoRoot_overwrites Demo.CID_toString Demo.CID_parse
                Demo.empty Demo.alice (root := "bafynew") eq_refl)
      as [_ [_ [Hnone _]]].
    apply Hnone. reflexivity.
Defined.

(** [updateRepoRoot] for an identity without a row returns, writes
    nothing, and [getRepoRoot] then returns [null], not the root. *)
Lemma updateRepoRoot_counterexample :
  updateRepoRoot Demo.CID_toString Demo.alice "bafyroot" Demo.empty
  = (Js.ok tt, Demo.empty)
  /\ getRepoRoot Demo.CID_parse
       (snd (updateRepoRoot Demo.CID_toString Demo.alice "bafyroot"
               Demo.empty))
       Demo.alice
     = Js.ok None
  /\ getRepoRoot Demo.CID_parse
       (snd (updateRepoRoot Demo.CID_toString Demo.alice "bafyroot"
               Demo.empty))
       Demo.alice
     <> Js.ok (Some "bafyroot").
Proof.
  split; [reflexivity|]. split; [reflexivity|].
  intros H. vm_compute in H. discriminate H.
Qed.

(** A URI whose host is a domain name is rejected. *)
Lemma indexRecord_rejects_witness :
  Js.startsWith (AdxUri.host (Demo.uri "alice.test" "app.bsky.post" "3jk"))
    "did:" = false
  /\ exists e,
      Demo.index (Demo.uri "alice.test" "app.bsky.post" "3jk")
        (Demo.post_obj "hello") Demo.three_posts
      = (Js.throw e, Demo.three_posts)
      /\ ContractViolation e.
Proof.
  split; [reflexivity|].
  apply (indexRecord_rejects Json.stringify Demo.database). left.
  reflexivity.
Defined.

(** The verdicts for a collection without a plugin and for the
    collection of the likes, whose plugin is the second of the six and
    refuses a post that the plugin of the posts takes. *)
Lemma validateRecord_verdict_witness :
  registered Demo.database_with_likes "app.bsky.unknown" = false
  /\ registered Demo.database_with_likes "app.bsky.like" = true
  /\ In Demo.like_plugin (Object_values (records Demo.database_with_likes))
  /\ (exists r,
        validateRecord Demo.database_with_likes "app.bsky.unknown"
          (Demo.post_obj "hello") = Js.ok r
        /\ Lexicon.code r = Lexicon.Incompatible
        /\ Lexicon.message r = Some "Schema not found")
  /\ (exists before table after,
        Object_values (records Demo.database_with_likes)
        = (before ++ table :: after)%list
        /\ (forall p, In p before -> collection p <> "app.bsky.like")
        /\ collection table = "app.bsky.like"
        /\ validateRecord Demo.database_with_likes "app.bsky.like"
             (Demo.post_obj "hello")
           = Js.ok (validateSchema table (Demo.post_obj "hello")))
  /\ validateRecord Demo.database_with_likes "app.bsky.like"
       (Demo.post_obj "hello")
     = Js.ok
         (Lexicon._t Lexicon.new_ValidationResult Lexicon.Invalid
            "Like must have a subject")
  /\ validateRecord Demo.database_with_likes "app.bsky.post"
       (Demo.post_obj "hello")
     = Js.ok Lexicon.new_ValidationResult.
Proof.
  assert (In Demo.like_plugin
             (Object_values (records Demo.database_with_likes))) as Hin
    by (right; left; reflexivity).
  assert (In (Demo.plugin "app.bsky.post")
             (Object_values (records Demo.database_with_likes))) as Hin'
    by (left; reflexivity).
  split; [reflexivity|]. split; [reflexivity|]. split; [exact Hin|].
  destruct (validateRecord_verdict Demo.database_with_likes
              "app.bsky.unknown" (Demo.post_obj "hello"))
    as [_ [Hnone _]].
  destruct (validateRecord_verdict Demo.database_with_likes "app.bsky.like"
              (Demo.post_obj "hello")) as [_ [_ [Howned Hplugin]]].
  split; [apply Hnone; reflexivity|].
  split; [apply Howned; reflexivity|].
  split.
  - apply (Hplugin Demo.like_plugin Hin).
    intros p [<- | [<- | [<- | [<- | [<- | [<- | []]]]]]] Hcoll;
      try reflexivity; discriminate Hcoll.
  - apply (Hplugin (Demo.plugin "app.bsky.post") Hin').
    intros p [<- | [<- | [<- | [<- | [<- | [<- | []]]]]]] Hcoll;
      try reflexivity; discriminate Hcoll.
Defined.

(** [canIndexRecord] on the same two collections. *)
Lemma canIndexRecord_validateRecord_witness :
  registered Demo.database "app.bsky.post" = true
  /\ registered Demo.database "app.bsky.unknown" = false
  /\ (exists r,
        validateRecord Demo.database "app.bsky.post" Json.Null = Js.ok r
        /\ canIndexRecord Demo.database "app.bsky.post" Json.Null
           = Js.ok (Lexicon.valid r))
  /\ canIndexRecord Demo.database "app.bsky.unknown" Json.Null
     = Js.throw NotFound.
Proof.
  split; [reflexivity|]. split; [reflexivity|]. split.
  - destruct (canIndexRecord_validateRecord Demo.database "app.bsky.post"
                Json.Null) as [Hsome _].
    apply Hsome. reflexivity.
  - destruct (canIndexRecord_validateRecord Demo.database
                "app.bsky.unknown" Json.Null) as [_ Hnone].
    apply Hnone. reflexivity.
Defined.

(** The second of the three posts is deleted. *)
Lemma deleteRecord_removes_witness :
  registered Demo.database (AdxUri.collection (Demo.post_uri "3jb")) = true
  /\ deleteRecord Demo.database (Demo.post_uri "3jb") Demo.three_posts
     = (Js.ok tt,
        snd (deleteRecord Demo.database (Demo.post_uri "3jb")
               Demo.three_posts))
  /\ getRecord Json.parse
       (snd (deleteRecord Demo.database (Demo.post_uri "3jb")
               Demo.three_posts))
       (Demo.post_uri "3jb")
     = Js.ok None
  /\ ~ In (AdxUri.toString (Demo.post_uri "3jb"))
         (map RecordTbl.uri
            (select_listRecords
               (snd (deleteRecord Demo.database (Demo.post_uri "3jb")
                       Demo.three_posts))
               Demo.alice "app.bsky.post" 10 false None None)).
Proof.
  assert (registered Demo.database
            (AdxUri.collection (Demo.post_uri "3jb")) = true) as Hreg
    by reflexivity.
  assert (deleteRecord Demo.database (Demo.post_uri "3jb") Demo.three_posts
          = (Js.ok tt,
             snd (deleteRecord Demo.database (Demo.post_uri "3jb")
                    Demo.three_posts))) as Hok
    by (vm_compute; reflexivity).
  split; [exact Hreg|]. split; [exact Hok|].
  destruct (deleteRecord_removes Json.parse Demo.database
              (Demo.post_uri "3jb") Demo.three_posts Hreg Hok)
    as [Hget Hlist].
  split; [exact Hget|].
  apply (Hlist Demo.alice "app.bsky.post" 10 false None None).
Defined.

(** A URI of a collection without a plugin is not deleted. *)
Lemma deleteRecord_unregistered_witness :
  registered Demo.database
    (AdxUri.collection (Demo.uri Demo.alice "app.bsky.unknown" "3jb"))
  = false
  /\ deleteRecord Demo.database
       (Demo.uri Demo.alice "app.bsky.unknown" "3jb") Demo.three_posts
     = (Js.throw NotFound, Demo.three_posts).
Proof.
  split; [reflexivity|].
  apply (deleteRecord_unregistered Demo.database). reflexivity.
Defined.

(** The row of the scenario is projected. *)
Lemma rowToFeedItem_projection_witness :
  Json.parse (FeedRow.recordRaw Demo.repost_row) = Js.ok (Json.Object [])
  /\ exists item,
      rowToFeedItem Json.parse Demo.repost_row = Js.ok item
      /\ FeedItem.did (FeedItem.author item) = "did:x"
      /\ option_map FeedItem.did (FeedItem.repostedBy item) = Some "did:y"
      /\ FeedItem.like (FeedItem.myState item) = None
      /\ FeedItem.repost (FeedItem.myState item)
         = Some "at://did:x/app.x.repost/abc".
Proof.
  assert (Json.parse (FeedRow.recordRaw Demo.repost_row)
          = Js.ok (Json.Object [])) as Hraw
    by (vm_compute; reflexivity).
  split; [exact Hraw|].
  destruct (rowToFeedItem_projection Json.parse Demo.repost_row Hraw)
    as [item [Hitem [_ [_ [_ [_ [_ Hscenario]]]]]]].
  exists item. split; [exact Hitem|].
  apply Hscenario; reflexivity.
Defined.

(** The user "Alice" and the name "alice". *)
Lemma verifyUserPassword_case_sensitive_witness :
  In (Demo.user_row Demo.alice "Alice" "pw")
     (user (Demo.with_users [Demo.user_row Demo.alice "Alice" "pw"]))
  /\ Js.fold_ascii "alice"
     = Js.fold_ascii
         (UserTbl.username (Demo.user_row Demo.alice "Alice" "pw"))
  /\ Demo.toUpperCase "alice"
     = Demo.UPPER (UserTbl.username (Demo.user_row Demo.alice "Alice" "pw"))
  /\ getUser Demo.toUpperCase Demo.UPPER
       (Demo.with_users [Demo.user_row Demo.alice "Alice" "pw"]) "alice"
     = Some (Demo.user_row Demo.alice "Alice" "pw")
  /\ verifyUserPassword Demo.scrypt_verify
       (Demo.with_users [Demo.user_row Demo.alice "Alice" "pw"])
       "alice" "pw"
     = None
  /\ verifyUserPassword Demo.scrypt_verify
       (Demo.with_users [Demo.user_row Demo.alice "Alice" "pw"])
       "Alice" "pw"
     = Some Demo.alice.
Proof.
  assert (In (Demo.user_row Demo.alice "Alice" "pw")
             (user (Demo.with_users [Demo.user_row Demo.alice "Alice" "pw"])))
    as Hin by (left; reflexivity).
  assert (Js.fold_ascii "alice"
          = Js.fold_ascii
              (UserTbl.username (Demo.user_row Demo.alice "Alice" "pw")))
    as Hfold by reflexivity.
  destruct (verifyUserPassword_case_sensitive Demo.scrypt_verify
              Demo.toUpperCase Demo.UPPER
              (Demo.with_users [Demo.user_row Demo.alice "Alice" "pw"])
              (Demo.user_row Demo.alice "Alice" "pw") "alice" Hin)
    as [Hget [Hascii [Hnull Hexact]]].
  assert (Demo.toUpperCase "alice"
          = Demo.UPPER
              (UserTbl.username (Demo.user_row Demo.alice "Alice" "pw")))
    as Hupper
    by (apply (Hascii Demo_toUpperCase_ascii Demo_UPPER_ascii eq_refl
                 eq_refl Hfold)).
  split; [exact Hin|]. split; [exact Hfold|]. split; [exact Hupper|].
  split; [|split].
  - destruct (Hget Hupper eq_refl) as [found [Hfound [_ Hsame]]].
    rewrite Hfound. f_equal. apply Hsame.
    intros u' [<- | []] _. reflexivity.
  - apply Hnull. intros u' [<- | []]. discriminate.
  - apply Hexact.
    + intros u' [<- | []] _. reflexivity.
    + reflexivity.
Defined.

(** Three stores on which a name that differs from a user name in case
    only is not treated as stated: [getUser] takes a name that starts
    with "did:" for an identity and finds no user;
    [verifyUserPassword] returns the identity of a second user who has
    the name as it is spelled; and on the embedded engine, whose
    [UPPER] leaves the e with acute accent as it is, [getUser] does not
    find the user [jose] under the name in capitals. *)
Lemma verifyUserPassword_counterexample :
  (Js.fold_ascii "did:web:bob" = Js.fold_ascii "DID:web:bob"
   /\ getUser Demo.toUpperCase Demo.UPPER
        (Demo.with_users [Demo.user_row "did:example:bob" "DID:web:bob" "pw"])
        "did:web:bob"
      = None)
  /\ (Js.fold_ascii "alice" = Js.fold_ascii "Alice"
      /\ Demo.scrypt_verify "pw"
           (UserTbl.password (Demo.user_row Demo.alice "Alice" "pw"))
         = true
      /\ verifyUserPassword Demo.scrypt_verify
           (Demo.with_users
              [Demo.user_row Demo.alice "Alice" "pw";
               Demo.user_row "did:example:other" "alice" "pw"])
           "alice" "pw"
         = Some "did:example:other")
  /\ (Demo.toUpperCase Demo.jose
      = String "J" (String "O" (String "S" (String "195" (String "137"
          EmptyString))))
      /\ getUser Demo.toUpperCase Demo.UPPER
           (Demo.with_users [Demo.user_row "did:example:jose" Demo.jose "pw"])
           (Demo.toUpperCase Demo.jose)
         = None).
Proof. repeat split. Qed.

End Examples.

(** * More of the properties on the instance *)

Section MoreExamples.

(** A record of a collection without a plugin stays in the log. *)
Lemma indexRecord_unregistered_writes_log_witness :
  registered Demo.database "app.bsky.unknown" = false
  /\ Demo.index (Demo.uri Demo.alice "app.bsky.unknown" "3jk")
       (Demo.post_obj "hello") Demo.empty
     = (Js.throw NotFound,
        set_record
          (fun rows =>
             (rows
              ++ [row_of Json.stringify
                    (Demo.uri Demo.alice "app.bsky.unknown" "3jk")
                    (Demo.post_obj "hello") "2022-10-20T12:00:00.000Z"
                    "2022-10-20T12:00:00.000Z"])%list)
          Demo.empty).
Proof.
  split; [reflexivity|].
  apply (indexRecord_unregistered_writes_log Json.stringify Demo.database).
  - reflexivity.
  - discriminate.
  - discriminate.
  - reflexivity.
  - reflexivity.
Defined.

(** The first of the three posts is indexed once more. *)
Lemma indexRecord_twice_witness :
  Demo.index (Demo.post_uri "3jk") (Demo.post_obj "hello") Demo.empty
  = (Js.ok tt,
     snd (Demo.index (Demo.post_uri "3jk") (Demo.post_obj "hello")
            Demo.empty))
  /\ Demo.index (Demo.post_uri "3jk") (Demo.post_obj "again")
       (snd (Demo.index (Demo.post_uri "3jk") (Demo.post_obj "hello")
               Demo.empty))
     = (Js.throw Js.StorageFailure,
        snd (Demo.index (Demo.post_uri "3jk") (Demo.post_obj "hello")
               Demo.empty)).
Proof.
  assert (Demo.index (Demo.post_uri "3jk") (Demo.post_obj "hello") Demo.empty
          = (Js.ok tt,
             snd (Demo.index (Demo.post_uri "3jk") (Demo.post_obj "hello")
                    Demo.empty))) as Hok
    by (vm_compute; reflexivity).
  split; [exact Hok|].
  eapply indexRecord_twice. exact Hok.
Defined.

(** A fourth post leaves the second as it is. *)
Lemma indexRecord_other_uri_witness :
  AdxUri.toString (Demo.post_uri "3jb") <> AdxUri.toString (Demo.post_uri "3jd")
  /\ getRecord Json.parse
       (snd (Demo.index (Demo.post_uri "3jd") (Demo.post_obj "fourth")
               Demo.three_posts))
       (Demo.post_uri "3jb")
     = getRecord Json.parse Demo.three_posts (Demo.post_uri "3jb").
Proof.
  assert (AdxUri.toString (Demo.post_uri "3jb")
          <> AdxUri.toString (Demo.post_uri "3jd")) as Hneq
    by (vm_compute; discriminate).
  split; [exact Hneq|].
  apply (indexRecord_other_uri Json.stringify Json.parse Demo.database).
  exact Hneq.
Defined.

(** The deletion of the third post leaves the second as it is. *)
Lemma deleteRecord_other_uri_witness :
  AdxUri.toString (Demo.post_uri "3jb") <> AdxUri.toString (Demo.post_uri "3jc")
  /\ getRecord Json.parse
       (snd (deleteRecord Demo.database (Demo.post_uri "3jc")
               Demo.three_posts))
       (Demo.post_uri "3jb")
     = getRecord Json.parse Demo.three_posts (Demo.post_uri "3jb").
Proof.
  assert (AdxUri.toString (Demo.post_uri "3jb")
          <> AdxUri.toString (Demo.post_uri "3jc")) as Hneq
    by (vm_compute; discriminate).
  split; [exact Hneq|].
  apply (deleteRecord_other_uri Json.parse Demo.database). exact Hneq.
Defined.

(** With notifications that cannot be removed the deletion throws, and
    the row is gone from the log all the same. *)
Lemma deleteRecord_log_row_gone_witness :
  registered Demo.failing_database (AdxUri.collection (Demo.post_uri "3jb"))
  = true
  /\ fst (deleteRecord Demo.failing_database (Demo.post_uri "3jb")
            Demo.three_posts)
     = Js.throw Js.StorageFailure
  /\ getRecord Json.parse
       (snd (deleteRecord Demo.failing_database (Demo.post_uri "3jb")
               Demo.three_posts))
       (Demo.post_uri "3jb")
     = Js.ok None.
Proof.
  split; [reflexivity|]. split; [vm_compute; reflexivity|].
  apply (deleteRecord_log_row_gone Json.parse Demo.failing_database).
  reflexivity.
Defined.

(** With notifications that cannot be removed, the plugin's row is
    removed and the notifications stay. *)
Lemma deleteRecord_no_compensation_witness :
  findTableForCollection Demo.failing_database
    (AdxUri.collection (Demo.post_uri "3jb"))
  = Js.ok (Demo.plugin "app.bsky.post")
  /\ typed (snd (deleteRecord Demo.failing_database (Demo.post_uri "3jb")
                   Demo.three_posts))
     = snd (delete (Demo.plugin "app.bsky.post") (Demo.post_uri "3jb")
              (typed Demo.three_posts))
  /\ user_notification
       (snd (deleteRecord Demo.failing_database (Demo.post_uri "3jb")
               Demo.three_posts))
     = user_notification Demo.three_posts.
Proof.
  assert (findTableForCollection Demo.failing_database
            (AdxUri.collection (Demo.post_uri "3jb"))
          = Js.ok (Demo.plugin "app.bsky.post")) as Htable by reflexivity.
  split; [exact Htable|].
  destruct (deleteRecord_no_compensation Demo.failing_database
              (Demo.post_uri "3jb") Demo.three_posts Htable)
    as [Htyped [Hnotifs _]].
  split; [exact Htyped | exact Hnotifs].
Defined.

(** A fourth post is indexed and deleted again. *)
Lemma deleteRecord_after_indexRecord_witness :
  Demo.index (Demo.post_uri "3jd") (Demo.post_obj "fourth") Demo.three_posts
  = (Js.ok tt,
     snd (Demo.index (Demo.post_uri "3jd") (Demo.post_obj "fourth")
            Demo.three_posts))
  /\ record
       (snd (deleteRecord Demo.database (Demo.post_uri "3jd")
               (snd (Demo.index (Demo.post_uri "3jd")
                       (Demo.post_obj "fourth") Demo.three_posts))))
     = record Demo.three_posts.
Proof.
  assert (Demo.index (Demo.post_uri "3jd") (Demo.post_obj "fourth")
            Demo.three_posts
          = (Js.ok tt,
             snd (Demo.index (Demo.post_uri "3jd") (Demo.post_obj "fourth")
                    Demo.three_posts))) as Hok
    by (vm_compute; reflexivity).
  split; [exact Hok|].
  eapply deleteRecord_after_indexRecord. exact Hok.
Defined.

(** A post that was never indexed is deleted. *)
Lemma deleteRecord_absent_witness :
  existsb (fun r => String.eqb (RecordTbl.uri r)
                               (AdxUri.toString (Demo.post_uri "3jd")))
          (record Demo.three_posts) = false
  /\ record (snd (deleteRecord Demo.database (Demo.post_uri "3jd")
                    Demo.three_posts))
     = record Demo.three_posts.
Proof.
  split; [reflexivity|].
  destruct (deleteRecord_absent Demo.database (Demo.post_uri "3jd")
              Demo.three_posts) as [Habsent _].
  apply Habsent. reflexivity.
Defined.

(** A fourth post gives the collection of the posts a fourth entry. *)
Lemma listCollectionsForDid_after_indexRecord_witness :
  Demo.index (Demo.post_uri "3jd") (Demo.post_obj "fourth") Demo.three_posts
  = (Js.ok tt,
     snd (Demo.index (Demo.post_uri "3jd") (Demo.post_obj "fourth")
            Demo.three_posts))
  /\ listCollectionsForDid
       (snd (Demo.index (Demo.post_uri "3jd") (Demo.post_obj "fourth")
               Demo.three_posts))
       Demo.alice
     = ["app.bsky.post"; "app.bsky.post"; "app.bsky.post"; "app.bsky.post"].
Proof.
  assert (Demo.index (Demo.post_uri "3jd") (Demo.post_obj "fourth")
            Demo.three_posts
          = (Js.ok tt,
             snd (Demo.index (Demo.post_uri "3jd") (Demo.post_obj "fourth")
                    Demo.three_posts))) as Hok
    by (vm_compute; reflexivity).
  split; [exact Hok|].
  destruct (listCollectionsForDid_after_indexRecord Json.stringify
              Demo.database (Demo.post_uri "3jd") (Demo.post_obj "fourth")
              _ _ Demo.three_posts Hok) as [Hhost _].
  exact Hhost.
Defined.

(** Two of the three posts are returned under limit 2. *)
Lemma listRecordsForCollection_limit_witness :
  listRecordsForCollection Json.parse Demo.three_posts Demo.alice
    "app.bsky.post" 2 false None None
  = Js.ok [Demo.post_listed "3ja" "first"; Demo.post_listed "3jb" "second"]
  /\ length [Demo.post_listed "3ja" "first"; Demo.post_listed "3jb" "second"]
     = Nat.min 2
         (length (filter (where_listRecords Demo.alice "app.bsky.post"
                            None None)
                         (record Demo.three_posts))).
Proof.
  assert (listRecordsForCollection Json.parse Demo.three_posts Demo.alice
            "app.bsky.post" 2 false None None
          = Js.ok [Demo.post_listed "3ja" "first";
                   Demo.post_listed "3jb" "second"]) as Hl
    by (vm_compute; reflexivity).
  split; [exact Hl|].
  destruct (listRecordsForCollection_limit Json.parse Demo.three_posts
              Demo.alice "app.bsky.post" 2 false None None) as [Hlen _].
  exact (Hlen _ Hl).
Defined.

(** The entry of the first post is a record of the log. *)
Lemma listRecordsForCollection_sound_witness :
  listRecordsForCollection Json.parse Demo.three_posts Demo.alice
    "app.bsky.post" 2 false None None
  = Js.ok [Demo.post_listed "3ja" "first"; Demo.post_listed "3jb" "second"]
  /\ In (Demo.post_listed "3ja" "first")
        [Demo.post_listed "3ja" "first"; Demo.post_listed "3jb" "second"]
  /\ exists r,
      In r (record Demo.three_posts)
      /\ RecordTbl.did r = Demo.alice
      /\ RecordTbl.collection r = "app.bsky.post"
      /\ within None None r = true
      /\ Listed.uri (Demo.post_listed "3ja" "first") = RecordTbl.uri r
      /\ Json.parse (RecordTbl.raw r)
         = Js.ok (Listed.value (Demo.post_listed "3ja" "first")).
Proof.
  assert (listRecordsForCollection Json.parse Demo.three_posts Demo.alice
            "app.bsky.post" 2 false None None
          = Js.ok [Demo.post_listed "3ja" "first";
                   Demo.post_listed "3jb" "second"]) as Hl
    by (vm_compute; reflexivity).
  assert (In (Demo.post_listed "3ja" "first")
             [Demo.post_listed "3ja" "first";
              Demo.post_listed "3jb" "second"]) as Hin
    by (left; reflexivity).
  split; [exact Hl|]. split; [exact Hin|].
  eapply listRecordsForCollection_sound; [exact Hl | exact Hin].
Defined.


(** The page after the first post, and the page before the third. *)
Lemma listRecordsForCollection_cursor_witness :
  Permutation
    (filter (owned_by Demo.alice "app.bsky.post") (record Demo.three_posts))
    ([Demo.post_row "3ja" "first"]
     ++ Demo.post_row "3jb" "second" :: [Demo.post_row "3jc" "third"])
  /\ StronglySorted key_asc
       ([Demo.post_row "3ja" "first"]
        ++ Demo.post_row "3jb" "second" :: [Demo.post_row "3jc" "third"])
  /\ select_listRecords Demo.three_posts Demo.alice "app.bsky.post" 1 false
       None (Some "3jb")
     = [Demo.post_row "3jc" "third"]
  /\ select_listRecords Demo.three_posts Demo.alice "app.bsky.post" 1 true
       (Some "3jb") None
     = [Demo.post_row "3ja" "first"].
Proof.
  assert (Permutation
            (filter (owned_by Demo.alice "app.bsky.post")
                    (record Demo.three_posts))
            ([Demo.post_row "3ja" "first"]
             ++ Demo.post_row "3jb" "second"
                :: [Demo.post_row "3jc" "third"])) as Hperm.
  { change (Permutation
              ([Demo.post_row "3jb" "second"; Demo.post_row "3jc" "third"]
               ++ [Demo.post_row "3ja" "first"])
              (Demo.post_row "3ja" "first"
               :: [Demo.post_row "3jb" "second";
                   Demo.post_row "3jc" "third"])).
    apply Permutation_sym, Permutation_cons_append. }
  assert (StronglySorted key_asc
            ([Demo.post_row "3ja" "first"]
             ++ Demo.post_row "3jb" "second"
                :: [Demo.post_row "3jc" "third"])) as Hsorted
    by (repeat constructor).
  split; [exact Hperm|]. split; [exact Hsorted|].
  destruct (listRecordsForCollection_cursor Json.parse Demo.three_posts
              Demo.alice "app.bsky.post" [Demo.post_row "3ja" "first"]
              [Demo.post_row "3jc" "third"] (Demo.post_row "3jb" "second") 1
              Hperm Hsorted) as [Hnext [Hprev _]].
  split; [exact Hnext | exact Hprev].
Defined.

(** The root of a second identity after an update of the first. *)
Lemma updateRepoRoot_other_identities_witness :
  "did:example:bob" <> Demo.alice
  /\ getRepoRoot Demo.CID_parse
       (snd (updateRepoRoot Demo.CID_toString Demo.alice "bafynew"
               (Demo.with_roots
                  [{| RepoRootTbl.did := Demo.alice;
                      RepoRootTbl.root := "bafyold" |};
                   {| RepoRootTbl.did := "did:example:bob";
                      RepoRootTbl.root := "bafybob" |}])))
       "did:example:bob"
     = Js.ok (Some "bafybob").
Proof.
  assert ("did:example:bob" <> Demo.alice) as Hneq by discriminate.
  split; [exact Hneq|].
  destruct (updateRepoRoot_other_identities Demo.CID_toString Demo.CID_parse
              (Demo.with_roots
                 [{| RepoRootTbl.did := Demo.alice;
                     RepoRootTbl.root := "bafyold" |};
                  {| RepoRootTbl.did := "did:example:bob";
                     RepoRootTbl.root := "bafybob" |}])
              Demo.alice "bafynew") as [Hother _].
  rewrite (Hother "did:example:bob" Hneq). reflexivity.
Defined.

(** The user "Alice" under the names "alice" and "ALICE"; and the user
    [jose], whom the lookup on the embedded engine does not find under
    that very name. *)
Lemma getUser_case_insensitive_witness :
  Js.startsWith "alice" "did:" = false
  /\ Js.startsWith "ALICE" "did:" = false
  /\ Demo.toUpperCase "ALICE" = Demo.toUpperCase "alice"
  /\ getUser Demo.toUpperCase Demo.UPPER
       (Demo.with_users [Demo.user_row Demo.alice "Alice" "pw"]) "ALICE"
     = getUser Demo.toUpperCase Demo.UPPER
         (Demo.with_users [Demo.user_row Demo.alice "Alice" "pw"]) "alice"
  /\ getUser Demo.toUpperCase Demo.UPPER
       (Demo.with_users [Demo.user_row Demo.alice "Alice" "pw"]) "alice"
     = Some (Demo.user_row Demo.alice "Alice" "pw")
  /\ Js.startsWith Demo.jose "did:" = false
  /\ getUser Demo.toUpperCase Demo.UPPER
       (Demo.with_users
          [Demo.user_row Demo.alice "Alice" "pw";
           Demo.user_row "did:example:jose" Demo.jose "pw"])
       Demo.jose
     = None.
Proof.
  split; [reflexivity|]. split; [reflexivity|]. split; [reflexivity|].
  destruct (getUser_case_insensitive Demo.toUpperCase Demo.UPPER
              (Demo.with_users [Demo.user_row Demo.alice "Alice" "pw"])
              "alice") as [Hfold _].
  destruct (getUser_case_insensitive Demo.toUpperCase Demo.UPPER
              (Demo.with_users
                 [Demo.user_row Demo.alice "Alice" "pw";
                  Demo.user_row "did:example:jose" Demo.jose "pw"])
              Demo.jose) as [_ [_ [_ Hnull]]].
  split; [apply (Hfold "ALICE"); reflexivity|].
  split; [reflexivity|]. split; [reflexivity|].
  apply (Hnull eq_refl).
  intros u [<- | [<- | []]]; discriminate.
Defined.

(** An identity that no user has: [getUser] returns [null] and
    [getUserDid] the identity. *)
Lemma getUserDid_getUser_witness :
  Js.startsWith "did:example:nobody" "did:" = true
  /\ getUser Demo.toUpperCase Demo.UPPER
       (Demo.with_users [Demo.user_row Demo.alice "Alice" "pw"])
       "did:example:nobody" = None
  /\ getUserDid Demo.toUpperCase Demo.UPPER
       (Demo.with_users [Demo.user_row Demo.alice "Alice" "pw"])
       "did:example:nobody" = Some "did:example:nobody"
  /\ getUserDid Demo.toUpperCase Demo.UPPER
       (Demo.with_users [Demo.user_row Demo.alice "Alice" "pw"])
       "alice" = Some Demo.alice.
Proof.
  split; [reflexivity|]. split; [reflexivity|].
  destruct (getUserDid_getUser Demo.toUpperCase Demo.UPPER
              (Demo.with_users [Demo.user_row Demo.alice "Alice" "pw"])
              "did:example:nobody") as [_ [_ [Hdid _]]].
  destruct (getUserDid_getUser Demo.toUpperCase Demo.UPPER
              (Demo.with_users [Demo.user_row Demo.alice "Alice" "pw"])
              "alice") as [Hfound _].
  split; [apply Hdid; reflexivity|].
  apply (Hfound (Demo.user_row Demo.alice "Alice" "pw")). reflexivity.
Defined.

(** A second user is registered, logs in and is found under the name;
    a third, [jose], is registered and not found under that name on the
    embedded engine. *)
Lemma registerUser_then_lookup_witness :
  Demo.register "bob" "did:example:bob" "hunter2"
    (Demo.with_users [Demo.user_row Demo.alice "Alice" "pw"])
  = (Js.ok tt,
     snd (Demo.register "bob" "did:example:bob" "hunter2"
            (Demo.with_users [Demo.user_row Demo.alice "Alice" "pw"])))
  /\ Demo.register Demo.jose "did:example:jose" "hunter2"
       (Demo.with_users [Demo.user_row Demo.alice "Alice" "pw"])
     = (Js.ok tt,
        snd (Demo.register Demo.jose "did:example:jose" "hunter2"
               (Demo.with_users [Demo.user_row Demo.alice "Alice" "pw"])))
  /\ verifyUserPassword Demo.scrypt_verify
       (snd (Demo.register "bob" "did:example:bob" "hunter2"
               (Demo.with_users [Demo.user_row Demo.alice "Alice" "pw"])))
       "bob" "hunter2"
     = Some "did:example:bob"
  /\ verifyUserPassword Demo.scrypt_verify
       (snd (Demo.register "bob" "did:example:bob" "hunter2"
               (Demo.with_users [Demo.user_row Demo.alice "Alice" "pw"])))
       "bob" "guess"
     = None
  /\ getUser Demo.toUpperCase Demo.UPPER
       (snd (Demo.register "bob" "did:example:bob" "hunter2"
               (Demo.with_users [Demo.user_row Demo.alice "Alice" "pw"])))
       "bob"
     = Some (Demo.user_row "did:example:bob" "bob" "hunter2")
  /\ Demo.UPPER Demo.jose <> Demo.toUpperCase Demo.jose
  /\ getUser Demo.toUpperCase Demo.UPPER
       (snd (Demo.register Demo.jose "did:example:jose" "hunter2"
               (Demo.with_users [Demo.user_row Demo.alice "Alice" "pw"])))
       Demo.jose
     = None.
Proof.
  assert (Demo.register "bob" "did:example:bob" "hunter2"
            (Demo.with_users [Demo.user_row Demo.alice "Alice" "pw"])
          = (Js.ok tt,
             snd (Demo.register "bob" "did:example:bob" "hunter2"
                    (Demo.with_users
                       [Demo.user_row Demo.alice "Alice" "pw"])))) as Hok
    by (vm_compute; reflexivity).
  assert (Demo.register Demo.jose "did:example:jose" "hunter2"
            (Demo.with_users [Demo.user_row Demo.alice "Alice" "pw"])
          = (Js.ok tt,
             snd (Demo.register Demo.jose "did:example:jose" "hunter2"
                    (Demo.with_users
                       [Demo.user_row Demo.alice "Alice" "pw"])))) as Hok'
    by (vm_compute; reflexivity).
  assert (Demo.UPPER Demo.jose <> Demo.toUpperCase Demo.jose) as Hjose
    by discriminate.
  split; [exact Hok|]. split; [exact Hok'|].
  destruct (registerUser_then_lookup Demo.scrypt_verify Demo.toUpperCase
              Demo.UPPER Demo.user_accepts
              "bob@example.com" "bob" "did:example:bob" "hunter2"
              "scrypt:hunter2" "2022-10-20T12:00:00.000Z"
              "2022-10-20T12:00:00.000Z" _ Hok)
    as [_ [_ [_ [Hverify Hget]]]].
  destruct (registerUser_then_lookup Demo.scrypt_verify Demo.toUpperCase
              Demo.UPPER Demo.user_accepts
              (Demo.jose ++ "@example.com") Demo.jose "did:example:jose"
              "hunter2" "scrypt:hunter2" "2022-10-20T12:00:00.000Z"
              "2022-10-20T12:00:00.000Z" _ Hok')
    as [_ [_ [_ [_ Hget']]]].
  assert (forall u,
             In u (user (Demo.with_users
                           [Demo.user_row Demo.alice "Alice" "pw"])) ->
             UserTbl.username u <> "bob") as Hnew
    by (intros u [<- | []]; discriminate).
  split; [rewrite (Hverify Hnew "hunter2"); reflexivity|].
  split; [rewrite (Hverify Hnew "guess"); reflexivity|].
  split; [|split; [exact Hjose|]].
  - destruct (Hget eq_refl) as [Hfound _].
    + intros u [<- | []]; discriminate.
    + exact (Hfound eq_refl).
  - destruct (Hget' eq_refl) as [_ Hnull].
    + intros u [<- | []]; discriminate.
    + exact (Hnull Hjose).
Defined.

(** The first user logs in as before after a second is registered. *)
Lemma registerUser_keeps_users_witness :
  In (Demo.user_row Demo.alice "Alice" "pw")
     (user (Demo.with_users [Demo.user_row Demo.alice "Alice" "pw"]))
  /\ verifyUserPassword Demo.scrypt_verify
       (snd (Demo.register "alice" "did:example:other" "hunter2"
               (Demo.with_users [Demo.user_row Demo.alice "Alice" "pw"])))
       "Alice" "pw"
     = Some Demo.alice.
Proof.
  assert (In (Demo.user_row Demo.alice "Alice" "pw")
             (user (Demo.with_users [Demo.user_row Demo.alice "Alice" "pw"])))
    as Hin by (left; reflexivity).
  split; [exact Hin|].
  destruct (registerUser_keeps_users Demo.scrypt_verify Demo.toUpperCase
              Demo.UPPER Demo.user_accepts
              "alice@example.com" "alice" "did:example:other" "hunter2"
              "scrypt:hunter2" "2022-10-20T12:00:00.000Z"
              "2022-10-20T12:00:00.000Z"
              (Demo.with_users [Demo.user_row Demo.alice "Alice" "pw"]))
    as [_ [Hverify _]].
  transitivity
    (verifyUserPassword Demo.scrypt_verify
       (Demo.with_users [Demo.user_row Demo.alice "Alice" "pw"])
       "Alice" "pw"); [|reflexivity].
  exact (Hverify "Alice" "pw" _ Hin eq_refl).
Defined.

(** The user changes the password. *)
Lemma updateUserPassword_then_verify_witness :
  In (Demo.user_row Demo.alice "Alice" "pw")
     (user (Demo.with_users [Demo.user_row Demo.alice "Alice" "pw"]))
  /\ verifyUserPassword Demo.scrypt_verify
       (snd (updateUserPassword Demo.alice "new" "scrypt:new"
               (Demo.with_users [Demo.user_row Demo.alice "Alice" "pw"])))
       "Alice" "new"
     = Some Demo.alice
  /\ verifyUserPassword Demo.scrypt_verify
       (snd (updateUserPassword Demo.alice "new" "scrypt:new"
               (Demo.with_users [Demo.user_row Demo.alice "Alice" "pw"])))
       "Alice" "pw"
     = None.
Proof.
  assert (In (Demo.user_row Demo.alice "Alice" "pw")
             (user (Demo.with_users [Demo.user_row Demo.alice "Alice" "pw"])))
    as Hin by (left; reflexivity).
  assert (forall u',
             In u' (user (Demo.with_users
                            [Demo.user_row Demo.alice "Alice" "pw"])) ->
             UserTbl.username u'
             = UserTbl.username (Demo.user_row Demo.alice "Alice" "pw") ->
             u' = Demo.user_row Demo.alice "Alice" "pw") as Huniq
    by (intros u' [<- | []] _; reflexivity).
  split; [exact Hin|]. split.
  - exact (updateUserPassword_then_verify Demo.scrypt_verify _ "new"
             "scrypt:new" Hin Huniq "new").
  - exact (updateUserPassword_then_verify Demo.scrypt_verify _ "new"
             "scrypt:new" Hin Huniq "pw").
Defined.

(** Another user's password leaves the first user's login as it is. *)
Lemma updateUserPassword_other_users_witness :
  (forall u,
      In u (user (Demo.with_users [Demo.user_row Demo.alice "Alice" "pw"])) ->
      UserTbl.username u = "Alice" -> UserTbl.did u <> "did:example:bob")
  /\ verifyUserPassword Demo.scrypt_verify
       (snd (updateUserPassword "did:example:bob" "new" "scrypt:new"
               (Demo.with_users [Demo.user_row Demo.alice "Alice" "pw"])))
       "Alice" "pw"
     = Some Demo.alice.
Proof.
  assert (forall u,
             In u (user (Demo.with_users
                           [Demo.user_row Demo.alice "Alice" "pw"])) ->
             UserTbl.username u = "Alice" ->
             UserTbl.did u <> "did:example:bob") as Hother
    by (intros u [<- | []] _; discriminate).
  split; [exact Hother|].
  destruct (updateUserPassword_other_users Demo.scrypt_verify
              Demo.toUpperCase Demo.UPPER
              (Demo.with_users [Demo.user_row Demo.alice "Alice" "pw"])
              "did:example:bob" "new" "scrypt:new") as [_ [Hverify _]].
  rewrite (Hverify "Alice" "pw" Hother). reflexivity.
Defined.

(** A plain post with the fields of an originator filled in. *)
Lemma rowToFeedItem_post_ignores_originator_witness :
  FeedRow.type Demo.post_feed_row = FeedRow.post
  /\ rowToFeedItem Json.parse
       {| FeedRow.type := FeedRow.post;
          FeedRow.postUri := FeedRow.postUri Demo.post_feed_row;
          FeedRow.cursor := FeedRow.cursor Demo.post_feed_row;
          FeedRow.recordRaw := FeedRow.recordRaw Demo.post_feed_row;
          FeedRow.indexedAt := FeedRow.indexedAt Demo.post_feed_row;
          FeedRow.authorDid := FeedRow.authorDid Demo.post_feed_row;
          FeedRow.authorName := FeedRow.authorName Demo.post_feed_row;
          FeedRow.authorDisplayName :=
            FeedRow.authorDisplayName Demo.post_feed_row;
          FeedRow.originatorDid := "did:y";
          FeedRow.originatorName := "y.test";
          FeedRow.originatorDisplayName := Js.notnull "Y";
          FeedRow.likeCount := FeedRow.likeCount Demo.post_feed_row;
          FeedRow.repostCount := FeedRow.repostCount Demo.post_feed_row;
          FeedRow.replyCount := FeedRow.replyCount Demo.post_feed_row;
          FeedRow.requesterRepost :=
            FeedRow.requesterRepost Demo.post_feed_row;
          FeedRow.requesterLike := FeedRow.requesterLike Demo.post_feed_row |}
     = rowToFeedItem Json.parse Demo.post_feed_row.
Proof.
  split; [reflexivity|].
  exact (rowToFeedItem_post_ignores_originator Json.parse Demo.post_feed_row
           "did:y" "y.test" (Js.notnull "Y") eq_refl).
Defined.

(** A schema of letters and an underscore is let through; one with a
    quotation mark in it is refused. *)
Lemma postgres_schema_witness :
  ("test_suite" <> EmptyString
   /\ forall ch, In ch (list_ascii_of_string "test_suite") ->
                 (65 <= nat_of_ascii ch <= 90
                  \/ 97 <= nat_of_ascii ch <= 122
                  \/ nat_of_ascii ch = 95)%nat)
  /\ postgres "postgres://localhost/test" (Some "test_suite")
     = Js.ok {| dialect := Dialect.pg; schema := Some "test_suite";
                target := "postgres://localhost/test";
                on_connect := Some (search_path_statement "test_suite") |}
  /\ ~ In "034"%char (list_ascii_of_string "test_suite")
  /\ postgres "postgres://localhost/test"
       (Some (String "a" (String "034" "; DROP SCHEMA public")))
     = Js.throw
         (Js.Error
            ("Postgres schema must only contain [A-Za-z_]: "
             ++ String "a" (String "034" "; DROP SCHEMA public"))).
Proof.
  assert ("test_suite" <> EmptyString
          /\ forall ch, In ch (list_ascii_of_string "test_suite") ->
                        (65 <= nat_of_ascii ch <= 90
                         \/ 97 <= nat_of_ascii ch <= 122
                         \/ nat_of_ascii ch = 95)%nat) as Hgood.
  { split; [discriminate|]. intros ch Hin. simpl in Hin.
    repeat (destruct Hin as [<- | Hin]; [vm_compute; lia|]).
    destruct Hin. }
  split; [exact Hgood|].
  destruct (postgres_schema "postgres://localhost/test" "test_suite")
    as [Haccepted [_ [Hquote _]]].
  destruct (postgres_schema "postgres://localhost/test"
              (String "a" (String "034" "; DROP SCHEMA public")))
    as [_ [Hrefused _]].
  split; [exact (Haccepted Hgood)|].
  split; [exact (proj2 (Hquote _ (Haccepted Hgood)))|].
  apply Hrefused. intros [_ Hall].
  assert (In "034"%char
             (list_ascii_of_string
                (String "a" (String "034" "; DROP SCHEMA public")))) as Hin
    by (right; left; reflexivity).
  apply Hall in Hin. change (nat_of_ascii "034") with 34%nat in Hin. lia.
Defined.

End MoreExamples.
